(** * ProfAI real-time audio streaming: a shallow embedding

    The development follows the Python sources

      - [utils/connection_monitor.py]   closure classification, connection checks
      - [websocket_server.py]           socket wrapper, session loop, request handlers
      - [services/audio_service.py]     provider selection and fallback
      - [services/sarvam_service.py]    Sarvam streaming, text chunking
      - [services/elevenlabs_service.py] ElevenLabs streaming

    Python coroutines become functions in a state-and-exception monad over the
    session state; async generators become finite resumption trees that the
    consumer drives one [yield] at a time; everything an external party decides
    (what a provider streams, whether a collaborator times out, when the peer
    closes the socket) is an explicit input. *)

From Stdlib Require Import List Bool Arith ZArith Lia String Ascii DecimalString.
From Stdlib Require Strings.Byte.
Import ListNotations.

Set Implicit Arguments.
Unset Strict Implicit.
Set Default Goal Selector "!".

Open Scope string_scope.
Open Scope list_scope.
Open Scope nat_scope.

(* ================================================================== *)
(** * Python strings used in messages *)
(* ================================================================== *)

Module PyStr.

(** [str.lower()] on the 8-bit range the messages of this program use. *)
Definition lower_ascii (c : ascii) : ascii :=
  let n := nat_of_ascii c in
  if (65 <=? n) && (n <=? 90) then ascii_of_nat (n + 32) else c.

Fixpoint lower (s : string) : string :=
  match s with
  | EmptyString => EmptyString
  | String c s' => String (lower_ascii c) (lower s')
  end.

(** [needle in hay]. *)
Fixpoint contains (needle hay : string) : bool :=
  String.prefix needle hay ||
  match hay with
  | EmptyString => false
  | String _ hay' => contains needle hay'
  end.

(** [any(ind in msg for ind in inds)]. *)
Definition any_in (inds : list string) (msg : string) : bool :=
  existsb (fun ind => contains ind msg) inds.

(** Truthiness of a string: [if s] / [if not s]. *)
Definition truthy (s : string) : bool :=
  match s with EmptyString => false | _ => true end.

(** [str.isspace] on the same range. *)
Definition isspace (c : ascii) : bool :=
  let n := nat_of_ascii c in
  ((9 <=? n) && (n <=? 13)) || ((28 <=? n) && (n <=? 32)) ||
  (n =? 133) || (n =? 160).

(** [len(s.strip()) == 0]. *)
Fixpoint blank (s : string) : bool :=
  match s with
  | EmptyString => true
  | String c s' => isspace c && blank s'
  end.

(** [str(n)] for an integer. *)
Definition of_Z (z : Z) : string := NilZero.string_of_int (Z.to_int z).

End PyStr.

(* ================================================================== *)
(** * Exceptions *)
(* ================================================================== *)

(** The exception classes the sources distinguish.  [ConnectionClosedOK] and
    [ConnectionClosedError] are the two subclasses of [ConnectionClosed] of the
    websockets library; [code] is the attribute [exception.code]. *)
Inductive exn : Type :=
| ConnectionClosed (code : Z) (msg : string)
| ConnectionClosedOK (code : Z) (msg : string)
| ConnectionClosedError (code : Z) (msg : string)
| TimeoutError
| JSONDecodeError (msg : string)
| Exception_ (msg : string).

(** [isinstance(e, ConnectionClosed)]. *)
Definition isinstance_ConnectionClosed (e : exn) : bool :=
  match e with
  | ConnectionClosed _ _ | ConnectionClosedOK _ _ | ConnectionClosedError _ _ => true
  | _ => false
  end.

(** [isinstance(e, ConnectionClosedOK)]. *)
Definition isinstance_ConnectionClosedOK (e : exn) : bool :=
  match e with
  | ConnectionClosedOK _ _ => true
  | _ => false
  end.

(** [exception.code] of a connection closure. *)
Definition exn_code (e : exn) : option Z :=
  match e with
  | ConnectionClosed c _ | ConnectionClosedOK c _ | ConnectionClosedError c _ => Some c
  | _ => None
  end.

(** [str(e)]. *)
Definition exn_str (e : exn) : string :=
  match e with
  | ConnectionClosed _ m | ConnectionClosedOK _ m | ConnectionClosedError _ m => m
  | TimeoutError => EmptyString
  | JSONDecodeError m => m
  | Exception_ m => m
  end.

(** [code in (1000, 1001)]. *)
Definition code_in_1000_1001 (c : Z) : bool := ((c =? 1000) || (c =? 1001))%Z.

(* ================================================================== *)
(** * utils/connection_monitor.py *)
(* ================================================================== *)

Module ConnectionMonitor.

Definition normal_indicators : list string :=
  ["code = 1000"; "code = 1001"; "going away"; "normal closure"].

(** [is_normal_closure(exception)], lines 20-48. *)
Definition is_normal_closure (exception : exn) : bool :=
  if isinstance_ConnectionClosedOK exception then true
  else if isinstance_ConnectionClosed exception then
    match exn_code exception with
    | Some c => code_in_1000_1001 c
    | None => false
    end
  else
    let error_msg := PyStr.lower (exn_str exception) in
    PyStr.any_in normal_indicators error_msg.

Definition is_abnormal_disconnection (exception : exn) : bool :=
  negb (is_normal_closure exception).

(** What the connection checks look at on a socket object: the optional
    attributes [closed], [state] and [open] ([hasattr] is [Some]). *)
Record sock_view : Type := SockView {
  attr_closed : option bool;
  attr_state : option Z;
  attr_open : option bool
}.

(** [is_client_connected(websocket)], lines 81-113; [None] is a falsy
    [websocket]. *)
Definition is_client_connected (websocket : option sock_view) : bool :=
  match websocket with
  | None => false
  | Some w =>
      match attr_closed w with
      | Some true => false
      | _ =>
          match attr_state w with
          | Some s => (s =? 1)%Z
          | None =>
              match attr_open w with
              | Some o => o
              | None => true
              end
          end
      end
  end.

Definition is_client_disconnected (websocket : option sock_view) : bool :=
  negb (is_client_connected websocket).

Definition should_continue_streaming (websocket : option sock_view) : bool :=
  is_client_connected websocket.

End ConnectionMonitor.

(* ================================================================== *)
(** * services/sarvam_service.py: text chunking *)
(* ================================================================== *)

Module Chunker.

(** A Python [str] is a sequence of code points; [len] is its length. *)
Definition char : Type := N.
Definition str : Type := list char.

(** Code points of a literal, for examples. *)
Definition s (lit : string) : str :=
  map N_of_ascii (list_ascii_of_string lit).

(** The white space of [str.split()] and [str.strip()]
    (the code points for which [str.isspace] holds). *)
Definition isspace (c : char) : bool :=
  (((9 <=? c) && (c <=? 13)) || ((28 <=? c) && (c <=? 32)) ||
   (c =? 133) || (c =? 160) || (c =? 5760) ||
   ((8192 <=? c) && (c <=? 8202)) || (c =? 8232) || (c =? 8233) ||
   (c =? 8239) || (c =? 8287) || (c =? 12288))%N.

Definition space : char := 32%N.

Definition truthy (x : str) : bool :=
  match x with [] => false | _ => true end.

(** [text.split()]: the maximal runs of non-space characters; [cur] is the
    run being read. *)
Fixpoint split_from (cur : str) (text : str) : list str :=
  match text with
  | [] => if truthy cur then [cur] else []
  | c :: rest =>
      if isspace c
      then (if truthy cur then cur :: split_from [] rest else split_from [] rest)
      else split_from (cur ++ [c]) rest
  end.

Definition split (text : str) : list str := split_from [] text.

Fixpoint lstrip (x : str) : str :=
  match x with
  | [] => []
  | c :: rest => if isspace c then lstrip rest else x
  end.

Definition rstrip (x : str) : str := rev (lstrip (rev x)).

(** [x.strip()]. *)
Definition strip (x : str) : str := rstrip (lstrip x).

(** [" ".join(words)]. *)
Fixpoint join_words (words : list str) : str :=
  match words with
  | [] => []
  | [w] => w
  | w :: rest => w ++ space :: join_words rest
  end.

(** One iteration of the [for word in words] loop of [_split_text_fast]
    (lines 692-698) on the pair [(chunks, current_chunk)]. *)
Definition fast_step (max_chunk_size : Z) (st : list str * str) (word : str)
  : list str * str :=
  let '(chunks, current_chunk) := st in
  if (Z.of_nat (List.length current_chunk) + Z.of_nat (List.length word) + 1
        <=? max_chunk_size)%Z
  then (chunks,
        current_chunk ++ (if truthy current_chunk then space :: word else word))
  else ((if truthy current_chunk then chunks ++ [strip current_chunk] else chunks),
        word).

(** [_split_text_fast(text, max_chunk_size)], lines 684-703. *)
Definition _split_text_fast (text : str) (max_chunk_size : Z) : list str :=
  let words := split text in
  let '(chunks, current_chunk) :=
    fold_left (fast_step max_chunk_size) words ([], []) in
  if truthy current_chunk then chunks ++ [strip current_chunk] else chunks.

(** The first loop of [_split_text_for_immediate_streaming] (lines 429-434),
    which leaves at the first word that does not fit. *)
Fixpoint first_chunk_loop (max_chunk_size : Z) (words : list str)
         (first_chunk : str) (word_count : nat) : str :=
  match words with
  | [] => first_chunk
  | word :: rest =>
      if ((Z.of_nat (List.length (first_chunk ++ space :: word)) <=? max_chunk_size)%Z
          && (word_count <? 100))%bool
      then first_chunk_loop max_chunk_size rest
             (first_chunk ++ (if truthy first_chunk then space :: word else word))
             (S word_count)
      else first_chunk
  end.

(** [_split_text_for_immediate_streaming(text, max_chunk_size)],
    lines 416-448. *)
Definition _split_text_for_immediate_streaming (text : str) (max_chunk_size : Z)
  : list str :=
  let words := split text in
  match words with
  | [] => []
  | _ =>
      let first_chunk := first_chunk_loop max_chunk_size words [] 0 in
      if truthy first_chunk then
        let remaining_text := strip (skipn (List.length first_chunk) text) in
        [strip first_chunk] ++
        (if truthy remaining_text
         then _split_text_fast remaining_text max_chunk_size
         else [])
      else _split_text_fast text max_chunk_size
  end.

(** A word: not empty, no white space. *)
Definition word (w : str) : Prop :=
  w <> [] /\ Forall (fun c => isspace c = false) w.

(** A run of white space. *)
Definition blanks (t : str) : Prop := Forall (fun c => isspace c = true) t.

End Chunker.

(* ================================================================== *)
(** * Audio payloads, providers and async generators *)
(* ================================================================== *)

(** [bytes]. *)
Definition bytes : Type := list Init.Byte.byte.

(** [if chunk and len(chunk) > 0]. *)
Definition nonempty (b : bytes) : bool :=
  match b with [] => false | _ :: _ => true end.

(** The external speech back ends a job can open a request to. *)
Inductive provider_call : Type :=
| ElevenLabsStream   (* websockets.connect(... multi-stream-input) *)
| ElevenLabsRest     (* requests.post(... /v1/text-to-speech/...) *)
| SarvamStream       (* text_to_speech_streaming.connect in stream_audio_generation *)
| SarvamSingle.      (* text_to_speech_streaming.connect in _generate_audio_single *)

(** How a provider's stream of messages ends: the iteration finishes, or
    connecting, sending or receiving raises. *)
Inductive stream_end : Type :=
| EndOk
| EndRaise (e : exn).

(** An async generator of audio chunks, unfolded: the consumer resumes it at
    each [Yield]; [Invoke] marks the point where it opens a request to a
    provider; [Throw] is an exception leaving the generator.  A generator of
    this type comes to its end: a provider socket that stays open and silent
    for ever (the sources iterate it without a timeout) has no counterpart
    here, so what is proved is about the runs in which the providers end
    their streams. *)
Inductive gen : Type :=
| Done
| Throw (e : exn)
| Yield (chunk : bytes) (k : gen)
| Invoke (p : provider_call) (k : gen).

(** [try: <g> except Exception as e: <h e>] inside a generator. *)
Fixpoint gen_catch (g : gen) (h : exn -> gen) : gen :=
  match g with
  | Done => Done
  | Throw e => h e
  | Yield c k => Yield c (gen_catch k h)
  | Invoke p k => Invoke p (gen_catch k h)
  end.

(** [async for chunk in <g>: if chunk and len(chunk) > 0: yield chunk]. *)
Fixpoint gen_forward_nonempty (g : gen) : gen :=
  match g with
  | Done => Done
  | Throw e => Throw e
  | Yield c k =>
      if nonempty c then Yield c (gen_forward_nonempty k)
      else gen_forward_nonempty k
  | Invoke p k => Invoke p (gen_forward_nonempty k)
  end.

(** [if audio: yield audio]. *)
Definition yield_if_nonempty (audio : bytes) (k : gen) : gen :=
  if nonempty audio then Yield audio k else k.

(** Observations on a generator that is run to its end. *)
Fixpoint gen_calls (g : gen) : list provider_call :=
  match g with
  | Done | Throw _ => []
  | Yield _ k => gen_calls k
  | Invoke p k => p :: gen_calls k
  end.

Fixpoint gen_yields (g : gen) : list bytes :=
  match g with
  | Done | Throw _ => []
  | Yield c k => c :: gen_yields k
  | Invoke _ k => gen_yields k
  end.

Fixpoint gen_raises (g : gen) : option exn :=
  match g with
  | Done => None
  | Throw e => Some e
  | Yield _ k | Invoke _ k => gen_raises k
  end.

(** Does the generator open a provider request after it has already yielded a
    non-empty chunk? *)
Fixpoint invokes_any (g : gen) : bool :=
  match g with
  | Done | Throw _ => false
  | Yield _ k => invokes_any k
  | Invoke _ _ => true
  end.

Fixpoint invokes_after_delivery (g : gen) : bool :=
  match g with
  | Done | Throw _ => false
  | Yield c k => if nonempty c then invokes_any k else invokes_after_delivery k
  | Invoke _ k => invokes_after_delivery k
  end.

(** What the providers do during one job. *)
Inductive el_message : Type :=
| ElJson (audio : option bytes) (is_final : bool)
    (* a JSON object; [audio] is the decoded [data["audio"]] when truthy;
       [is_final] is [data.get("is_final") or data.get("isFinal")] *)
| ElBinary (payload : bytes)
    (* a bytes frame that [json.loads] decodes as text and rejects with
       [JSONDecodeError] *)
| ElText                         (* a text frame that is no JSON *)
| ElRaises (e : exn).
    (* a frame on which the body of the loop raises anything but
       [JSONDecodeError]: a bytes frame that is no text in UTF-8, UTF-16 or
       UTF-32 ([UnicodeDecodeError]), a JSON value that is no object
       ([AttributeError] on [data.get]), an ["audio"] entry that
       [base64.b64decode] rejects *)

Inductive tts_resp : Type :=
| TtsAudio (audio : bytes)       (* has [data.audio], decoded *)
| TtsOther.

Inductive single_outcome : Type :=
| SingleAudio (audio : bytes)    (* _generate_audio_single collected this *)
| SingleRaised                   (* the connection raised *)
| SingleTimeout.                 (* asyncio.wait_for(..., 10.0) expired *)

Record providers : Type := Providers {
  el_msgs : list el_message;     (* frames of the ElevenLabs socket *)
  el_end : stream_end;
  el_rest : option bytes;        (* REST response content, [None] when it raises *)
  sv_resps : list tts_resp;      (* responses of the Sarvam streaming socket *)
  sv_end : stream_end;
  sv_single : single_outcome
}.

(* ================================================================== *)
(** * services/elevenlabs_service.py *)
(* ================================================================== *)

Module ElevenLabsService.

Record t : Type := Make { api_key_present : bool }.

Definition enabled (self : t) : bool := api_key_present self.

(** [text_to_speech(text)], lines 132-176: never raises. *)
Definition text_to_speech (self : t) (w : providers)
  : list provider_call * bytes :=
  if negb (enabled self) then ([], [])
  else ([ElevenLabsRest],
        match el_rest w with Some content => content | None => [] end).

(** Lines 111-116, after the receive loop. *)
Definition after_receive (total_received : nat) : gen :=
  if total_received =? 0
  then Throw (Exception_ "No audio data received from streaming")
  else Done.

(** The receive loop, lines 89-109.  Its [try] catches [JSONDecodeError]
    only: any other exception of the body leaves the loop, with the frames
    that follow unread, for the [except] clause of line 118. *)
Fixpoint receive (msgs : list el_message) (fin : stream_end)
         (total_received : nat) : gen :=
  match msgs with
  | [] =>
      match fin with
      | EndRaise e => Throw e
      | EndOk => after_receive total_received
      end
  | ElJson audio is_final :: rest =>
      let audio_bytes := match audio with Some b => b | None => [] end in
      let total' :=
        if nonempty audio_bytes
        then total_received + List.length audio_bytes else total_received in
      yield_if_nonempty audio_bytes
        (if is_final then after_receive total' else receive rest fin total')
  | ElBinary payload :: rest =>
      if nonempty payload
      then Yield payload (receive rest fin (total_received + List.length payload))
      else receive rest fin total_received
  | ElText :: rest => receive rest fin total_received
  | ElRaises e :: _ => Throw e
  end.

(** The REST fallback of lines 118-130. *)
Definition rest_fallback (self : t) (w : providers) : gen :=
  let '(calls, audio) := text_to_speech self w in
  fold_right Invoke (yield_if_nonempty audio Done) calls.

(** [text_to_speech_stream(text)], lines 42-130. *)
Definition text_to_speech_stream (self : t) (w : providers) : gen :=
  if negb (enabled self) then Done
  else
    gen_catch
      (Invoke ElevenLabsStream (receive (el_msgs w) (el_end w) 0))
      (fun _ => gen_catch (rest_fallback self w) (fun _ => Done)).

(** [generate_audio_from_text(text, language)], lines 178-192. *)
Definition generate_audio_from_text (self : t) (w : providers)
  : list provider_call * bytes :=
  text_to_speech self w.

End ElevenLabsService.

(* ================================================================== *)
(** * services/sarvam_service.py: streaming *)
(* ================================================================== *)

Module SarvamService.

(** [_generate_audio_single] under [asyncio.wait_for(..., timeout=10.0)] in
    [generate_audio_ultra_fast], lines 110-136: every failure becomes an
    empty buffer. *)
Definition generate_audio_ultra_fast (w : providers)
  : list provider_call * bytes :=
  ([SarvamSingle],
   match sv_single w with
   | SingleAudio audio => audio
   | SingleRaised => []
   | SingleTimeout => []
   end).

(** The forwarding loop, lines 162-182; a failing [flush] is swallowed. *)
Fixpoint forward (resps : list tts_resp) (fin : stream_end) : gen :=
  match resps with
  | [] =>
      match fin with
      | EndRaise e => Throw e
      | EndOk => Done
      end
  | TtsAudio audio_bytes :: rest => Yield audio_bytes (forward rest fin)
  | TtsOther :: rest => forward rest fin
  end.

(** Lines 184-194. *)
Definition simple_fallback (w : providers) : gen :=
  let '(calls, audio_buffer) := generate_audio_ultra_fast w in
  fold_right Invoke (yield_if_nonempty audio_buffer Done) calls.

(** [stream_audio_generation(text, language_code, speaker, websocket)],
    lines 138-194. *)
Definition stream_audio_generation (w : providers) : gen :=
  gen_catch
    (Invoke SarvamStream (forward (sv_resps w) (sv_end w)))
    (fun _ => gen_catch (simple_fallback w) (fun _ => Done)).

End SarvamService.

(* ================================================================== *)
(** * services/audio_service.py *)
(* ================================================================== *)

Module AudioService.

Record t : Type := Make {
  tts_provider : string;
  elevenlabs_service : option ElevenLabsService.t
}.

(** [__init__], lines 17-55, TTS part: [config_tts] is
    [config.AUDIO_TTS_PROVIDER]; [constructed] is the result of
    [ElevenLabsService()], [None] when the import or the constructor
    raises. *)
Definition init (config_tts : string) (constructed : option ElevenLabsService.t)
  : t :=
  if String.eqb config_tts "elevenlabs" then
    match constructed with
    | Some svc =>
        if ElevenLabsService.enabled svc
        then Make "elevenlabs" (Some svc)
        else Make "sarvam" (Some svc)
    | None => Make "sarvam" None
    end
  else Make config_tts None.

(** [self.tts_provider == "elevenlabs" and self.elevenlabs_service]. *)
Definition uses_elevenlabs (self : t) : option ElevenLabsService.t :=
  if String.eqb (tts_provider self) "elevenlabs"
  then elevenlabs_service self else None.

(** [_is_client_disconnected(websocket)], lines 186-203. *)
Definition _is_client_disconnected
           (websocket : option ConnectionMonitor.sock_view) : bool :=
  match websocket with
  | None => false
  | Some w =>
      match ConnectionMonitor.attr_closed w with
      | Some true => true
      | _ =>
          match ConnectionMonitor.attr_state w with
          | Some st => ((st =? 2) || (st =? 3))%Z
          | None => false
          end
      end
  end.

(** [_is_normal_disconnection(error_msg)], lines 205-230. *)
Definition _is_normal_disconnection (error_msg : string) : bool :=
  if negb (PyStr.truthy error_msg) then false
  else
    let error_msg := PyStr.lower error_msg in
    if PyStr.any_in ["1000"; "1001"] error_msg then true
    else PyStr.any_in
           ["connection closed"; "client disconnected"; "going away";
            "connection lost"] error_msg.

(** [generate_audio_from_text(text, language, ultra_fast=True)],
    lines 84-122, as [stream_audio_from_text] calls it. *)
Definition generate_audio_from_text_ultra_fast (self : t) (w : providers)
  : list provider_call * bytes :=
  match uses_elevenlabs self with
  | Some el => ElevenLabsService.generate_audio_from_text el w
  | None => SarvamService.generate_audio_ultra_fast w
  end.

(** Lines 154-184: the Sarvam stage and its whole-text fallback. *)
Definition sarvam_stage (self : t) (w : providers)
           (websocket : option ConnectionMonitor.sock_view) : gen :=
  gen_catch
    (gen_forward_nonempty (SarvamService.stream_audio_generation w))
    (fun e =>
       let error_msg := exn_str e in
       if _is_normal_disconnection error_msg then Done
       else
         if (match websocket with None => true | Some _ => false end
             || negb (_is_client_disconnected websocket))%bool
         then
           gen_catch
             (let '(calls, audio_buffer) :=
                generate_audio_from_text_ultra_fast self w in
              fold_right Invoke (yield_if_nonempty audio_buffer Done) calls)
             (fun _ => Done)
         else Done).

(** [stream_audio_from_text(text, language, websocket)], lines 124-184. *)
Definition stream_audio_from_text (self : t) (w : providers)
           (websocket : option ConnectionMonitor.sock_view) : gen :=
  match uses_elevenlabs self with
  | Some el =>
      gen_catch
        (gen_forward_nonempty (ElevenLabsService.text_to_speech_stream el w))
        (fun _ => sarvam_stage self w websocket)
  | None => sarvam_stage self w websocket
  end.

End AudioService.

(* ================================================================== *)
(** * websocket_server.py: events, session state, effects *)
(* ================================================================== *)

(** [self.conversation_metrics] without the two response-time entries, which
    are wall-clock floats. *)
Record metrics : Type := Metrics {
  total_requests : nat;
  chat_requests : nat;
  audio_requests : nat;
  teaching_requests : nat;
  errors : nat
}.

(** The outbound JSON events, by their ["type"], with the fields that are not
    clock readings or fixed texts.  [audio_data] stands for the payload that
    the event carries base64-encoded. *)
Inductive event : Type :=
| Connection_ready (chat audio teaching : bool)
| Pong
| Error (error : string)
| Processing_started (request_id : string)
| Text_response (text : string) (request_id : string)
| Class_starting (course_id : option string) (module_index sub_topic_index : nat)
                 (request_id : string)
| Course_info (module_title sub_topic_title : string) (request_id : string)
| Teaching_content (content : string) (content_length : nat) (request_id : string)
| Audio_generation_started (request_id : option string)
| Audio_chunk (chunk_id : nat) (audio_data : bytes) (size : nat)
              (is_first_chunk : bool) (request_id : string)
| Audio_generation_complete (total_chunks total_size : nat) (request_id : string)
| Transcription_started (request_id : string)
| Transcription_complete (transcribed_text : string) (request_id : string)
| Language_set (language : string) (request_id : string)
| Metrics_response (performance_metrics : metrics) (current_language : string)
                   (message_count : nat) (request_id : string).

(** How the peer's socket ends: the [ConnectionClosed] that the library raises
    from then on. *)
Record closure : Type := Closure {
  closed_ok : bool;          (* ConnectionClosedOK or ConnectionClosedError *)
  close_code : Z;
  close_reason : string
}.

Definition closure_exn (c : closure) : exn :=
  if closed_ok c
  then ConnectionClosedOK (close_code c) (close_reason c)
  else ConnectionClosedError (close_code c) (close_reason c).

(** One connection: the client's side of the socket, the wrapper's counter,
    the agent's mutable fields, and the log of provider requests. *)
Record session : Type := Session {
  delivered : list event;         (* events written to the socket, oldest first *)
  sends_left : option nat;        (* [Some n]: the socket closes after n more
                                     writes; [None]: it stays open *)
  closing : closure;
  message_count : nat;            (* ProfAIWebSocketWrapper.message_count *)
  conversation_metrics : metrics; (* ProfAIAgent.conversation_metrics *)
  current_language : string;      (* ProfAIAgent.current_language *)
  provider_calls : list provider_call
}.

(** [ProfAIWebSocketWrapper] has neither [closed] nor [state] nor [open]. *)
Definition wrapper_view : ConnectionMonitor.sock_view :=
  ConnectionMonitor.SockView None None None.

Inductive result (A : Type) : Type :=
| Ok (a : A)
| Raise (e : exn).
Arguments Ok {A} a.
Arguments Raise {A} e.

(** A coroutine of the server: it reads and updates the session and returns or
    raises. *)
Definition M (A : Type) : Type := session -> result A * session.

Definition ret {A} (a : A) : M A := fun st => (Ok a, st).

Definition bind {A B} (m : M A) (k : A -> M B) : M B :=
  fun st =>
    match m st with
    | (Ok a, st') => k a st'
    | (Raise e, st') => (Raise e, st')
    end.

Definition raise {A} (e : exn) : M A := fun st => (Raise e, st).

(** [try: m except Exception as e: h e]; every class of [exn] derives from
    [Exception]. *)
Definition try_ {A} (m : M A) (h : exn -> M A) : M A :=
  fun st =>
    match m st with
    | (Ok a, st') => (Ok a, st')
    | (Raise e, st') => h e st'
    end.

Definition get : M session := fun st => (Ok st, st).

Definition modify (f : session -> session) : M unit := fun st => (Ok tt, f st).

Declare Scope m_scope.
Delimit Scope m_scope with M.
Notation "x <- m ;; k" := (bind m (fun x => k))
  (at level 61, m at next level, right associativity) : m_scope.
Notation "m ;; k" := (bind m (fun _ => k))
  (at level 61, right associativity) : m_scope.
Open Scope m_scope.

(** [except ConnectionClosed: <h>] as the only clause: other exceptions pass. *)
Definition except_ConnectionClosed {A} (m : M A) (h : exn -> M A) : M A :=
  try_ m (fun e => if isinstance_ConnectionClosed e then h e else raise e).

Definition set_delivered (st : session) (d : list event) (left : option nat)
           (count : nat) : session :=
  Session d left (closing st) count (conversation_metrics st)
          (current_language st) (provider_calls st).

Definition set_metrics (m : metrics) (st : session) : session :=
  Session (delivered st) (sends_left st) (closing st) (message_count st) m
          (current_language st) (provider_calls st).

Definition set_language (l : string) (st : session) : session :=
  Session (delivered st) (sends_left st) (closing st) (message_count st)
          (conversation_metrics st) l (provider_calls st).

Definition log_call (p : provider_call) : M unit :=
  modify (fun st =>
    Session (delivered st) (sends_left st) (closing st) (message_count st)
            (conversation_metrics st) (current_language st)
            (provider_calls st ++ [p])).

(** [ProfAIWebSocketWrapper.send], lines 90-116: the counter moves before the
    write; a closed socket raises. *)
Definition send (ev : event) : M unit :=
  fun st =>
    let count := message_count st + 1 in
    match sends_left st with
    | Some 0 => (Raise (closure_exn (closing st)),
                 set_delivered st (delivered st) (Some 0) count)
    | Some (S n) => (Ok tt, set_delivered st (delivered st ++ [ev]) (Some n) count)
    | None => (Ok tt, set_delivered st (delivered st ++ [ev]) None count)
    end.

(** [ProfAIWebSocketWrapper.recv], lines 118-130, on a socket that still has a
    message for us unless it is closed. *)
Definition recv : M unit :=
  fun st =>
    match sends_left st with
    | Some 0 => (Raise (closure_exn (closing st)), st)
    | _ => (Ok tt, st)
    end.

(** [self.conversation_metrics["errors"] += 1]. *)
Definition count_error : M unit :=
  modify (fun st =>
    let m := conversation_metrics st in
    set_metrics (Metrics (total_requests m) (chat_requests m) (audio_requests m)
                         (teaching_requests m) (errors m + 1)) st).

(** The module-level helpers of websocket_server.py, lines 32-75. *)
Definition is_normal_closure (exception : exn) : bool :=
  if isinstance_ConnectionClosedOK exception then true
  else if isinstance_ConnectionClosed exception then
    match exn_code exception with
    | Some c => code_in_1000_1001 c
    | None => false
    end
  else false.

Definition is_client_connected (websocket : option ConnectionMonitor.sock_view)
  : bool :=
  match websocket with
  | None => false
  | Some w =>
      match ConnectionMonitor.attr_closed w with
      | Some true => false
      | _ =>
          match ConnectionMonitor.attr_state w with
          | Some s => (s =? 1)%Z
          | None => true
          end
      end
  end.

(** [async for chunk in <g>: <body>] with the loop's local variables [s]. *)
Fixpoint drive {S : Type} (g : gen) (body : bytes -> S -> M S) (s : S) : M S :=
  match g with
  | Done => ret s
  | Throw e => raise e
  | Yield chunk k => s' <- body chunk s ;; drive k body s'
  | Invoke p k => log_call p ;; drive k body s
  end.

(* ================================================================== *)
(** * websocket_server.py: requests and handlers *)
(* ================================================================== *)

(** A decoded inbound JSON object: [None] is an absent key. *)
Record data : Type := Data {
  d_type : option string;
  d_request_id : option string;
  d_message : option string;
  d_text : option string;
  d_language : option string;
  d_audio_data : option string;
  d_course_id : option string;
  d_module_index : option nat;
  d_sub_topic_index : option nat
}.

Record sub_topic : Type := SubTopic { st_title : string; st_content : string }.
Record course_module : Type := CourseModule {
  cm_title : string;
  cm_sub_topics : list sub_topic
}.

(** What the collaborators of one request do. *)
Record env : Type := Env {
  chat_outcome : result string;
    (* [asyncio.wait_for(chat_service.ask_question(...), 30.0)]: the answer
       text, or the exception; [Raise TimeoutError] is the expired wait *)
  decode_outcome : option exn;
    (* [base64.b64decode(audio_data)]: the exception it raises, if any *)
  stt_outcome : result string;
    (* [asyncio.wait_for(audio_service.transcribe_audio(...), 30.0)] *)
  course_file_exists : bool;      (* os.path.exists(config.OUTPUT_JSON_PATH) *)
  course_outcome : result (list course_module);
    (* [asyncio.wait_for(_load_course_data_async(...), 30.0)], its modules *)
  teaching_outcome : result string;
    (* [asyncio.wait_for(generate_teaching_content(...), 6.0)] *)
  tts : providers
}.

(** The agent's fields that are fixed once [__init__] has run. *)
Record agent : Type := Agent {
  chat_available : bool;                  (* services_available["chat"] *)
  audio_service : option AudioService.t;  (* [None]: AudioService() raised *)
  teaching_available : bool               (* services_available["teaching"] *)
}.

(** [services_available["audio"]]. *)
Definition audio_available (self : agent) : bool :=
  match audio_service self with Some _ => true | None => false end.

Definition truthy_opt (o : option string) : bool :=
  match o with Some x => PyStr.truthy x | None => false end.

(** [data.get(key, default)]. *)
Definition get_or {A} (o : option A) (default : A) : A :=
  match o with Some x => x | None => default end.

Definition request_id_of (d : data) : string := get_or (d_request_id d) EmptyString.

(** The body of the [async for] of lines 396-431, 660-695 and 781-816 on the
    locals [(chunk_count, total_audio_size, first_chunk_sent)]. *)
Definition forward_chunk (request_id : string) (audio_chunk : bytes)
           (locals : nat * nat * bool) : M (nat * nat * bool) :=
  let '(chunk_count, total_audio_size, first_chunk_sent) := locals in
  if nonempty audio_chunk then
    let chunk_count := chunk_count + 1 in
    let total_audio_size := total_audio_size + List.length audio_chunk in
    send (Audio_chunk chunk_count audio_chunk (List.length audio_chunk)
                      (negb first_chunk_sent) request_id) ;;
    ret (chunk_count, total_audio_size, true)
  else ret locals.

(** [self.audio_service.stream_audio_from_text(text, language, self.websocket)];
    on a missing service the attribute access raises. *)
Definition audio_stream (self : agent) (w : providers) : gen :=
  match audio_service self with
  | Some svc => AudioService.stream_audio_from_text svc w (Some wrapper_view)
  | None =>
      Throw (Exception_
               "'NoneType' object has no attribute 'stream_audio_from_text'")
  end.

(** The streaming block shared by the three audio handlers (lines 387-463,
    651-727, 772-847); they differ in the text of the error event.  [false]:
    the handler has returned (lines 463, 727, 847). *)
Definition stream_job (self : agent) (w : providers) (request_id : string)
           (failed_prefix : string) : M bool :=
  try_
    (locals <- drive (audio_stream self w) (forward_chunk request_id)
                     (0, 0, false) ;;
     let '(chunk_count, total_audio_size, _) := locals in
     send (Audio_generation_complete chunk_count total_audio_size request_id) ;;
     ret true)
    (fun e =>
       if isinstance_ConnectionClosed e then
         if is_normal_closure e then ret true
         else count_error ;; ret true
       else
         count_error ;;
         except_ConnectionClosed
           (send (Error (failed_prefix ++ exn_str e)%string) ;; ret true)
           (fun _ => ret false)).

(** The "Update metrics" lines 466-473, 730-737, 850-857. *)
Inductive request_kind : Type := KChat | KAudio | KTeaching.

Definition update_metrics (k : request_kind) : M unit :=
  modify (fun st =>
    let m := conversation_metrics st in
    set_metrics
      (Metrics (total_requests m + 1)
               (match k with KChat => chat_requests m + 1 | _ => chat_requests m end)
               (match k with KAudio => audio_requests m + 1 | _ => audio_requests m end)
               (match k with
                | KTeaching => teaching_requests m + 1
                | _ => teaching_requests m
                end)
               (errors m)) st).

(** [handle_ping], lines 282-288. *)
Definition handle_ping : M unit := send Pong.

(** [try: await send(error) except ConnectionClosed: log], lines 362-368 and
    372-378. *)
Definition send_guarded (ev : event) : M unit :=
  except_ConnectionClosed (send ev) (fun _ => ret tt).

(** [handle_chat_with_audio], lines 290-493. *)
Definition handle_chat_with_audio (self : agent) (d : data) (e : env) : M unit :=
  try_
    (if negb (chat_available self) then
       send (Error "Chat service not available - please refresh connection")
     else if negb (audio_available self) then
       send (Error "Audio service not available - please refresh connection")
     else if negb (truthy_opt (d_message d)) then
       send (Error "Message is required")
     else
       send (Processing_started (request_id_of d)) ;;
       answered <-
         try_
           (match chat_outcome e with
            | Raise x => raise x
            | Ok response_text =>
                if negb (PyStr.truthy response_text) then
                  send (Error "No response generated from chat service") ;;
                  ret None
                else
                  send (Text_response response_text (request_id_of d)) ;;
                  ret (Some response_text)
            end)
           (fun x =>
              match x with
              | TimeoutError =>
                  send_guarded
                    (Error "Response generation timeout - please try again") ;;
                  ret None
              | _ =>
                  send_guarded
                    (Error ("Chat service failed: " ++ exn_str x)%string) ;;
                  ret None
              end) ;;
       match answered with
       | None => ret tt
       | Some _ =>
           send (Audio_generation_started None) ;;
           go_on <- stream_job self (tts e) (request_id_of d)
                               "Chat audio generation failed: " ;;
           if go_on then update_metrics KChat else ret tt
       end)
    (fun x =>
       if isinstance_ConnectionClosed x then
         if negb (is_normal_closure x) then count_error else ret tt
       else
         count_error ;;
         send_guarded (Error ("Chat processing failed: " ++ exn_str x)%string)).

(** [handle_audio_only], lines 749-867. *)
Definition handle_audio_only (self : agent) (d : data) (e : env) : M unit :=
  try_
    (if negb (truthy_opt (d_text d)) then
       send (Error "Text is required")
     else
       send (Audio_generation_started (Some (request_id_of d))) ;;
       go_on <- stream_job self (tts e) (request_id_of d)
                           "Audio generation failed: " ;;
       if go_on then update_metrics KAudio else ret tt)
    (fun x =>
       count_error ;;
       send (Error ("Audio processing failed: " ++ exn_str x)%string)).

(** [self._create_simple_teaching_content(...)]: [ProfAIAgent] defines no such
    method (nor does any other file), so each of the four calls in
    [handle_start_class] raises [AttributeError]. *)
Definition _create_simple_teaching_content : M string :=
  raise (Exception_
    "'ProfAIAgent' object has no attribute '_create_simple_teaching_content'").

(** The [teaching_content] event of lines 620-626 and 637-643. *)
Definition teaching_content_event (teaching_content request_id : string) : event :=
  Teaching_content
    (if 500 <? String.length teaching_content
     then (String.substring 0 500 teaching_content ++ "...")%string
     else teaching_content)
    (String.length teaching_content) request_id.

Definition not_found_error (what : string) (index available : nat) : event :=
  Error (what ++ " " ++ PyStr.of_Z (Z.of_nat index) ++ " not found (available: 0-"
         ++ PyStr.of_Z (Z.of_nat available - 1) ++ ")")%string.

(** [handle_start_class], lines 495-747. *)
Definition handle_start_class (self : agent) (d : data) (e : env) : M unit :=
  let module_index := get_or (d_module_index d) 0 in
  let sub_topic_index := get_or (d_sub_topic_index d) 0 in
  try_
    (send (Class_starting (d_course_id d) module_index sub_topic_index
                          (request_id_of d)) ;;
     (* lines 518-576: load and validate the course content *)
     loaded <-
       try_
         (if negb (course_file_exists e) then
            send (Error "Course content not found") ;; ret None
          else
            match course_outcome e with
            | Raise x => raise x
            | Ok modules =>
                if List.length modules <=? module_index then
                  send (not_found_error "Module" module_index
                                        (List.length modules)) ;;
                  ret None
                else
                  let module := nth module_index modules (CourseModule EmptyString []) in
                  let sub_topics := cm_sub_topics module in
                  if List.length sub_topics <=? sub_topic_index then
                    send (not_found_error "Sub-topic" sub_topic_index
                                          (List.length sub_topics)) ;;
                    ret None
                  else
                    let sub_topic := nth sub_topic_index sub_topics
                                         (SubTopic EmptyString EmptyString) in
                    send (Course_info (cm_title module) (st_title sub_topic)
                                      (request_id_of d)) ;;
                    ret (Some (module, sub_topic))
            end)
         (fun x =>
            match x with
            | TimeoutError =>
                send (Error "Course content loading timeout") ;; ret None
            | _ =>
                send (Error ("Failed to load course content: " ++ exn_str x)%string) ;;
                ret None
            end) ;;
     match loaded with
     | None => ret tt
     | Some _ =>
         (* lines 579-643: teaching content *)
         try_
           (teaching_content <-
              (if negb (teaching_available self) then
                 _create_simple_teaching_content
               else
                 try_
                   (match teaching_outcome e with
                    | Raise x => raise x
                    | Ok content => ret content
                    end)
                   (fun x =>
                      match x with
                      | TimeoutError => _create_simple_teaching_content
                      | _ => raise x
                      end)) ;;
            teaching_content <-
              (if negb (PyStr.truthy teaching_content)
                  || PyStr.blank teaching_content
               then _create_simple_teaching_content
               else ret teaching_content) ;;
            send (teaching_content_event teaching_content (request_id_of d)))
           (fun _ =>
              teaching_content <- _create_simple_teaching_content ;;
              send (teaching_content_event teaching_content (request_id_of d))) ;;
         (* lines 645-739: audio *)
         send (Audio_generation_started None) ;;
         go_on <- stream_job self (tts e) (request_id_of d)
                             "Class audio generation failed: " ;;
         if go_on then update_metrics KTeaching else ret tt
     end)
    (fun x =>
       count_error ;;
       send (Error ("Class processing failed: " ++ exn_str x)%string)).

(** [handle_transcribe_audio], lines 993-1059. *)
Definition handle_transcribe_audio (self : agent) (d : data) (e : env) : M unit :=
  try_
    (if negb (truthy_opt (d_audio_data d)) then
       send (Error "Audio data is required")
     else
       send (Transcription_started (request_id_of d)) ;;
       try_
         (match decode_outcome e with
          | Some x => raise x
          | None => ret tt
          end ;;
          transcribed_text <-
            match audio_service self with
            | None =>
                raise (Exception_
                  "'NoneType' object has no attribute 'transcribe_audio'")
            | Some _ =>
                match stt_outcome e with
                | Raise x => raise x
                | Ok text => ret text
                end
            end ;;
          if negb (PyStr.truthy transcribed_text) then
            send (Error "Could not transcribe audio")
          else
            send (Transcription_complete transcribed_text (request_id_of d)))
         (fun x =>
            match x with
            | TimeoutError => send (Error "Transcription timeout")
            | _ => send (Error ("Transcription failed: " ++ exn_str x)%string)
            end))
    (fun x =>
       send (Error ("Transcription processing failed: " ++ exn_str x)%string)).

(** [handle_set_language], lines 1061-1088. *)
Definition handle_set_language (d : data) : M unit :=
  try_
    (if negb (truthy_opt (d_language d)) then
       send (Error "Language is required")
     else
       let language := get_or (d_language d) EmptyString in
       modify (set_language language) ;;
       send (Language_set language (request_id_of d)))
    (fun x =>
       send (Error ("Language setting failed: " ++ exn_str x)%string)).

(** [handle_get_metrics], lines 1090-1117. *)
Definition handle_get_metrics (d : data) : M unit :=
  try_
    (st <- get ;;
     send (Metrics_response (conversation_metrics st) (current_language st)
                            (message_count st) (request_id_of d)))
    (fun x =>
       send (Error ("Metrics retrieval failed: " ++ exn_str x)%string)).

(** The routing of lines 234-253. *)
Definition route (self : agent) (message_type : string) (d : data) (e : env)
  : M unit :=
  if String.eqb message_type "ping" then handle_ping
  else if String.eqb message_type "chat_with_audio" then
    handle_chat_with_audio self d e
  else if String.eqb message_type "start_class" then handle_start_class self d e
  else if String.eqb message_type "audio_only" then handle_audio_only self d e
  else if String.eqb message_type "transcribe_audio" then
    handle_transcribe_audio self d e
  else if String.eqb message_type "set_language" then handle_set_language d
  else if String.eqb message_type "get_metrics" then handle_get_metrics d
  else send (Error ("Unknown message type: " ++ message_type)%string).

(** What arrives on the socket. *)
Inductive inbound : Type :=
| NotJson (err : string)       (* json.loads raises JSONDecodeError *)
| NotObject (err : string)     (* JSON but no object: [data.get] raises *)
| Request (d : data) (e : env).

Inductive loop_step : Type := Continue | Break.

(** One turn of the [while True] of [process_messages], lines 219-275, with
    the handlers given by [dispatch]. *)
Definition loop_turn (dispatch : string -> data -> env -> M unit) (m : inbound)
  : M loop_step :=
  try_
    (recv ;;
     match m with
     | NotJson err => raise (JSONDecodeError err)
     | NotObject err => raise (Exception_ err)
     | Request d e =>
         if negb (truthy_opt (d_type d)) then
           send (Error "Message type is required") ;; ret Continue
         else
           dispatch (get_or (d_type d) EmptyString) d e ;; ret Continue
     end)
    (fun x =>
       if isinstance_ConnectionClosed x then
         (if negb (is_normal_closure x) then count_error else ret tt) ;;
         ret Break
       else
         match x with
         | JSONDecodeError _ =>
             send (Error "Invalid JSON message") ;; ret Continue
         | _ =>
             except_ConnectionClosed
               (send (Error ("Message processing error: " ++ exn_str x)%string) ;;
                ret Continue)
               (fun _ => ret Break)
         end).

(** The loop over the messages the client sends; after the last one the
    client closes the connection and [recv] raises. *)
Fixpoint message_loop (dispatch : string -> data -> env -> M unit)
         (inbox : list inbound) : M unit :=
  match inbox with
  | [] =>
      st <- get ;;
      if negb (is_normal_closure (closure_exn (closing st)))
      then count_error else ret tt
  | m :: rest =>
      step <- loop_turn dispatch m ;;
      match step with
      | Continue => message_loop dispatch rest
      | Break => ret tt
      end
  end.

(** [process_messages], lines 204-280; [cleanup] only logs. *)
Definition process_messages (self : agent) (inbox : list inbound) : M unit :=
  try_
    (send (Connection_ready (chat_available self) (audio_available self)
                            (teaching_available self)) ;;
     message_loop (route self) inbox)
    (fun _ => ret tt).

(** The exception that stops the transcription in [handle_transcribe_audio]
    (lines 1014-1025), if any: that of [base64.b64decode], of the missing
    audio service, or of the speech-to-text call. *)
Definition transcription_raises (self : agent) (e : env) : option exn :=
  match decode_outcome e with
  | Some x => Some x
  | None =>
      match audio_service self with
      | None =>
          Some (Exception_
                  "'NoneType' object has no attribute 'transcribe_audio'")
      | Some _ =>
          match stt_outcome e with
          | Raise x => Some x
          | Ok _ => None
          end
      end
  end.

(** A decoded message whose processing raises an exception before any audio
    is requested, with the events that answer it on a writable socket: a
    payload that is no object (the [except Exception] clause of the loop,
    lines 264-275), a chat service that raises (lines 358-379), a
    transcription that raises (lines 1041-1052), a course that cannot be
    loaded (lines 563-576), an audio request without an audio service (lines
    836-846). *)
Inductive fails (self : agent) : inbound -> list event -> Prop :=
| fails_payload (err : string) :
    fails self (NotObject err)
          [Error ("Message processing error: " ++ err)%string]
| fails_chat (d : data) (e : env) (x : exn) :
    d_type d = Some "chat_with_audio" ->
    chat_available self = true ->
    audio_available self = true ->
    truthy_opt (d_message d) = true ->
    chat_outcome e = Raise x ->
    fails self (Request d e)
          [Processing_started (request_id_of d);
           Error (match x with
                  | TimeoutError =>
                      "Response generation timeout - please try again"
                  | _ => "Chat service failed: " ++ exn_str x
                  end)%string]
| fails_transcription (d : data) (e : env) (x : exn) :
    d_type d = Some "transcribe_audio" ->
    truthy_opt (d_audio_data d) = true ->
    transcription_raises self e = Some x ->
    fails self (Request d e)
          [Transcription_started (request_id_of d);
           Error (match x with
                  | TimeoutError => "Transcription timeout"
                  | _ => "Transcription failed: " ++ exn_str x
                  end)%string]
| fails_course (d : data) (e : env) (x : exn) :
    d_type d = Some "start_class" ->
    course_file_exists e = true ->
    course_outcome e = Raise x ->
    fails self (Request d e)
          [Class_starting (d_course_id d) (get_or (d_module_index d) 0)
                          (get_or (d_sub_topic_index d) 0) (request_id_of d);
           Error (match x with
                  | TimeoutError => "Course content loading timeout"
                  | _ => "Failed to load course content: " ++ exn_str x
                  end)%string]
| fails_audio (d : data) (e : env) :
    d_type d = Some "audio_only" ->
    truthy_opt (d_text d) = true ->
    audio_service self = None ->
    fails self (Request d e)
          [Audio_generation_started (Some (request_id_of d));
           Error ("Audio generation failed: " ++
                  "'NoneType' object has no attribute 'stream_audio_from_text'")].

(** A fresh connection: [ProfAIWebSocketWrapper.__init__] and
    [ProfAIAgent.__init__]. *)
Definition new_session (left : option nat) (c : closure) : session :=
  Session [] left c 0 (Metrics 0 0 0 0 0) "en-IN" [].

(* ================================================================== *)
(** * Notions used in the statements *)
(* ================================================================== *)

(** The classification the specification words: a connection closure whose
    code is 1000 or 1001. *)
Definition closure_with_normal_code (e : exn) : bool :=
  isinstance_ConnectionClosed e &&
  match exn_code e with
  | Some c => code_in_1000_1001 c
  | None => false
  end.

(** The socket accepts [n] more writes. *)
Definition can_send (st : session) (n : nat) : Prop :=
  match sends_left st with
  | None => True
  | Some k => n <= k
  end.

(** The session after the events [evs] were written. *)
Definition sent (evs : list event) (st : session) : session :=
  set_delivered st (delivered st ++ evs)
    (match sends_left st with
     | None => None
     | Some k => Some (k - List.length evs)
     end)
    (message_count st + List.length evs).

(** The session after the provider requests [calls] were opened. *)
Definition called (calls : list provider_call) (st : session) : session :=
  Session (delivered st) (sends_left st) (closing st) (message_count st)
          (conversation_metrics st) (current_language st)
          (provider_calls st ++ calls).

(** The [audio_chunk] events for the non-empty chunks [cs], numbered after
    [chunk_count]. *)
Fixpoint number_chunks (request_id : string) (cs : list bytes)
         (chunk_count : nat) (first_chunk_sent : bool) : list event :=
  match cs with
  | [] => []
  | c :: cs' =>
      Audio_chunk (chunk_count + 1) c (List.length c) (negb first_chunk_sent)
                  request_id
      :: number_chunks request_id cs' (chunk_count + 1) true
  end.

(** The non-empty chunks a generator yields when it is run to its end. *)
Definition gen_audio (g : gen) : list bytes := filter nonempty (gen_yields g).

Definition total_size (cs : list bytes) : nat :=
  list_sum (map (@List.length _) cs).

Definition is_audio_chunk (ev : event) : bool :=
  match ev with Audio_chunk _ _ _ _ _ => true | _ => false end.

Definition is_complete (ev : event) : bool :=
  match ev with Audio_generation_complete _ _ _ => true | _ => false end.

Definition is_started (ev : event) : bool :=
  match ev with Audio_generation_started _ => true | _ => false end.

Definition is_error (ev : event) : bool :=
  match ev with Error _ => true | _ => false end.

(** The events a computation wrote, given the session before and after it. *)
Definition new_events (before after : session) : list event :=
  skipn (List.length (delivered before)) (delivered after).

Definition count (f : event -> bool) (evs : list event) : nat :=
  List.length (filter f evs).

(** The chunks of a job and the events that carry them. *)
Definition job_chunks (self : agent) (w : providers) : list bytes :=
  gen_audio (audio_stream self w).

Definition job_events (self : agent) (w : providers) (rid : string) : list event :=
  number_chunks rid (job_chunks self w) 0 false.

(** The session after a job that the closing socket cut short. *)
Definition cut_short (st : session) (evs : list event) (calls : list provider_call)
  : session :=
  Session (delivered st ++ evs) (Some 0) (closing st)
          (message_count st + List.length evs + 1)
          (let m := conversation_metrics st in
           Metrics (total_requests m) (chat_requests m) (audio_requests m)
                   (teaching_requests m)
                   (if is_normal_closure (closure_exn (closing st))
                    then errors m else errors m + 1))
          (current_language st) (provider_calls st ++ calls).

(* ================================================================== *)
(** * Scenarios *)
(* ================================================================== *)

Module Scenario.

Definition A : bytes := [Init.Byte.x41].
Definition AB : bytes := [Init.Byte.x41; Init.Byte.x42].

(** An agent whose audio service is configured for Sarvam. *)
Definition sarvam_agent : agent :=
  Agent true (Some (AudioService.init "sarvam" None)) true.

(** An agent whose audio service uses ElevenLabs, with an API key. *)
Definition elevenlabs_agent : agent :=
  Agent true
        (Some (AudioService.init "elevenlabs" (Some (ElevenLabsService.Make true))))
        true.

(** Sarvam streams one chunk, then its socket raises; the whole-text
    synthesis works. *)
Definition fails_mid_stream : providers :=
  Providers [] EndOk None
            [TtsAudio A] (EndRaise (Exception_ "stream reset")) (SingleAudio AB).

(** Sarvam streams two chunks and finishes. *)
Definition healthy : providers :=
  Providers [] EndOk None [TtsAudio A; TtsAudio AB] EndOk SingleRaised.

(** Every provider request fails. *)
Definition all_fail : providers :=
  Providers [] (EndRaise (Exception_ "refused")) None
            [] (EndRaise (Exception_ "refused")) SingleRaised.

(** The ElevenLabs socket delivers a bytes frame that is no text, on which
    the receive loop raises [UnicodeDecodeError]; the frame after it is never
    read, and the REST request fails. *)
Definition undecodable_frame : providers :=
  Providers [ElRaises (Exception_ ("'utf-8' codec can't decode byte 0xff in "
                                   ++ "position 0: invalid start byte"));
             ElBinary AB]
            EndOk None [] EndOk SingleRaised.

(** Sarvam's stream finishes without any audio. *)
Definition silent : providers :=
  Providers [] EndOk None [] EndOk SingleRaised.

Definition env_of (w : providers) : env :=
  Env (Ok "answer") None (Ok "transcript") true (Ok []) (Ok "lesson") w.

Definition request (type : string) : data :=
  Data (Some type) (Some "r1") (Some "hello") (Some "say this") None
       (Some "QUJD") None None None.

Definition abnormal : closure := Closure false 1006 EmptyString.
Definition going_away : closure := Closure true 1001 EmptyString.

(** The chat and the STT collaborators both exceed their timeout. *)
Definition timeout_env : env :=
  Env (Raise TimeoutError) None (Raise TimeoutError) true (Ok []) (Ok "lesson")
      healthy.

(** An [audio_only] request that carries no text. *)
Definition audio_only_without_text : data :=
  Data (Some "audio_only") (Some "r1") None None None None None None None.

End Scenario.

(** The audio of the responses of the Sarvam streaming socket. *)
Definition tts_audios (resps : list tts_resp) : list bytes :=
  flat_map (fun r => match r with TtsAudio a => [a] | TtsOther => [] end) resps.

(** The frames the ElevenLabs receive loop reads: those up to the first JSON
    message marked final or the first frame on which the loop raises,
    included; what follows stays unread. *)
Fixpoint frames_read (msgs : list el_message) : list el_message :=
  match msgs with
  | [] => []
  | ElJson audio true :: _ => [ElJson audio true]
  | ElRaises e :: _ => [ElRaises e]
  | m :: rest => m :: frames_read rest
  end.

(** A frame that carries no audio. *)
Definition el_silent (m : el_message) : Prop :=
  match m with
  | ElJson (Some b) _ => nonempty b = false
  | ElBinary b => nonempty b = false
  | _ => True
  end.

(** Every provider request of the job fails and none has produced a byte:
    with ElevenLabs, no frame that is read carries audio (so the stream
    raises, be it only for "No audio data received") and the REST request
    gives nothing; with Sarvam, the stream raises without audio and the
    whole-text synthesis gives nothing. *)
Definition all_providers_fail (svc : AudioService.t) (w : providers) : Prop :=
  match AudioService.uses_elevenlabs svc with
  | Some el =>
      Forall el_silent (frames_read (el_msgs w)) /\
      nonempty (snd (ElevenLabsService.text_to_speech el w)) = false
  | None =>
      (exists e, sv_end w = EndRaise e) /\
      filter nonempty (tts_audios (sv_resps w)) = [] /\
      nonempty (snd (SarvamService.generate_audio_ultra_fast w)) = false
  end.

(** The terminal state of a job as the specification words it, read off the
    session: COMPLETE when the completion event went out; otherwise ABORTED
    when the job is "not counted as an error" in the metrics, FAILED when it
    is. *)
Inductive job_state : Type := COMPLETE | ABORTED | FAILED.

Definition job_state_of (before after : session) : job_state :=
  if existsb is_complete (new_events before after) then COMPLETE
  else if errors (conversation_metrics after)
          =? errors (conversation_metrics before)
       then ABORTED else FAILED.

(** The [chunk_id]s of the [audio_chunk] events, in order. *)
Definition chunk_ids (evs : list event) : list nat :=
  flat_map (fun ev => match ev with
                      | Audio_chunk i _ _ _ _ => [i]
                      | _ => []
                      end) evs.

(** How many [audio_chunk] events carry [is_first_chunk = true]. *)
Definition first_chunk_flags (evs : list event) : nat :=
  count (fun ev => match ev with
                   | Audio_chunk _ _ _ f _ => f
                   | _ => false
                   end) evs.

(** The text of the error event the loop sends for an exception (lines
    261-272). *)
Definition loop_error (x : exn) : event :=
  match x with
  | JSONDecodeError _ => Error "Invalid JSON message"
  | _ => Error ("Message processing error: " ++ exn_str x)%string
  end.

Definition is_stream_event (ev : event) : bool :=
  is_started ev || is_audio_chunk ev || is_complete ev.

(** An [audio_chunk] event is well formed when its [size] is the length of its
    payload and at least 1. *)
Definition chunk_ok (ev : event) : Prop :=
  match ev with
  | Audio_chunk _ audio_data size _ _ =>
      size = List.length audio_data /\ 1 <= size
  | _ => True
  end.

Definition chunks_ok (st : session) : Prop := Forall chunk_ok (delivered st).

(** A computation that writes only well-formed chunks. *)
Definition keeps {A : Type} (m : M A) : Prop :=
  forall st, chunks_ok st -> chunks_ok (snd (m st)).

(** The error events with which a handler reports an exception it caught in
    its audio block or in its body (lines 459, 489, 723, 746, 843, 866). *)
Definition exception_reports : list string :=
  ["Chat audio generation failed: "; "Class audio generation failed: ";
   "Audio generation failed: "; "Chat processing failed: ";
   "Class processing failed: "; "Audio processing failed: "].

Definition is_exception_report (ev : event) : bool :=
  match ev with
  | Error msg => existsb (fun p => String.prefix p msg) exception_reports
  | _ => false
  end.

(** The counters moved in step with the events written from [st] to [st']:
    [total_requests] by the number of [audio_generation_started] events,
    [errors] by the number of exception reports; the socket is still open. *)
Definition accounted (st st' : session) : Prop :=
  sends_left st' = None /\
  exists evs,
    delivered st' = delivered st ++ evs /\
    total_requests (conversation_metrics st')
    = total_requests (conversation_metrics st) + count is_started evs /\
    errors (conversation_metrics st')
    = errors (conversation_metrics st) + count is_exception_report evs.

(** The events of a job on an open socket. *)
Definition job_writes (self : agent) (w : providers) (rid prefix : string)
  : list event :=
  match audio_service self with
  | Some _ =>
      job_events self w rid
      ++ [Audio_generation_complete (List.length (job_chunks self w))
            (total_size (job_chunks self w)) rid]
  | None =>
      [Error (prefix
              ++ "'NoneType' object has no attribute 'stream_audio_from_text'")%string]
  end.

(** The session after a job on an open socket. *)
Definition job_result (self : agent) (w : providers) (rid prefix : string)
           (st : session) : session :=
  match audio_service self with
  | Some _ =>
      called (gen_calls (audio_stream self w))
             (sent (job_writes self w rid prefix) st)
  | None => sent (job_writes self w rid prefix) (snd (count_error st))
  end.

(** On an open socket the computation keeps the counters in step with the
    events it writes, and raises only exceptions in [P]. *)
Definition tallied {A : Type} (P : exn -> Prop) (m : M A) : Prop :=
  forall st, sends_left st = None ->
    accounted st (snd (m st)) /\
    (forall e, fst (m st) = Raise e -> P e).

Definition not_closure (e : exn) : Prop := isinstance_ConnectionClosed e = false.

(** [ProfAIAgent._is_websocket_connected], websocket_server.py lines 869-892,
    on [self.websocket.websocket], the socket under the wrapper ([None] when
    the attribute is missing or falsy). *)
Definition _is_websocket_connected
           (websocket_obj : option ConnectionMonitor.sock_view) : bool :=
  match websocket_obj with
  | Some w =>
      match ConnectionMonitor.attr_closed w with
      | Some closed => negb closed
      | None =>
          match ConnectionMonitor.attr_state w with
          | Some s => (s =? 1)%Z
          | None => true
          end
      end
  | None => true
  end.

(** A computation that lets no exception out but the closure of the client's
    socket, raised by a write on the closed socket. *)
Definition only_closure {A : Type} (m : M A) : Prop :=
  forall st x st',
    m st = (Raise x, st') ->
    sends_left st' = Some 0 /\ x = closure_exn (closing st').

(** A computation that keeps a property of the session. *)
Definition preserves {A : Type} (Inv : session -> Prop) (m : M A) : Prop :=
  forall st, Inv st -> Inv (snd (m st)).

(** [start_class] gets a text to speak only from the teaching service. *)
Definition usable_teaching_content (self : agent) (e : env) : bool :=
  teaching_available self &&
  match teaching_outcome e with
  | Ok content => PyStr.truthy content && negb (PyStr.blank content)
  | Raise _ => false
  end.

(** Every counter of [b] is at least the one of [a]. *)
Definition metrics_le (a b : metrics) : Prop :=
  total_requests a <= total_requests b /\
  chat_requests a <= chat_requests b /\
  audio_requests a <= audio_requests b /\
  teaching_requests a <= teaching_requests b /\
  errors a <= errors b.

(** [total_requests] is the sum of the three kinds of request. *)
Definition metrics_add_up (m : metrics) : Prop :=
  total_requests m = chat_requests m + audio_requests m + teaching_requests m.

(** The session after [errors] was incremented. *)
Definition with_error (st : session) : session := snd (count_error st).

(* ================================================================== *)
(** * services/sarvam_service.py: text preparation *)
(* ================================================================== *)

Module TextCleaning.
Import Chunker.

(** The class [[*#_`\[\]{}\\]] of the markdown characters. *)
Definition markdown_char (c : char) : bool :=
  ((c =? 42) || (c =? 35) || (c =? 95) || (c =? 96) || (c =? 91) ||
   (c =? 93) || (c =? 123) || (c =? 125) || (c =? 92))%N.

(** [re.sub(r'[*#_`\[\]{}\\]', ' ', text)]. *)
Definition sub_markdown (text : str) : str :=
  map (fun c => if markdown_char c then space else c) text.

(** [re.sub(r'\s+', ' ', text)]: every maximal run of white space becomes one
    space; [in_run] tells that the scan is inside such a run. *)
Fixpoint sub_spaces (in_run : bool) (text : str) : str :=
  match text with
  | [] => []
  | c :: rest =>
      if isspace c
      then (if in_run then sub_spaces true rest else space :: sub_spaces true rest)
      else c :: sub_spaces false rest
  end.

Definition full_stop : char := 46%N.

(** [if len(text) > 1000: text = text[:900] + "."], lines 116-117. *)
Definition truncate_for_speed (text : str) : str :=
  if 1000 <? List.length text then firstn 900 text ++ [full_stop] else text.

(** The text that [generate_audio_ultra_fast] sends to the provider
    (lines 115-123). *)
Definition ultra_fast_text (text : str) : str :=
  let text := truncate_for_speed text in
  let text := sub_markdown text in
  strip (sub_spaces false text).

End TextCleaning.

(** What [_split_text_fast] promises for a chunk: it is not empty, has no
    outer white space and fits the size, unless it is one word of the text
    that is too long by itself. *)
Definition chunk_fits (max_chunk_size : Z) (words : list Chunker.str)
           (chunk : Chunker.str) : Prop :=
  chunk <> [] /\ Chunker.strip chunk = chunk /\
  ((Z.of_nat (List.length chunk) <= max_chunk_size)%Z \/ In chunk words).

(** The chunk that the loop of [_split_text_fast] is filling: nothing yet, or
    some words joined by single spaces, within the size unless it is one
    word. *)
Definition filling (max_chunk_size : Z) (words : list Chunker.str)
           (current_chunk : Chunker.str) : Prop :=
  current_chunk = [] \/
  exists block,
    block <> [] /\ Forall Chunker.word block /\
    current_chunk = Chunker.join_words block /\
    ((Z.of_nat (List.length current_chunk) <= max_chunk_size)%Z \/
     In current_chunk words).

(* ================================================================== *)
(** * services/sarvam_service.py: sentences *)
(* ================================================================== *)

Module Sentences.
Import Chunker.

(** The class [[.!?]]. *)
Definition terminator (c : char) : bool :=
  ((c =? 46) || (c =? 33) || (c =? 63))%N.

(** [re.split(r'([.!?]+)', text)]: the pieces of text between the maximal runs
    of terminators, with each run kept as a piece of its own, so pieces of
    text and runs alternate and the list starts and ends with a piece of text.
    [in_run] tells that [cur] is a run of terminators. *)
Fixpoint re_split_from (in_run : bool) (cur : str) (text : str) : list str :=
  match text with
  | [] => if in_run then [cur; []] else [cur]
  | c :: rest =>
      if terminator c then
        if in_run then re_split_from true (cur ++ [c]) rest
        else cur :: re_split_from true [c] rest
      else
        if in_run then cur :: re_split_from false [c] rest
        else re_split_from false (cur ++ [c]) rest
  end.

Definition re_split (text : str) : list str := re_split_from false [] text.

(** [for i in range(0, len(sentences) - 1, 2)] with the body
    [sentence = sentences[i].strip(); sentence += sentences[i + 1]]
    (lines 804-807, 596-599): the sentences with their terminators. *)
Fixpoint with_terminators (sentences : list str) : list str :=
  match sentences with
  | piece :: run :: rest => (strip piece ++ run) :: with_terminators rest
  | _ => []
  end.

(** [_split_into_sentences(text)], lines 795-811. *)
Definition _split_into_sentences (text : str) : list str :=
  flat_map (fun sentence =>
              if truthy (strip sentence) then [strip sentence] else [])
           (with_terminators (re_split text)).

(** The loop of [_truncate_paragraph], lines 595-604, on [truncated]. *)
Fixpoint take_sentences (limit : Z) (sentences : list str) (truncated : str)
  : str :=
  match sentences with
  | [] => truncated
  | sentence :: rest =>
      if (Z.of_nat (List.length (truncated ++ sentence)) <=? limit)%Z
      then take_sentences limit rest (truncated ++ sentence ++ [space])
      else truncated
  end.

(** [_truncate_paragraph(paragraph, max_length)], lines 590-606. *)
Definition _truncate_paragraph (paragraph : str) (max_length : Z) : str :=
  strip (take_sentences (max_length - 10)
                        (with_terminators (re_split paragraph)) []).

(** A sentence as [_split_into_sentences] returns it. *)
Definition sentence (x : str) : Prop :=
  strip x = x /\ exists body c, x = body ++ [c] /\ terminator c = true.

(** A run of terminators: not empty, terminators only. *)
Definition run (r : str) : Prop :=
  r <> [] /\ Forall (fun c => terminator c = true) r.

(** Pieces of text and runs of terminators in turn, from a piece of text to a
    piece of text: the shape of the result of [re_split]. *)
Inductive alternating : list str -> Prop :=
| alt_last (piece : str) : alternating [piece]
| alt_cons (piece r : str) (rest : list str) :
    run r -> alternating rest -> alternating (piece :: r :: rest).

End Sentences.

(* ================================================================== *)
(** * services/sarvam_service.py: browser-sized chunks *)
(* ================================================================== *)

Module DirectStream.

(** [max_chunk_size = 8192], line 214, and [chunk_size = 4096], line 264. *)
Definition max_chunk_size : nat := Z.to_nat 8192.
Definition chunk_size : nat := Z.to_nat 4096.

(** The [while len(audio_buffer) >= max_chunk_size] loop of lines 223-232:
    the chunks it yields and the buffer it leaves.  Each turn takes
    [max_chunk_size] bytes off the buffer, so [fuel] turns are enough for a
    buffer of [fuel] bytes. *)
Fixpoint drain (fuel : nat) (audio_buffer : bytes) : list bytes * bytes :=
  match fuel with
  | 0 => ([], audio_buffer)
  | S fuel' =>
      if max_chunk_size <=? List.length audio_buffer then
        let '(small_chunks, rest) :=
          drain fuel' (skipn max_chunk_size audio_buffer) in
        (firstn max_chunk_size audio_buffer :: small_chunks, rest)
      else ([], audio_buffer)
  end.

(** The [async for message in ws] loop of lines 216-232 and what follows it
    (lines 234-246; a failing [flush] is swallowed). *)
Fixpoint receive (resps : list tts_resp) (fin : stream_end)
         (audio_buffer : bytes) : gen :=
  match resps with
  | [] =>
      match fin with
      | EndRaise e => Throw e
      | EndOk => yield_if_nonempty audio_buffer Done
      end
  | TtsAudio large_chunk :: rest =>
      if nonempty large_chunk then
        let audio_buffer := audio_buffer ++ large_chunk in
        let '(small_chunks, audio_buffer) :=
          drain (List.length audio_buffer) audio_buffer in
        fold_right Yield (receive rest fin audio_buffer) small_chunks
      else receive rest fin audio_buffer
  | TtsOther :: rest => receive rest fin audio_buffer
  end.

(** [[audio_bytes[i:i + chunk_size] for i in range(0, len(audio_bytes),
    chunk_size)]], lines 267-269. *)
Fixpoint slices (fuel : nat) (audio_bytes : bytes) : list bytes :=
  match fuel with
  | 0 => []
  | S fuel' =>
      match audio_bytes with
      | [] => []
      | _ => firstn chunk_size audio_bytes
             :: slices fuel' (skipn chunk_size audio_bytes)
      end
  end.

(** The fallback of lines 257-275. *)
Definition fallback (w : providers) : gen :=
  let '(calls, audio_bytes) := SarvamService.generate_audio_ultra_fast w in
  fold_right Invoke
    (if nonempty audio_bytes
     then fold_right Yield Done (slices (List.length audio_bytes) audio_bytes)
     else Done)
    calls.

(** [_stream_audio_direct(text, language_code, speaker, websocket)],
    lines 196-275. *)
Definition _stream_audio_direct (w : providers) : gen :=
  gen_catch
    (Invoke SarvamStream (receive (sv_resps w) (sv_end w) []))
    (fun _ => gen_catch (fallback w) (fun _ => Done)).

End DirectStream.

(* ================================================================== *)
(** * utils/connection_monitor.py: the monitor *)
(* ================================================================== *)

Module ConnectionStateMonitor.

(** The counters of [ConnectionStateMonitor]; its two time stamps are clock
    readings. *)
Record t : Type := Make {
  chunks_sent : nat;
  bytes_sent : Z;
  normal_disconnections : nat;
  error_disconnections : nat
}.

(** [__init__], lines 263-270. *)
Definition init : t := Make 0 0 0 0.

(** [record_chunk_sent(chunk_size)], lines 276-280. *)
Definition record_chunk_sent (self : t) (chunk_size : Z) : t :=
  Make (chunks_sent self + 1) (bytes_sent self + chunk_size)
       (normal_disconnections self) (error_disconnections self).

(** [record_disconnection(exception)], lines 282-287. *)
Definition record_disconnection (self : t) (exception : exn) : t :=
  if ConnectionMonitor.is_normal_closure exception
  then Make (chunks_sent self) (bytes_sent self)
            (normal_disconnections self + 1) (error_disconnections self)
  else Make (chunks_sent self) (bytes_sent self)
            (normal_disconnections self) (error_disconnections self + 1).

(** The ["total_disconnections"] entry of [get_metrics], line 303. *)
Definition total_disconnections (self : t) : nat :=
  normal_disconnections self + error_disconnections self.

(** A call of one of the two recording methods. *)
Inductive call : Type :=
| RecordChunkSent (chunk_size : Z)
| RecordDisconnection (exception : exn).

Definition apply_call (self : t) (c : call) : t :=
  match c with
  | RecordChunkSent chunk_size => record_chunk_sent self chunk_size
  | RecordDisconnection exception => record_disconnection self exception
  end.

Definition chunk_sizes (calls : list call) : list Z :=
  flat_map (fun c => match c with
                     | RecordChunkSent n => [n]
                     | RecordDisconnection _ => []
                     end) calls.

Definition disconnections (calls : list call) : list exn :=
  flat_map (fun c => match c with
                     | RecordChunkSent _ => []
                     | RecordDisconnection e => [e]
                     end) calls.

(** The monitor of a connection after the calls [calls]. *)
Definition after_calls (calls : list call) : t :=
  fold_left apply_call calls init.

End ConnectionStateMonitor.

(* ================================================================== *)
(** * websocket_server.py: the basic handler *)
(* ================================================================== *)

(** One turn of the [while True] of [basic_websocket_handler],
    lines 1189-1233. *)
Definition basic_turn (m : inbound) : M loop_step :=
  try_
    (recv ;;
     match m with
     | NotJson err => raise (JSONDecodeError err)
     | NotObject err => raise (Exception_ err)
     | Request d _ =>
         if negb (truthy_opt (d_type d)) then
           send (Error "Message type is required") ;; ret Continue
         else
           let message_type := get_or (d_type d) EmptyString in
           if String.eqb message_type "ping" then send Pong ;; ret Continue
           else
             send (Error ("Service not available in basic mode: "
                          ++ message_type)%string) ;;
             ret Continue
     end)
    (fun x =>
       if isinstance_ConnectionClosed x then ret Break
       else
         match x with
         | JSONDecodeError _ =>
             send (Error "Invalid JSON message") ;; ret Continue
         | _ =>
             except_ConnectionClosed
               (send (Error ("Basic handler error: " ++ exn_str x)%string) ;;
                ret Continue)
               (fun _ => ret Break)
         end).

(** The loop over the messages the client sends; after the last one the
    client closes the connection and [recv] raises. *)
Fixpoint basic_loop (inbox : list inbound) : M unit :=
  match inbox with
  | [] => ret tt
  | m :: rest =>
      step <- basic_turn m ;;
      match step with
      | Continue => basic_loop rest
      | Break => ret tt
      end
  end.

(** [basic_websocket_handler(websocket_wrapper, client_id)],
    lines 1171-1233. *)
Definition basic_websocket_handler (inbox : list inbound) : M unit :=
  send (Connection_ready false false false) ;;
  basic_loop inbox.

(** The one event with which the basic handler answers a message. *)
Definition basic_reply (m : inbound) : event :=
  match m with
  | NotJson _ => Error "Invalid JSON message"
  | NotObject err => Error ("Basic handler error: " ++ err)
  | Request d _ =>
      if negb (truthy_opt (d_type d)) then Error "Message type is required"
      else if String.eqb (get_or (d_type d) EmptyString) "ping" then Pong
      else Error ("Service not available in basic mode: "
                  ++ get_or (d_type d) EmptyString)
  end.

(* ================================================================== *)
(** * websocket_server.py: loading the course data *)
(* ================================================================== *)

Module CourseData.

(** A JSON object of the course file, as far as the loader and
    [handle_start_class] look at it; its ["modules"] entry, when present, is a
    list. *)
Record course : Type := Course {
  course_id : option string;      (* str(c["course_id"]); [None]: no such key *)
  has_course_title : bool;        (* 'course_title' in c *)
  modules : list course_module    (* c.get("modules", []), a list *)
}.

(** An entry of a multi-course file. *)
Inductive element : Type :=
| ElemCourse (c : course)         (* an object *)
| ElemNull                        (* null *)
| ElemOther (type_name : string). (* a string, a number, a list, a boolean *)

(** What [json.load] gives for the course file. *)
Inductive json_file : Type :=
| FileObject (c : course)
| FileList (loaded : list element)
| FileOther.

(** What the loader returns: a course object, [None], or an entry of the
    file that is no object. *)
Inductive loaded_course : Type :=
| Loaded (c : course)
| LoadedNone
| LoadedOther (type_name : string).

(** [_create_fallback_course_data()], lines 962-991. *)
Definition _create_fallback_course_data : course :=
  Course (Some "fallback_course") true
    [CourseModule "Introduction to Learning"
       [SubTopic "Getting Started"
          ("Welcome to this educational journey. In this introduction, we will "
           ++ "explore the fundamentals of learning and how to make the most of "
           ++ "your educational experience. Learning is a continuous process "
           ++ "that involves acquiring new knowledge, skills, and understanding "
           ++ "through study, experience, or teaching.");
        SubTopic "Study Methods"
          ("Effective study methods are crucial for academic success. Some "
           ++ "proven techniques include active reading, note-taking, spaced "
           ++ "repetition, and practice testing. These methods help improve "
           ++ "retention and understanding of the material.")];
     CourseModule "Core Concepts"
       [SubTopic "Fundamental Principles"
          ("Understanding fundamental principles is essential for building a "
           ++ "strong foundation in any subject. These principles serve as the "
           ++ "building blocks for more advanced concepts and applications.")]].

(** [str(c.get("course_id", '')) == str(course_id)]. *)
Definition has_id (course_id_wanted : string) (c : course) : bool :=
  String.eqb (get_or (course_id c) EmptyString) course_id_wanted.

(** The search loop of lines 914-917; [c.get] raises on an entry that is no
    object. *)
Fixpoint search (course_id_wanted : string) (loaded : list element)
  : result (option course) :=
  match loaded with
  | [] => Ok None
  | ElemCourse c :: rest =>
      if has_id course_id_wanted c then Ok (Some c)
      else search course_id_wanted rest
  | ElemNull :: _ =>
      Raise (Exception_ "'NoneType' object has no attribute 'get'")
  | ElemOther type_name :: _ =>
      Raise (Exception_ ("'" ++ type_name ++ "' object has no attribute 'get'"))
  end.

(** [course_obj["course_id"] = course_id]. *)
Definition set_course_id (course_id_wanted : string) (c : course) : course :=
  Course (Some course_id_wanted) (has_course_title c) (modules c).

(** Lines 925-932, from the chosen entry on; the item assignment raises on an
    entry that is no object. *)
Definition finish (course_id_wanted : option string) (course_obj : element)
  : loaded_course :=
  match course_obj, course_id_wanted with
  | ElemCourse c, Some wanted => Loaded (set_course_id wanted c)
  | ElemCourse c, None => Loaded c
  | ElemNull, _ => LoadedNone
  | ElemOther type_name, None => LoadedOther type_name
  | ElemOther _, Some _ => Loaded _create_fallback_course_data
  end.

(** [_load_course_data_async(course_id)], lines 894-960.  [file] is [None]
    when the path does not exist and [Some None] when reading or parsing
    raises; the agent has no [document_service]. *)
Definition _load_course_data_async (file : option (option json_file))
           (course_id_wanted : option string) : loaded_course :=
  match file with
  | Some (Some (FileObject c)) =>
      if has_course_title c then finish course_id_wanted (ElemCourse c)
      else Loaded _create_fallback_course_data
  | Some (Some (FileList loaded)) =>
      match
        match course_id_wanted with
        | Some wanted => search wanted loaded
        | None => Ok None
        end
      with
      | Raise _ => Loaded _create_fallback_course_data
      | Ok (Some c) => finish course_id_wanted (ElemCourse c)
      | Ok None =>
          match loaded with
          | first :: _ => finish course_id_wanted first
          | [] => LoadedNone
          end
      end
  | Some (Some FileOther) => Loaded _create_fallback_course_data
  | Some None => Loaded _create_fallback_course_data
  | None => Loaded _create_fallback_course_data
  end.

(** [course_data.get("modules", [])] in [handle_start_class], line 534, under
    the [wait_for] that has not expired. *)
Definition modules_of (course_data : loaded_course)
  : result (list course_module) :=
  match course_data with
  | Loaded c => Ok (modules c)
  | LoadedNone => Raise (Exception_ "'NoneType' object has no attribute 'get'")
  | LoadedOther type_name =>
      Raise (Exception_ ("'" ++ type_name ++ "' object has no attribute 'get'"))
  end.

End CourseData.

(* ================================================================== *)
(** * What the client can read off the events of a job *)
(* ================================================================== *)

(** The payloads of the [audio_chunk] events, in order. *)
Definition audio_payloads (evs : list event) : list bytes :=
  flat_map (fun ev => match ev with
                      | Audio_chunk _ audio_data _ _ _ => [audio_data]
                      | _ => []
                      end) evs.

(** The [size] fields of the [audio_chunk] events, in order. *)
Definition audio_sizes (evs : list event) : list nat :=
  flat_map (fun ev => match ev with
                      | Audio_chunk _ _ size _ _ => [size]
                      | _ => []
                      end) evs.

(* ================================================================== *)
(** * services/sarvam_service.py: whole-text generation *)
(* ================================================================== *)

Module FastAudio.
Import Chunker TextCleaning.

Section Provider.

(** The class [\w] of [re] on a [str]: the alphanumeric code points of
    Unicode and the underscore. *)
Variable word_char : char -> bool.

(** What the provider answers to the request number [i] of a call, made for
    the text given: the audio it streams, or [None] when the connection
    raises. *)
Variable synthesize : nat -> str -> option bytes.

Definition dash : char := 45%N.

(** [re.sub(r'\.{2,}', '.', text)]: every run of two full stops or more
    becomes one full stop; [in_run] tells that the character before was a
    full stop. *)
Fixpoint sub_dots (in_run : bool) (text : str) : str :=
  match text with
  | [] => []
  | c :: rest =>
      if (c =? full_stop)%N
      then (if in_run then sub_dots true rest
            else full_stop :: sub_dots true rest)
      else c :: sub_dots false rest
  end.

(** What the scan of [--+] has seen just before: no dash, one dash that is
    not written yet, or a run of two dashes or more. *)
Inductive dashes : Type := NoDash | OneDash | DashRun.

(** [re.sub(r'--+', ' ', text)]: every run of two dashes or more becomes one
    space; a dash by itself stays. *)
Fixpoint sub_dashes (seen : dashes) (text : str) : str :=
  match text with
  | [] => match seen with OneDash => [dash] | _ => [] end
  | c :: rest =>
      if (c =? dash)%N then
        match seen with
        | NoDash => sub_dashes OneDash rest
        | OneDash => space :: sub_dashes DashRun rest
        | DashRun => sub_dashes DashRun rest
        end
      else
        match seen with
        | OneDash => dash :: c :: sub_dashes NoDash rest
        | _ => c :: sub_dashes NoDash rest
        end
  end.

(** The class [[\w\s.,!?;:\'-]]. *)
Definition essential_char (c : char) : bool :=
  word_char c || isspace c ||
  ((c =? 46) || (c =? 44) || (c =? 33) || (c =? 63) || (c =? 59) ||
   (c =? 58) || (c =? 39) || (c =? 45))%N.

(** [re.sub(r'[^\w\s.,!?;:\'-]', ' ', text)]. *)
Definition sub_inessential (text : str) : str :=
  map (fun c => if essential_char c then c else space) text.

(** [if len(text) > 8000: text = text[:7500] + "."], lines 484-486. *)
Definition truncate_hard (text : str) : str :=
  if (8000 <? Z.of_nat (List.length text))%Z
  then firstn (Z.to_nat 7500) text ++ [full_stop]
  else text.

(** [_clean_text_for_tts_fast(text)], lines 472-488. *)
Definition _clean_text_for_tts_fast (text : str) : str :=
  let text := sub_markdown text in
  let text := sub_dots false text in
  let text := sub_dashes NoDash text in
  let text := sub_inessential text in
  let text := sub_spaces false text in
  strip (truncate_hard text).

(** [_generate_audio_single(text, ...)], lines 608-628, as the request number
    [i] of a call: every exception becomes an empty buffer. *)
Definition _generate_audio_single (i : nat) (text : str) : bytes :=
  match synthesize i text with
  | Some full_audio_bytes => full_audio_bytes
  | None => []
  end.

(** The tasks of a batch (lines 652-660), created for the chunks from number
    [i] on, with their results as [asyncio.gather] returns them: in the order
    of the tasks.  No result is an exception, [_generate_audio_single] lets
    none out. *)
Fixpoint gather (i : nat) (batch : list str) : list (str * bytes) :=
  match batch with
  | [] => []
  | chunk :: rest => (chunk, _generate_audio_single i chunk) :: gather (S i) rest
  end.

(** Lines 664-674: the results that hold audio are appended, in order. *)
Definition combine_results (all_audio_bytes : bytes)
           (results : list (str * bytes)) : bytes :=
  fold_left (fun all_audio_bytes result =>
               if nonempty (snd result) then all_audio_bytes ++ snd result
               else all_audio_bytes)
            results all_audio_bytes.

(** The [for i in range(0, len(chunks), max_concurrent)] loop of lines
    647-678, on the chunks from number [i] on; it returns the requests made
    and the audio.  Each turn takes [max_concurrent] chunks, so [fuel] turns
    are enough for [fuel] chunks. *)
Fixpoint batches (fuel : nat) (max_concurrent : nat) (i : nat)
         (chunks : list str) (requests : list str) (all_audio_bytes : bytes)
  : list str * bytes :=
  match fuel with
  | 0 => (requests, all_audio_bytes)
  | S fuel' =>
      match chunks with
      | [] => (requests, all_audio_bytes)
      | _ =>
          let batch := firstn max_concurrent chunks in
          let results := gather i batch in
          batches fuel' max_concurrent (i + max_concurrent)
                  (skipn max_concurrent chunks)
                  (requests ++ map fst results)
                  (combine_results all_audio_bytes results)
      end
  end.

(** [_generate_audio_parallel_chunks(text, ..., chunk_size)], lines 630-682:
    the texts of the requests made, in the order of the tasks, and the audio
    returned.  Without a chunk the step of [range] is zero and [range]
    raises; line 680 makes an empty buffer of it. *)
Definition _generate_audio_parallel_chunks (text : str) (chunk_size : Z)
  : list str * bytes :=
  let chunks := _split_text_fast text chunk_size in
  let max_concurrent := Nat.min 4 (List.length chunks) in
  if max_concurrent =? 0 then ([], [])
  else batches (List.length chunks) max_concurrent 0 chunks [] [].

(** [generate_audio(text, language_code, speaker)], lines 86-108: the texts
    of the requests made and the audio returned. *)
Definition generate_audio (text : str) : list str * bytes :=
  let cleaned_text := _clean_text_for_tts_fast text in
  if (Z.of_nat (List.length cleaned_text) <=? 2500)%Z then
    ([cleaned_text], _generate_audio_single 0 cleaned_text)
  else if (Z.of_nat (List.length cleaned_text) <=? 6000)%Z then
    _generate_audio_parallel_chunks cleaned_text 2000
  else
    _generate_audio_parallel_chunks cleaned_text 2500.

End Provider.

(** White space is single spaces only; [after_space] tells that the character
    before was a space. *)
Fixpoint single_spaced (after_space : bool) (x : str) : bool :=
  match x with
  | [] => true
  | c :: rest =>
      if isspace c
      then (c =? space)%N && negb after_space && single_spaced true rest
      else single_spaced false rest
  end.

End FastAudio.

(* ================================================================== *)
(** * Closure classification *)
(* ================================================================== *)

Lemma code_in_1000_1001_spec (c : Z) :
  code_in_1000_1001 c = true <-> (c = 1000 \/ c = 1001)%Z.
Proof.
  unfold code_in_1000_1001.
  rewrite orb_true_iff, !Z.eqb_eq. tauto.
Qed.

(** C6, the claim as worded fails: [connection_monitor.is_normal_closure]
    classifies a plain exception, which is no connection closure at all, as
    Normal when its text mentions "going away". *)
Lemma C6_plain_exception_classified_normal :
  ~ (ConnectionMonitor.is_normal_closure (Exception_ "Server is GOING AWAY") = true
     <-> closure_with_normal_code (Exception_ "Server is GOING AWAY") = true).
Proof.
  intros [H _].
  assert (E : ConnectionMonitor.is_normal_closure
                (Exception_ "Server is GOING AWAY") = true) by reflexivity.
  specialize (H E). discriminate H.
Qed.

(** C6, amended: the classifier of websocket_server.py answers Normal exactly
    for a [ConnectionClosedOK] and for any other connection closure whose code
    is 1000 or 1001; the classifier of utils/connection_monitor.py answers
    Normal for those and, in addition, for every exception that is not a
    connection closure and whose lower-cased text contains one of
    "code = 1000", "code = 1001", "going away", "normal closure".  Everything
    else is Abnormal. *)
Theorem C6_closure_classification (e : exn) :
  (is_normal_closure e = true <->
     isinstance_ConnectionClosedOK e = true \/ closure_with_normal_code e = true)
  /\
  (ConnectionMonitor.is_normal_closure e = true <->
     isinstance_ConnectionClosedOK e = true \/ closure_with_normal_code e = true \/
     (isinstance_ConnectionClosed e = false /\
      PyStr.any_in ConnectionMonitor.normal_indicators
                   (PyStr.lower (exn_str e)) = true))
  /\
  (ConnectionMonitor.is_abnormal_disconnection e
   = negb (ConnectionMonitor.is_normal_closure e)).
Proof.
  split; [|split]; [| |reflexivity].
  - unfold is_normal_closure, closure_with_normal_code.
    destruct e; simpl; intuition congruence.
  - unfold ConnectionMonitor.is_normal_closure, closure_with_normal_code.
    destruct e; simpl; intuition congruence.
Qed.

(* ================================================================== *)
(** * Lists *)
(* ================================================================== *)

Lemma skipn_length_app (A : Type) (x y : list A) :
  skipn (List.length x) (x ++ y) = y.
Proof. induction x; simpl; auto. Qed.

(* ================================================================== *)
(** * Text chunking *)
(* ================================================================== *)

Module ChunkerFacts.
Import Chunker.

Example split_text_fast_example :
  _split_text_fast (s "  hello   world  foo") 11 = [s "hello world"; s "foo"].
Proof. reflexivity. Qed.

(** A slice taken at the length of the re-joined first chunk lands inside a
    word when the text starts with white space. *)
Example immediate_streaming_cuts_a_word :
  _split_text_for_immediate_streaming (s "  hello world") 6
  = [s "hello"; s "lo"; s "world"].
Proof. reflexivity. Qed.

Lemma truthy_false (x : str) : truthy x = false <-> x = [].
Proof. destruct x; simpl; split; congruence. Qed.

Lemma truthy_word (w : str) : word w -> truthy w = true.
Proof. intros [Hne _]. destruct w; [contradiction|reflexivity]. Qed.

Lemma split_from_words (text cur : str) :
  cur = [] \/ word cur -> Forall word (split_from cur text).
Proof.
  revert cur. induction text as [|c rest IH]; intros cur Hcur; simpl.
  - destruct Hcur as [-> | Hw]; simpl; [constructor|].
    destruct cur; simpl; [constructor|]. constructor; [exact Hw|constructor].
  - destruct (isspace c) eqn:Ec.
    + destruct Hcur as [-> | Hw]; simpl; [apply IH; now left|].
      destruct cur as [|a cur]; simpl; [apply IH; now left|].
      constructor; [exact Hw|apply IH; now left].
    + apply IH. right. split; [now destruct cur|].
      apply Forall_app. split; [|now constructor].
      destruct Hcur as [-> | [_ Hw]]; [constructor|exact Hw].
Qed.

Lemma split_words (text : str) : Forall word (split text).
Proof. apply split_from_words. now left. Qed.

Lemma split_from_run (w cur rest : str) :
  Forall (fun c => isspace c = false) w ->
  split_from cur (w ++ rest) = split_from (cur ++ w) rest.
Proof.
  revert cur. induction w as [|c w IH]; intros cur Hw; simpl.
  - now rewrite app_nil_r.
  - inversion Hw as [|? ? Hc Hw']; subst. rewrite Hc.
    rewrite IH by assumption. now rewrite <- app_assoc.
Qed.

Lemma split_join_words (ws : list str) :
  Forall word ws -> split (join_words ws) = ws.
Proof.
  unfold split. induction ws as [|w ws IH]; intros Hws; [reflexivity|].
  inversion Hws as [|? ? Hw Hws']; subst.
  pose proof (truthy_word Hw) as Tw. destruct Hw as [Hne Hw].
  destruct ws as [|w' ws].
  - simpl. rewrite <- (app_nil_r w) at 1.
    rewrite split_from_run by assumption. simpl. now rewrite Tw.
  - change (join_words (w :: w' :: ws)) with (w ++ space :: join_words (w' :: ws)).
    rewrite split_from_run by assumption.
    change (split_from ([] ++ w) (space :: join_words (w' :: ws)))
      with (if truthy w then w :: split_from [] (join_words (w' :: ws))
            else split_from [] (join_words (w' :: ws))).
    rewrite Tw. now rewrite IH.
Qed.

Lemma split_blanks (t : str) : blanks t -> split_from [] t = [].
Proof.
  induction t as [|c t IH]; intros Ht; [reflexivity|].
  inversion Ht as [|? ? Hc Ht']; subst. simpl. rewrite Hc. now apply IH.
Qed.

Lemma split_from_trailing_blanks (x t cur : str) :
  blanks t -> split_from cur (x ++ t) = split_from cur x.
Proof.
  intros Ht. revert cur. induction x as [|c x IH]; intros cur; simpl.
  - destruct t as [|c t]; [reflexivity|].
    inversion Ht as [|? ? Hc Ht']; subst. simpl. rewrite Hc.
    rewrite (split_blanks Ht'). reflexivity.
  - destruct (isspace c); [|apply IH].
    rewrite !IH. reflexivity.
Qed.

Lemma lstrip_decompose (x : str) : exists t, blanks t /\ x = t ++ lstrip x.
Proof.
  induction x as [|c x [t [Ht E]]]; [exists []; split; [constructor|reflexivity]|].
  simpl. destruct (isspace c) eqn:Ec.
  - exists (c :: t). split; [now constructor|]. simpl. now f_equal.
  - exists []. split; [constructor|reflexivity].
Qed.

Lemma split_lstrip (x : str) : split (lstrip x) = split x.
Proof.
  unfold split. induction x as [|c x IH]; [reflexivity|].
  simpl. destruct (isspace c) eqn:Ec; [exact IH|].
  simpl. now rewrite Ec.
Qed.

Lemma split_rstrip (x : str) : split (rstrip x) = split x.
Proof.
  unfold split, rstrip.
  destruct (lstrip_decompose (rev x)) as [t [Ht E]].
  assert (Ex : x = rev (lstrip (rev x)) ++ rev t).
  { rewrite <- rev_app_distr, <- E. now rewrite rev_involutive. }
  rewrite Ex at 2. symmetry. apply split_from_trailing_blanks.
  now apply Forall_rev.
Qed.

(** Stripping changes no word. *)
Lemma split_strip (x : str) : split (strip x) = split x.
Proof. unfold strip. now rewrite split_rstrip, split_lstrip. Qed.

Lemma join_words_cons (w : str) (ws : list str) :
  ws <> [] -> join_words (w :: ws) = w ++ space :: join_words ws.
Proof. destruct ws; [contradiction|reflexivity]. Qed.

Lemma join_words_truthy (ws : list str) :
  Forall word ws -> ws <> [] -> truthy (join_words ws) = true.
Proof.
  intros Hws Hne. destruct ws as [|w ws]; [contradiction|].
  inversion Hws as [|? ? [Hw _] _]; subst.
  destruct w; [contradiction|]. destruct ws; reflexivity.
Qed.

Lemma join_words_falsy (ws : list str) :
  Forall word ws -> truthy (join_words ws) = false -> ws = [].
Proof.
  intros Hws H. destruct ws as [|w ws]; [reflexivity|].
  rewrite join_words_truthy in H by (assumption || discriminate). discriminate.
Qed.

Lemma join_words_app (a b : list str) :
  a <> [] -> b <> [] ->
  join_words (a ++ b) = join_words a ++ space :: join_words b.
Proof.
  intros Ha Hb. induction a as [|w a IH]; [contradiction|].
  destruct a as [|w' a].
  - simpl app. now rewrite join_words_cons.
  - change ((w :: w' :: a) ++ b) with (w :: ((w' :: a) ++ b)).
    rewrite join_words_cons by discriminate.
    rewrite IH by discriminate.
    rewrite (join_words_cons w (ws := w' :: a)) by discriminate.
    now rewrite <- app_assoc.
Qed.

Lemma join_words_snoc (ws : list str) (w : str) :
  Forall word ws ->
  join_words (ws ++ [w])
  = join_words ws ++ (if truthy (join_words ws) then space :: w else w).
Proof.
  intros Hws. destruct ws as [|v ws]; [reflexivity|].
  rewrite join_words_truthy by (assumption || discriminate).
  now rewrite join_words_app by discriminate.
Qed.

(** The loop of [_split_text_fast] keeps, in [current_chunk], the words of
    the block it is filling, joined by single spaces; no word is lost,
    repeated or cut. *)
Lemma fast_fold (max : Z) (ws : list str) :
  Forall word ws ->
  forall (chunks : list str) (block : list str),
    Forall word block ->
    exists chunks' block',
      fold_left (fast_step max) ws (chunks, join_words block)
      = (chunks', join_words block') /\
      Forall word block' /\
      flat_map split chunks' ++ block'
      = flat_map split chunks ++ block ++ ws.
Proof.
  induction 1 as [|w ws Hw Hws IH]; intros chunks block Hb.
  - exists chunks, block. rewrite app_nil_r. auto.
  - simpl fold_left.
    remember (fast_step max (chunks, join_words block) w) as st eqn:Est.
    unfold fast_step in Est. subst st.
    destruct (_ <=? max)%Z.
    + rewrite <- join_words_snoc by assumption.
      destruct (IH chunks (block ++ [w])) as [c' [b' [E [Hb' Heq]]]].
      { apply Forall_app. auto. }
      exists c', b'. split; [exact E|split; [exact Hb'|]].
      rewrite Heq, <- app_assoc. reflexivity.
    + change w with (join_words [w]) at 2.
      destruct (truthy (join_words block)) eqn:T.
      * destruct (IH (chunks ++ [strip (join_words block)]) [w])
          as [c' [b' [E [Hb' Heq]]]]; [auto|].
        exists c', b'. split; [exact E|split; [exact Hb'|]].
        rewrite Heq, flat_map_app. simpl flat_map.
        rewrite split_strip, split_join_words by assumption.
        rewrite app_nil_r, <- !app_assoc. reflexivity.
      * destruct (IH chunks [w]) as [c' [b' [E [Hb' Heq]]]]; [auto|].
        exists c', b'. split; [exact E|split; [exact Hb'|]].
        rewrite Heq, (join_words_falsy Hb T). reflexivity.
Qed.

Lemma split_text_fast_words (text : str) (max : Z) :
  flat_map split (_split_text_fast text max) = split text.
Proof.
  unfold _split_text_fast. cbv zeta.
  destruct (@fast_fold max _ (split_words text) [] [] (Forall_nil _))
    as [c' [b' [E [Hb' Heq]]]].
  change (join_words []) with (@nil char) in E.
  unfold str in *. rewrite E. simpl in Heq.
  destruct (truthy (join_words b')) eqn:T.
  - rewrite flat_map_app. simpl.
    now rewrite split_strip, split_join_words, app_nil_r.
  - rewrite (join_words_falsy Hb' T), app_nil_r in Heq. exact Heq.
Qed.

(** The first loop of [_split_text_for_immediate_streaming] returns some
    leading words, joined by single spaces. *)
Lemma first_chunk_loop_prefix (max : Z) (ws : list str) :
  Forall word ws ->
  forall (block : list str) (n : nat),
    Forall word block ->
    exists k,
      first_chunk_loop max ws (join_words block) n
      = join_words (block ++ firstn k ws).
Proof.
  induction 1 as [|w ws Hw Hws IH]; intros block n Hb.
  - exists 0. now rewrite app_nil_r.
  - simpl first_chunk_loop. destruct (_ && _).
    + rewrite <- join_words_snoc by assumption.
      destruct (IH (block ++ [w]) (S n)) as [k E].
      { apply Forall_app. auto. }
      exists (S k). rewrite E. simpl. now rewrite <- app_assoc.
    + exists 0. now rewrite app_nil_r.
Qed.

Lemma split_text_for_immediate_streaming_words (text : str) (max : Z) :
  text = join_words (split text) ->
  flat_map split (_split_text_for_immediate_streaming text max) = split text.
Proof.
  intros Hnorm. unfold _split_text_for_immediate_streaming. cbv zeta.
  pose proof (split_text_fast_words text max) as Hfast.
  pose proof (split_words text) as Hws.
  remember (split text) as ws eqn:Ews.
  destruct ws as [|w0 ws0]; [reflexivity|].
  remember (w0 :: ws0) as ws eqn:Ecs.
  destruct (@first_chunk_loop_prefix max ws Hws [] 0 (Forall_nil _)) as [k E].
  change (join_words []) with (@nil char) in E. simpl app in E.
  unfold str in *. rewrite E. clear E.
  destruct (truthy (join_words (firstn k ws))) eqn:T; [|exact Hfast].
  pose proof (firstn_skipn k ws) as Hsplit.
  assert (Ha : Forall word (firstn k ws)).
  { rewrite <- Hsplit in Hws. now apply Forall_app in Hws. }
  assert (Hb : Forall word (skipn k ws)).
  { rewrite <- Hsplit in Hws. now apply Forall_app in Hws. }
  assert (Hane : firstn k ws <> []).
  { intros Hnil. rewrite Hnil in T. discriminate T. }
  remember (firstn k ws) as a eqn:Ea. remember (skipn k ws) as b eqn:Eb.
  assert (Hrem : split (strip (skipn (List.length (join_words a)) text)) = b).
  { rewrite split_strip, Hnorm, <- Hsplit.
    destruct b as [|b0 b].
    - rewrite app_nil_r, skipn_all. reflexivity.
    - rewrite join_words_app by (assumption || discriminate).
      rewrite skipn_length_app.
      change (split (space :: join_words (b0 :: b)))
        with (split (join_words (b0 :: b))).
      now apply split_join_words. }
  simpl flat_map. rewrite split_strip, split_join_words by assumption.
  rewrite <- Hsplit. f_equal.
  destruct (truthy (strip (skipn (List.length (join_words a)) text))) eqn:Tr.
  - now rewrite split_text_fast_words.
  - apply truthy_false in Tr. rewrite Tr in Hrem. now rewrite <- Hrem.
Qed.

(** C4, the claim as worded fails: the chunks are built from the words of
    [text.split()], so the white space between two chunks is gone and their
    concatenation is not the text. *)
Lemma C4_concatenation_is_not_the_text :
  ~ (List.concat (_split_text_fast (s "a b") 2) = s "a b") /\
  ~ (List.concat (_split_text_for_immediate_streaming (s "a b") 2) = s "a b").
Proof. split; intros H; vm_compute in H; discriminate H. Qed.

(** C4, amended: for every text and size, the chunks of [_split_text_fast]
    carry, in order, exactly the white-space separated words of the text,
    so no word is cut and the chunks rebuild the text up to white space;
    [_split_text_for_immediate_streaming] does the same on a text whose
    words are separated by single spaces. *)
Theorem C4_chunks_carry_whole_words (text : str) (max_chunk_size : Z) :
  flat_map split (_split_text_fast text max_chunk_size) = split text /\
  (text = join_words (split text) ->
   flat_map split (_split_text_for_immediate_streaming text max_chunk_size)
   = split text).
Proof.
  split.
  - apply split_text_fast_words.
  - apply split_text_for_immediate_streaming_words.
Qed.

Lemma C4_chunks_carry_whole_words_witness :
  s "the quick brown fox" = join_words (split (s "the quick brown fox")) /\
  flat_map split (_split_text_for_immediate_streaming (s "the quick brown fox") 10)
  = split (s "the quick brown fox").
Proof.
  split; [reflexivity|].
  apply (proj2 (C4_chunks_carry_whole_words (s "the quick brown fox") 10)).
  reflexivity.
Defined.

End ChunkerFacts.

(* ================================================================== *)
(** * Generators: what the audio service yields, calls and raises *)
(* ================================================================== *)

Lemma gen_raises_catch (g : gen) (h : exn -> gen) :
  gen_raises (gen_catch g h)
  = match gen_raises g with
    | None => None
    | Some e => gen_raises (h e)
    end.
Proof. induction g; simpl; auto. Qed.

Lemma gen_raises_forward_nonempty (g : gen) :
  gen_raises (gen_forward_nonempty g) = gen_raises g.
Proof. induction g as [| |c k IH|p k IH]; simpl; auto. destruct (nonempty c); auto. Qed.

Lemma gen_calls_catch (g : gen) (h : exn -> gen) :
  gen_calls (gen_catch g h)
  = gen_calls g ++ match gen_raises g with
                   | None => []
                   | Some e => gen_calls (h e)
                   end.
Proof. induction g; simpl; auto. now f_equal. Qed.

Lemma gen_calls_forward_nonempty (g : gen) :
  gen_calls (gen_forward_nonempty g) = gen_calls g.
Proof.
  induction g as [| |c k IH|p k IH]; simpl; auto.
  - destruct (nonempty c); auto.
  - now f_equal.
Qed.

Lemma gen_yields_catch (g : gen) (h : exn -> gen) :
  gen_yields (gen_catch g h)
  = gen_yields g ++ match gen_raises g with
                    | None => []
                    | Some e => gen_yields (h e)
                    end.
Proof. induction g; simpl; auto. now f_equal. Qed.

Lemma gen_yields_forward_nonempty (g : gen) :
  gen_yields (gen_forward_nonempty g) = filter nonempty (gen_yields g).
Proof.
  induction g as [| |c k IH|p k IH]; simpl; auto.
  destruct (nonempty c); simpl; now f_equal.
Qed.

Lemma gen_raises_yield_if_nonempty (a : bytes) (k : gen) :
  gen_raises (yield_if_nonempty a k) = gen_raises k.
Proof. unfold yield_if_nonempty. now destruct (nonempty a). Qed.

Lemma gen_calls_yield_if_nonempty (a : bytes) (k : gen) :
  gen_calls (yield_if_nonempty a k) = gen_calls k.
Proof. unfold yield_if_nonempty. now destruct (nonempty a). Qed.

Lemma gen_yields_yield_if_nonempty (a : bytes) (k : gen) :
  gen_yields (yield_if_nonempty a k)
  = (if nonempty a then [a] else []) ++ gen_yields k.
Proof. unfold yield_if_nonempty. now destruct (nonempty a). Qed.

Lemma gen_raises_invokes (calls : list provider_call) (k : gen) :
  gen_raises (fold_right Invoke k calls) = gen_raises k.
Proof. induction calls; simpl; auto. Qed.

Lemma gen_calls_invokes (calls : list provider_call) (k : gen) :
  gen_calls (fold_right Invoke k calls) = calls ++ gen_calls k.
Proof. induction calls; simpl; auto. now f_equal. Qed.

Lemma gen_yields_invokes (calls : list provider_call) (k : gen) :
  gen_yields (fold_right Invoke k calls) = gen_yields k.
Proof. induction calls; simpl; auto. Qed.

(** The ElevenLabs receive loop opens no request of its own. *)
Lemma receive_calls (msgs : list el_message) (fin : stream_end) (n : nat) :
  gen_calls (ElevenLabsService.receive msgs fin n) = [].
Proof.
  revert n. induction msgs as [|m msgs IH]; intros n; simpl.
  - destruct fin; [|reflexivity]. unfold ElevenLabsService.after_receive.
    now destruct (n =? 0).
  - destruct m as [audio is_final|payload| |e]; auto.
    + rewrite gen_calls_yield_if_nonempty. destruct is_final; auto.
      unfold ElevenLabsService.after_receive. now destruct (_ =? 0).
    + destruct (nonempty payload); simpl; auto.
Qed.

Lemma forward_calls (resps : list tts_resp) (fin : stream_end) :
  gen_calls (SarvamService.forward resps fin) = [].
Proof.
  induction resps as [|r resps IH]; simpl; [now destruct fin|].
  now destruct r.
Qed.

Lemma forward_raises (resps : list tts_resp) (fin : stream_end) :
  gen_raises (SarvamService.forward resps fin)
  = match fin with EndOk => None | EndRaise e => Some e end.
Proof.
  induction resps as [|r resps IH]; simpl; [now destruct fin|].
  now destruct r.
Qed.

Lemma text_to_speech_stream_raises (el : ElevenLabsService.t) (w : providers) :
  gen_raises (ElevenLabsService.text_to_speech_stream el w) = None.
Proof.
  unfold ElevenLabsService.text_to_speech_stream.
  destruct (negb _); [reflexivity|].
  rewrite gen_raises_catch.
  destruct (gen_raises _); [|reflexivity].
  rewrite gen_raises_catch. now destruct (gen_raises _).
Qed.

Lemma stream_audio_generation_raises (w : providers) :
  gen_raises (SarvamService.stream_audio_generation w) = None.
Proof.
  unfold SarvamService.stream_audio_generation.
  rewrite gen_raises_catch.
  destruct (gen_raises _); [|reflexivity].
  rewrite gen_raises_catch. now destruct (gen_raises _).
Qed.

(** No exception leaves [stream_audio_from_text]: each stage swallows what its
    provider raises. *)
Lemma stream_audio_from_text_raises (svc : AudioService.t) (w : providers)
      (ws : option ConnectionMonitor.sock_view) :
  gen_raises (AudioService.stream_audio_from_text svc w ws) = None.
Proof.
  assert (S : gen_raises (AudioService.sarvam_stage svc w ws) = None).
  { unfold AudioService.sarvam_stage.
    now rewrite gen_raises_catch, gen_raises_forward_nonempty,
      stream_audio_generation_raises. }
  unfold AudioService.stream_audio_from_text.
  destruct (AudioService.uses_elevenlabs svc); [|exact S].
  now rewrite gen_raises_catch, gen_raises_forward_nonempty,
    text_to_speech_stream_raises.
Qed.

(** The provider requests of a job: the streaming one and, when it raises,
    the whole-text one of the same service. *)
Lemma stream_audio_from_text_calls (svc : AudioService.t) (w : providers)
      (ws : option ConnectionMonitor.sock_view) :
  gen_calls (AudioService.stream_audio_from_text svc w ws)
  = match AudioService.uses_elevenlabs svc with
    | Some el =>
        if ElevenLabsService.enabled el then
          ElevenLabsStream ::
          match gen_raises (ElevenLabsService.receive (el_msgs w) (el_end w) 0) with
          | Some _ => [ElevenLabsRest]
          | None => []
          end
        else []
    | None =>
        SarvamStream ::
        match sv_end w with
        | EndRaise _ => [SarvamSingle]
        | EndOk => []
        end
    end.
Proof.
  unfold AudioService.stream_audio_from_text.
  destruct (AudioService.uses_elevenlabs svc) as [el|].
  - rewrite gen_calls_catch, gen_raises_forward_nonempty,
      text_to_speech_stream_raises, app_nil_r, gen_calls_forward_nonempty.
    unfold ElevenLabsService.text_to_speech_stream.
    destruct (ElevenLabsService.enabled el) eqn:En; [|reflexivity].
    simpl negb. cbv iota. rewrite gen_calls_catch. simpl gen_calls.
    rewrite receive_calls. simpl. f_equal.
    destruct (gen_raises _); [|reflexivity].
    rewrite gen_calls_catch.
    unfold ElevenLabsService.rest_fallback, ElevenLabsService.text_to_speech.
    rewrite En. simpl.
    rewrite gen_calls_yield_if_nonempty, gen_raises_yield_if_nonempty. reflexivity.
  - unfold AudioService.sarvam_stage.
    rewrite gen_calls_catch, gen_raises_forward_nonempty,
      stream_audio_generation_raises, app_nil_r, gen_calls_forward_nonempty.
    unfold SarvamService.stream_audio_generation.
    rewrite gen_calls_catch. simpl gen_calls. rewrite forward_calls. simpl.
    rewrite forward_raises. f_equal.
    destruct (sv_end w); [reflexivity|].
    rewrite gen_calls_catch.
    unfold SarvamService.simple_fallback, SarvamService.generate_audio_ultra_fast.
    simpl. rewrite gen_calls_yield_if_nonempty, gen_raises_yield_if_nonempty.
    reflexivity.
Qed.

(* ================================================================== *)
(** * Sending on the socket *)
(* ================================================================== *)

Lemma send_can (ev : event) (st : session) :
  can_send st 1 -> send ev st = (Ok tt, sent [ev] st).
Proof.
  unfold can_send, send, sent. destruct st as [d [[|k]|] c mc m l p]; simpl.
  - lia.
  - intros _. now rewrite Nat.sub_0_r.
  - reflexivity.
Qed.

Lemma send_closed (ev : event) (st : session) :
  sends_left st = Some 0 ->
  send ev st = (Raise (closure_exn (closing st)),
                set_delivered st (delivered st) (Some 0) (message_count st + 1)).
Proof. unfold send. now intros ->. Qed.

Lemma sent_nil (st : session) : sent [] st = st.
Proof.
  unfold sent. destruct st as [d [k|] c mc m l p]; simpl;
    now rewrite app_nil_r, Nat.add_0_r, ?Nat.sub_0_r.
Qed.

Lemma sent_app (a b : list event) (st : session) :
  sent b (sent a st) = sent (a ++ b) st.
Proof.
  unfold sent. destruct st as [d [k|] c mc m l p]; simpl;
    rewrite length_app, <- app_assoc, Nat.add_assoc; [|reflexivity].
  now rewrite Nat.sub_add_distr.
Qed.

Lemma called_nil (st : session) : called [] st = st.
Proof. unfold called. destruct st; simpl. now rewrite app_nil_r. Qed.

Lemma called_app (a b : list provider_call) (st : session) :
  called b (called a st) = called (a ++ b) st.
Proof. unfold called. simpl. now rewrite app_assoc. Qed.

Lemma called_sent (calls : list provider_call) (evs : list event) (st : session) :
  called calls (sent evs st) = sent evs (called calls st).
Proof. reflexivity. Qed.

Lemma can_send_sent (evs : list event) (n : nat) (st : session) :
  can_send st (List.length evs + n) -> can_send (sent evs st) n.
Proof. unfold can_send, sent. destruct (sends_left st); simpl; lia. Qed.

Lemma can_send_called (calls : list provider_call) (n : nat) (st : session) :
  can_send (called calls st) n <-> can_send st n.
Proof. reflexivity. Qed.

Lemma can_send_le (st : session) (n m : nat) :
  m <= n -> can_send st n -> can_send st m.
Proof. unfold can_send. destruct (sends_left st); lia. Qed.

Lemma log_call_called (p : provider_call) (st : session) :
  log_call p st = (Ok tt, called [p] st).
Proof. reflexivity. Qed.

(* ================================================================== *)
(** * The forwarding loop *)
(* ================================================================== *)

Lemma length_number_chunks (rid : string) (cs : list bytes) (n : nat) (f : bool) :
  List.length (number_chunks rid cs n f) = List.length cs.
Proof. revert n f. induction cs; simpl; auto. Qed.

Lemma forward_chunk_nonempty (rid : string) (c : bytes) (n sz : nat) (f : bool)
      (st : session) :
  nonempty c = true ->
  forward_chunk rid c (n, sz, f) st
  = match send (Audio_chunk (n + 1) c (List.length c) (negb f) rid) st with
    | (Ok _, st') => (Ok (n + 1, sz + List.length c, true), st')
    | (Raise e, st') => (Raise e, st')
    end.
Proof. unfold forward_chunk. now intros ->. Qed.

Lemma forward_chunk_empty (rid : string) (c : bytes) (locals : nat * nat * bool)
      (st : session) :
  nonempty c = false -> forward_chunk rid c locals st = (Ok locals, st).
Proof. unfold forward_chunk. destruct locals as [[n sz] f]. now intros ->. Qed.

Lemma drive_yield (S : Type) (c : bytes) (k : gen) (body : bytes -> S -> M S)
      (s : S) (st : session) :
  drive (Yield c k) body s st
  = match body c s st with
    | (Ok s', st') => drive k body s' st'
    | (Raise e, st') => (Raise e, st')
    end.
Proof. reflexivity. Qed.

Lemma drive_invoke (S : Type) (p : provider_call) (k : gen)
      (body : bytes -> S -> M S) (s : S) (st : session) :
  drive (Invoke p k) body s st = drive k body s (called [p] st).
Proof. reflexivity. Qed.

(** The loop on a socket that accepts every chunk: the non-empty chunks go out
    in order, numbered from [chunk_count + 1]; empty ones leave no trace. *)
Lemma drive_forward_chunk (rid : string) (g : gen) :
  forall (chunk_count size : nat) (first : bool) (st : session),
    can_send st (List.length (gen_audio g)) ->
    drive g (forward_chunk rid) (chunk_count, size, first) st
    = (match gen_raises g with
       | Some e => Raise e
       | None => Ok (chunk_count + List.length (gen_audio g),
                     size + total_size (gen_audio g),
                     match gen_audio g with [] => first | _ => true end)
       end,
       called (gen_calls g)
              (sent (number_chunks rid (gen_audio g) chunk_count first) st)).
Proof.
  induction g as [|e|c k IH|p k IH]; intros n sz f st; unfold gen_audio in *.
  - intros _. simpl. unfold ret. now rewrite !Nat.add_0_r, sent_nil, called_nil.
  - intros _. simpl. unfold raise. now rewrite sent_nil, called_nil.
  - rewrite drive_yield. simpl gen_yields. simpl filter.
    destruct (nonempty c) eqn:Ec.
    + intros Hcan. simpl in Hcan.
      rewrite forward_chunk_nonempty by assumption.
      rewrite send_can by (eapply can_send_le; [|exact Hcan]; lia).
      rewrite IH by (apply can_send_sent; exact Hcan).
      rewrite sent_app. simpl. f_equal.
      destruct (gen_raises k); [reflexivity|].
      f_equal. f_equal; [f_equal|]; unfold total_size; simpl; try lia.
      now destruct (filter nonempty (gen_yields k)).
    + intros Hcan.
      rewrite forward_chunk_empty by assumption. now rewrite IH.
  - intros Hcan. rewrite drive_invoke, IH by exact Hcan.
    simpl. now rewrite called_sent, called_app.
Qed.

(** The loop on a socket that closes before the last chunk: the first [b]
    chunks go out, the next write raises the closure. *)
Lemma drive_forward_chunk_closing (rid : string) (g : gen) :
  forall (chunk_count size : nat) (first : bool) (st : session) (b : nat),
    sends_left st = Some b ->
    b < List.length (gen_audio g) ->
    exists calls,
      drive g (forward_chunk rid) (chunk_count, size, first) st
      = (Raise (closure_exn (closing st)),
         Session (delivered st
                  ++ firstn b (number_chunks rid (gen_audio g) chunk_count first))
                 (Some 0) (closing st) (message_count st + b + 1)
                 (conversation_metrics st) (current_language st)
                 (provider_calls st ++ calls)).
Proof.
  induction g as [|e|c k IH|p k IH]; intros n sz f st b; unfold gen_audio in *.
  - intros _ H. inversion H.
  - intros _ H. inversion H.
  - rewrite drive_yield. simpl gen_yields. simpl filter.
    destruct (nonempty c) eqn:Ec.
    + intros Hb Hlt. simpl in Hlt.
      rewrite forward_chunk_nonempty by assumption. destruct b as [|b].
      * exists []. rewrite send_closed by assumption.
        destruct st; simpl in *. now rewrite !app_nil_r, Nat.add_0_r.
      * rewrite send_can by (unfold can_send; rewrite Hb; lia).
        destruct (IH (n + 1) (sz + List.length c) true
                     (sent [Audio_chunk (n + 1) c (List.length c) (negb f) rid] st) b)
          as [calls E].
        { unfold sent. rewrite Hb. simpl. now rewrite Nat.sub_0_r. }
        { lia. }
        exists calls. rewrite E. unfold sent. rewrite Hb.
        destruct st; simpl in *. rewrite <- app_assoc. simpl.
        f_equal. f_equal. lia.
    + intros Hb Hlt.
      rewrite forward_chunk_empty by assumption. now apply IH.
  - intros Hb Hlt. rewrite drive_invoke.
    destruct (IH n sz f (called [p] st) b Hb Hlt) as [calls E].
    exists (p :: calls). rewrite E. unfold called. simpl.
    now rewrite <- app_assoc.
Qed.

(* ================================================================== *)
(** * One StreamJob *)
(* ================================================================== *)

Lemma new_events_sent (evs : list event) (st : session) :
  new_events st (sent evs st) = evs.
Proof. unfold new_events, sent. simpl. apply skipn_length_app. Qed.

Lemma new_events_called_sent (calls : list provider_call) (evs : list event)
      (st : session) :
  new_events st (called calls (sent evs st)) = evs.
Proof. unfold new_events, called, sent. simpl. apply skipn_length_app. Qed.

Lemma isinstance_closure_exn (c : closure) :
  isinstance_ConnectionClosed (closure_exn c) = true.
Proof. unfold closure_exn. now destruct (closed_ok c). Qed.

Lemma audio_stream_raises (self : agent) (w : providers) :
  gen_raises (audio_stream self w)
  = match audio_service self with
    | Some _ => None
    | None => Some (Exception_
                 "'NoneType' object has no attribute 'stream_audio_from_text'")
    end.
Proof.
  unfold audio_stream. destruct (audio_service self); [|reflexivity].
  apply stream_audio_from_text_raises.
Qed.

(** A job on a socket that stays open long enough: every chunk, then the
    completion event with the totals. *)
Lemma stream_job_complete (self : agent) (w : providers) (rid prefix : string)
      (st : session) (svc : AudioService.t) :
  audio_service self = Some svc ->
  can_send st (List.length (job_chunks self w) + 1) ->
  stream_job self w rid prefix st
  = (Ok true,
     called (gen_calls (audio_stream self w))
       (sent (job_events self w rid
              ++ [Audio_generation_complete (List.length (job_chunks self w))
                    (total_size (job_chunks self w)) rid]) st)).
Proof.
  intros Hsvc Hcan. unfold stream_job, try_, bind, job_events, job_chunks in *.
  rewrite drive_forward_chunk by (eapply can_send_le; [|exact Hcan]; lia).
  rewrite audio_stream_raises, Hsvc. cbv beta iota.
  rewrite send_can.
  2:{ rewrite can_send_called. apply can_send_sent.
      rewrite length_number_chunks. exact Hcan. }
  unfold ret. rewrite <- called_sent, sent_app. reflexivity.
Qed.

(** A job on a socket that closes after [b] more writes, [b] at most the
    number of chunks: the first [b] chunks go out, nothing else; the closure
    is counted as an error unless it is a normal one. *)
Lemma stream_job_cut_short (self : agent) (w : providers) (rid prefix : string)
      (st : session) (svc : AudioService.t) (b : nat) :
  audio_service self = Some svc ->
  sends_left st = Some b ->
  b <= List.length (job_chunks self w) ->
  exists calls,
    stream_job self w rid prefix st
    = (Ok true, cut_short st (firstn b (job_events self w rid)) calls).
Proof.
  intros Hsvc Hb Hle. unfold stream_job, try_, bind.
  assert (Hlen : List.length (firstn b (job_events self w rid)) = b).
  { rewrite length_firstn. unfold job_events. rewrite length_number_chunks. lia. }
  destruct (Nat.eq_dec b (List.length (job_chunks self w))) as [Heq|Hne].
  - rewrite drive_forward_chunk by (unfold can_send; rewrite Hb; fold (job_chunks self w); lia).
    rewrite audio_stream_raises, Hsvc. cbv beta iota.
    rewrite send_closed.
    2:{ unfold called, sent. simpl. rewrite Hb, length_number_chunks.
        fold (job_chunks self w). f_equal. lia. }
    exists (gen_calls (audio_stream self w)).
    rewrite isinstance_closure_exn.
    fold (job_chunks self w) (job_events self w rid).
    assert (Hall : firstn b (job_events self w rid) = job_events self w rid).
    { apply firstn_all2. unfold job_events. rewrite length_number_chunks. lia. }
    rewrite Hall in *. unfold cut_short.
    destruct st as [d l c mc m lang p]; simpl in *. rewrite !Hlen.
    destruct (is_normal_closure (closure_exn c)); simpl;
      unfold ret, count_error, modify, bind; simpl; destruct m; reflexivity.
  - destruct (@drive_forward_chunk_closing rid (audio_stream self w) 0 0 false st b Hb)
      as [calls E]; [fold (job_chunks self w); lia|].
    rewrite E. exists calls. cbv beta iota.
    rewrite isinstance_closure_exn.
    fold (job_chunks self w) (job_events self w rid).
    unfold cut_short. rewrite Hlen.
    destruct st as [d l c mc m lang p]; simpl in *.
    destruct (is_normal_closure (closure_exn c)); simpl;
      unfold ret, count_error, modify, bind; simpl; destruct m; reflexivity.
Qed.

Lemma filter_filter_same (A : Type) (f : A -> bool) (l : list A) :
  filter f (filter f l) = filter f l.
Proof.
  induction l as [|a l IH]; simpl; [reflexivity|].
  destruct (f a) eqn:E; simpl; [rewrite E; now f_equal|exact IH].
Qed.

(* ================================================================== *)
(** * C1: fallback after delivery *)
(* ================================================================== *)

Lemma forward_yields (resps : list tts_resp) (fin : stream_end) :
  gen_yields (SarvamService.forward resps fin) = tts_audios resps.
Proof.
  induction resps as [|r resps IH]; simpl; [now destruct fin|].
  destruct r; simpl; now f_equal.
Qed.

Lemma filter_nonempty_if (a : bytes) :
  filter nonempty (if nonempty a then [a] else []) = if nonempty a then [a] else [].
Proof. destruct (nonempty a) eqn:E; simpl; [now rewrite E|reflexivity]. Qed.

(** What a Sarvam job yields: the streamed audio and, when the stream raises,
    the whole-text audio after it. *)
Lemma sarvam_job_audio (svc : AudioService.t) (w : providers)
      (ws : option ConnectionMonitor.sock_view) :
  AudioService.uses_elevenlabs svc = None ->
  gen_audio (AudioService.stream_audio_from_text svc w ws)
  = filter nonempty (tts_audios (sv_resps w))
    ++ match sv_end w with
       | EndOk => []
       | EndRaise _ =>
           if nonempty (snd (SarvamService.generate_audio_ultra_fast w))
           then [snd (SarvamService.generate_audio_ultra_fast w)] else []
       end.
Proof.
  intros Hel. unfold gen_audio, AudioService.stream_audio_from_text.
  rewrite Hel. unfold AudioService.sarvam_stage.
  rewrite gen_yields_catch, gen_raises_forward_nonempty,
    stream_audio_generation_raises, app_nil_r, gen_yields_forward_nonempty.
  rewrite filter_filter_same.
  unfold SarvamService.stream_audio_generation.
  rewrite gen_yields_catch. simpl gen_yields. simpl gen_raises.
  rewrite forward_yields, forward_raises, filter_app. f_equal.
  destruct (sv_end w); [reflexivity|].
  rewrite gen_yields_catch.
  unfold SarvamService.simple_fallback, SarvamService.generate_audio_ultra_fast.
  simpl. rewrite gen_yields_yield_if_nonempty, gen_raises_yield_if_nonempty.
  simpl. rewrite !app_nil_r. apply filter_nonempty_if.
Qed.

(** C1, the claim as worded fails: Sarvam streams one chunk, the handler
    delivers it, the stream then raises, and [stream_audio_generation] opens a
    second provider request whose audio for the same text is delivered as
    chunk 2. *)
Lemma C1_fallback_after_a_delivered_chunk :
  invokes_after_delivery
    (audio_stream Scenario.sarvam_agent Scenario.fails_mid_stream) = true /\
  handle_audio_only Scenario.sarvam_agent (Scenario.request "audio_only")
    (Scenario.env_of Scenario.fails_mid_stream)
    (new_session None Scenario.abnormal)
  = (Ok tt,
     Session [Audio_generation_started (Some "r1");
              Audio_chunk 1 Scenario.A 1 true "r1";
              Audio_chunk 2 Scenario.AB 2 false "r1";
              Audio_generation_complete 2 3 "r1"]
             None Scenario.abnormal 4 (Metrics 1 0 1 0 0) "en-IN"
             [SarvamStream; SarvamSingle]).
Proof. split; reflexivity. Qed.

(** The receive loop raises on the frame it cannot handle, whatever it has
    yielded before. *)
Lemma receive_raises_on_bad_frame (msgs before : list el_message) (e : exn)
      (fin : stream_end) :
  frames_read msgs = before ++ [ElRaises e] ->
  forall n, gen_raises (ElevenLabsService.receive msgs fin n) = Some e.
Proof.
  revert before. induction msgs as [|m msgs IH]; intros before H n.
  - destruct before; discriminate H.
  - destruct m as [a [|]|payload| |e']; cbn [frames_read] in H.
    + apply (app_inj_tail []) in H. destruct H as [_ H]. discriminate H.
    + destruct before as [|b before]; [discriminate H|].
      injection H as _ H. simpl. rewrite gen_raises_yield_if_nonempty.
      now apply (IH before).
    + destruct before as [|b before]; [discriminate H|].
      injection H as _ H. simpl.
      destruct (nonempty payload); simpl; now apply (IH before).
    + destruct before as [|b before]; [discriminate H|].
      injection H as _ H. simpl. now apply (IH before).
    + apply (app_inj_tail []) in H. destruct H as [_ H].
      injection H as ->. reflexivity.
Qed.

(** The run behind the undecodable frame: the loop raises on it, the REST
    request is made and fails, and the job has no audio. *)
Example undecodable_frame_requests_rest :
  gen_calls (AudioService.stream_audio_from_text
               (AudioService.init "elevenlabs" (Some (ElevenLabsService.Make true)))
               Scenario.undecodable_frame (Some wrapper_view))
  = [ElevenLabsStream; ElevenLabsRest] /\
  gen_audio (AudioService.stream_audio_from_text
               (AudioService.init "elevenlabs" (Some (ElevenLabsService.Make true)))
               Scenario.undecodable_frame (Some wrapper_view))
  = [].
Proof. split; reflexivity. Qed.

(** C1, amended: a job opens at most two provider requests.  When the
    streaming request raises, the whole-text synthesis of the same service is
    requested exactly once, whatever was yielded (and so delivered) before,
    and for Sarvam its non-empty audio follows the chunks already yielded.
    With ElevenLabs this holds for every failure of the streaming request,
    among them a frame that the receive loop cannot handle, whatever frames
    were read before it. *)
Theorem C1_fallback_does_not_depend_on_delivery
        (svc : AudioService.t) (w : providers)
        (ws : option ConnectionMonitor.sock_view) :
  List.length (gen_calls (AudioService.stream_audio_from_text svc w ws)) <= 2 /\
  (AudioService.uses_elevenlabs svc = None ->
   forall e, sv_end w = EndRaise e ->
     gen_calls (AudioService.stream_audio_from_text svc w ws)
     = [SarvamStream; SarvamSingle] /\
     gen_audio (AudioService.stream_audio_from_text svc w ws)
     = filter nonempty (tts_audios (sv_resps w))
       ++ (if nonempty (snd (SarvamService.generate_audio_ultra_fast w))
           then [snd (SarvamService.generate_audio_ultra_fast w)] else [])) /\
  (forall el, AudioService.uses_elevenlabs svc = Some el ->
   ElevenLabsService.enabled el = true ->
   forall e,
     gen_raises (ElevenLabsService.receive (el_msgs w) (el_end w) 0) = Some e ->
     gen_calls (AudioService.stream_audio_from_text svc w ws)
     = [ElevenLabsStream; ElevenLabsRest]) /\
  (forall el, AudioService.uses_elevenlabs svc = Some el ->
   ElevenLabsService.enabled el = true ->
   forall before e,
     frames_read (el_msgs w) = before ++ [ElRaises e] ->
     gen_calls (AudioService.stream_audio_from_text svc w ws)
     = [ElevenLabsStream; ElevenLabsRest]).
Proof.
  rewrite stream_audio_from_text_calls. split; [|split; [|split]].
  - destruct (AudioService.uses_elevenlabs svc) as [el|].
    + destruct (ElevenLabsService.enabled el); [|simpl; lia].
      destruct (gen_raises _); simpl; lia.
    + destruct (sv_end w); simpl; lia.
  - intros Hel e He. split.
    + now rewrite Hel, He.
    + rewrite sarvam_job_audio by assumption. now rewrite He.
  - intros el Hel Hen e He. now rewrite Hel, Hen, He.
  - intros el Hel Hen before e He.
    now rewrite Hel, Hen, (receive_raises_on_bad_frame (el_end w) He 0).
Qed.

Lemma C1_fallback_does_not_depend_on_delivery_witness :
  gen_calls (AudioService.stream_audio_from_text
               (AudioService.init "sarvam" None) Scenario.fails_mid_stream
               (Some wrapper_view))
  = [SarvamStream; SarvamSingle] /\
  gen_audio (AudioService.stream_audio_from_text
               (AudioService.init "sarvam" None) Scenario.fails_mid_stream
               (Some wrapper_view))
  = [Scenario.A; Scenario.AB].
Proof.
  apply (proj1 (proj2 (C1_fallback_does_not_depend_on_delivery
                         (AudioService.init "sarvam" None)
                         Scenario.fails_mid_stream (Some wrapper_view)))
               eq_refl (Exception_ "stream reset") eq_refl).
Defined.

(* ================================================================== *)
(** * C3: every provider fails *)
(* ================================================================== *)

Lemma receive_silent (msgs : list el_message) (fin : stream_end) :
  Forall el_silent (frames_read msgs) ->
  forall n, filter nonempty (gen_yields (ElevenLabsService.receive msgs fin n)) = [].
Proof.
  assert (Hafter : forall n,
             filter nonempty (gen_yields (ElevenLabsService.after_receive n)) = []).
  { intros n. unfold ElevenLabsService.after_receive. now destruct (n =? 0). }
  induction msgs as [|m msgs IH]; intros H n.
  - simpl. destruct fin; [apply Hafter|reflexivity].
  - destruct m as [[b|] [|]|b| |e]; cbn [frames_read] in H;
      inversion H as [|? ? Hm Hrest]; subst; cbn [el_silent] in Hm; simpl;
      unfold yield_if_nonempty; rewrite ?Hm; simpl; auto.
Qed.

Lemma all_providers_fail_no_audio (svc : AudioService.t) (w : providers)
      (ws : option ConnectionMonitor.sock_view) :
  all_providers_fail svc w ->
  gen_audio (AudioService.stream_audio_from_text svc w ws) = [].
Proof.
  unfold all_providers_fail.
  destruct (AudioService.uses_elevenlabs svc) as [el|] eqn:Hel.
  - intros [Hs Hr]. unfold gen_audio, AudioService.stream_audio_from_text.
    rewrite Hel, gen_yields_catch, gen_raises_forward_nonempty,
      text_to_speech_stream_raises, app_nil_r, gen_yields_forward_nonempty,
      filter_filter_same.
    unfold ElevenLabsService.text_to_speech_stream.
    destruct (negb (ElevenLabsService.enabled el)); [reflexivity|].
    rewrite gen_yields_catch. simpl gen_yields. simpl gen_raises.
    rewrite filter_app, receive_silent by assumption. simpl.
    destruct (gen_raises _); [|reflexivity].
    rewrite gen_yields_catch. unfold ElevenLabsService.rest_fallback.
    destruct (ElevenLabsService.text_to_speech el w) as [calls audio].
    simpl in Hr.
    rewrite gen_yields_invokes, gen_raises_invokes,
      gen_yields_yield_if_nonempty, gen_raises_yield_if_nonempty, Hr.
    reflexivity.
  - intros [[e He] [Hs Hr]]. rewrite sarvam_job_audio by assumption.
    now rewrite Hs, He, Hr.
Qed.

Lemma handle_audio_only_open (self : agent) (d : data) (e : env) (st : session)
      (svc : AudioService.t) :
  audio_service self = Some svc ->
  truthy_opt (d_text d) = true ->
  can_send st (List.length (job_chunks self (tts e)) + 2) ->
  handle_audio_only self d e st
  = update_metrics KAudio
      (called (gen_calls (audio_stream self (tts e)))
         (sent (Audio_generation_started (Some (request_id_of d))
                :: job_events self (tts e) (request_id_of d)
                ++ [Audio_generation_complete
                      (List.length (job_chunks self (tts e)))
                      (total_size (job_chunks self (tts e)))
                      (request_id_of d)]) st)).
Proof.
  intros Hsvc Ht Hcan. unfold handle_audio_only, try_, bind. rewrite Ht.
  cbn [negb]. cbv beta iota.
  rewrite send_can by (eapply can_send_le; [|exact Hcan]; lia).
  rewrite (stream_job_complete _ _ Hsvc).
  2:{ apply can_send_sent. simpl. eapply can_send_le; [|exact Hcan]. lia. }
  rewrite sent_app. reflexivity.
Qed.

(** C3, the claim as worded fails: with every provider failing the handler
    sends no [error] event at all, and it does send the completion event. *)
Lemma C3_all_providers_fail_without_error_event :
  new_events (new_session None Scenario.abnormal)
    (snd (handle_audio_only Scenario.sarvam_agent (Scenario.request "audio_only")
            (Scenario.env_of Scenario.all_fail)
            (new_session None Scenario.abnormal)))
  = [Audio_generation_started (Some "r1"); Audio_generation_complete 0 0 "r1"] /\
  ~ (count is_error
       (new_events (new_session None Scenario.abnormal)
          (snd (handle_audio_only Scenario.sarvam_agent
                  (Scenario.request "audio_only")
                  (Scenario.env_of Scenario.all_fail)
                  (new_session None Scenario.abnormal)))) = 1).
Proof. split; [reflexivity|]. intros H. vm_compute in H. discriminate H. Qed.

(** C3, amended: when every provider fails with zero bytes, an audio request
    on an open socket is answered by [audio_generation_started] and one
    [audio_generation_complete] with zero chunks and zero bytes; the client
    receives no [audio_chunk] and no [error] event, and the request is not
    counted as an error. *)
Theorem C3_all_providers_fail_gives_empty_completion
        (self : agent) (svc : AudioService.t) (d : data) (e : env) (st : session) :
  audio_service self = Some svc ->
  all_providers_fail svc (tts e) ->
  truthy_opt (d_text d) = true ->
  can_send st 2 ->
  fst (handle_audio_only self d e st) = Ok tt /\
  new_events st (snd (handle_audio_only self d e st))
  = [Audio_generation_started (Some (request_id_of d));
     Audio_generation_complete 0 0 (request_id_of d)] /\
  errors (conversation_metrics (snd (handle_audio_only self d e st)))
  = errors (conversation_metrics st).
Proof.
  intros Hsvc Hfail Ht Hcan.
  assert (Hnone : job_chunks self (tts e) = []).
  { unfold job_chunks, audio_stream. rewrite Hsvc.
    now apply all_providers_fail_no_audio. }
  rewrite (@handle_audio_only_open self d e st svc Hsvc Ht)
    by (rewrite Hnone; exact Hcan).
  unfold job_events. rewrite Hnone. simpl.
  split; [reflexivity|split; [|reflexivity]].
  unfold new_events. simpl. apply skipn_length_app.
Qed.

Lemma C3_all_providers_fail_gives_empty_completion_witness :
  new_events (new_session None Scenario.abnormal)
    (snd (handle_audio_only Scenario.elevenlabs_agent
            (Scenario.request "audio_only")
            (Scenario.env_of Scenario.undecodable_frame)
            (new_session None Scenario.abnormal)))
  = [Audio_generation_started (Some "r1"); Audio_generation_complete 0 0 "r1"].
Proof.
  refine (proj1 (proj2 (@C3_all_providers_fail_gives_empty_completion
            Scenario.elevenlabs_agent
            (AudioService.init "elevenlabs" (Some (ElevenLabsService.Make true)))
            (Scenario.request "audio_only")
            (Scenario.env_of Scenario.undecodable_frame)
            (new_session None Scenario.abnormal) eq_refl _ eq_refl I))).
  split; [repeat constructor|reflexivity].
Defined.

(* ================================================================== *)
(** * C2: the socket closes during a job *)
(* ================================================================== *)

Lemma number_chunks_audio (rid : string) (cs : list bytes) (n : nat) (f : bool) :
  Forall (fun ev => is_audio_chunk ev = true) (number_chunks rid cs n f).
Proof. revert n f. induction cs; simpl; constructor; auto. Qed.

Lemma no_complete_among_chunks (evs : list event) :
  Forall (fun ev => is_audio_chunk ev = true) evs ->
  existsb is_complete evs = false.
Proof.
  induction 1 as [|ev evs Hev _ IH]; [reflexivity|].
  simpl. rewrite IH. now destruct ev.
Qed.

Lemma Forall_firstn (A : Type) (P : A -> Prop) (n : nat) (l : list A) :
  Forall P l -> Forall P (firstn n l).
Proof.
  intros H. revert n. induction H; intros [|n]; simpl; constructor; auto.
Qed.

(** C2, the claim as worded fails: the socket closes abnormally (code 1006)
    after chunk 1 of 2; chunk 2 is not sent, but the handler counts the job in
    the [errors] metric, so it ends FAILED, not ABORTED. *)
Lemma C2_abnormal_closure_is_counted_as_error :
  new_events (new_session (Some 2) Scenario.abnormal)
    (snd (handle_audio_only Scenario.sarvam_agent (Scenario.request "audio_only")
            (Scenario.env_of Scenario.healthy)
            (new_session (Some 2) Scenario.abnormal)))
  = [Audio_generation_started (Some "r1"); Audio_chunk 1 Scenario.A 1 true "r1"] /\
  job_state_of (new_session (Some 2) Scenario.abnormal)
    (snd (handle_audio_only Scenario.sarvam_agent (Scenario.request "audio_only")
            (Scenario.env_of Scenario.healthy)
            (new_session (Some 2) Scenario.abnormal)))
  = FAILED.
Proof. split; reflexivity. Qed.

(** C2, amended: when the socket closes after the start event and [N] chunks
    of a job, exactly those [N] chunks are delivered, no later chunk and no
    completion event: the write of chunk [N+1] raises and the handler stops
    there (no connection check is called during a job).  The job ends ABORTED
    when the closure is a normal one ([ConnectionClosedOK], or code 1000 or
    1001) and is counted as an error, FAILED, when the closure is abnormal. *)
Theorem C2_closed_socket_stops_the_job
        (self : agent) (svc : AudioService.t) (d : data) (e : env)
        (st : session) (N : nat) :
  audio_service self = Some svc ->
  truthy_opt (d_text d) = true ->
  sends_left st = Some (S N) ->
  N <= List.length (job_chunks self (tts e)) ->
  new_events st (snd (handle_audio_only self d e st))
  = Audio_generation_started (Some (request_id_of d))
    :: firstn N (job_events self (tts e) (request_id_of d)) /\
  job_state_of st (snd (handle_audio_only self d e st))
  = if is_normal_closure (closure_exn (closing st)) then ABORTED else FAILED.
Proof.
  intros Hsvc Ht Hleft HN.
  assert (E : exists calls,
             handle_audio_only self d e st
             = update_metrics KAudio
                 (cut_short
                    (sent [Audio_generation_started (Some (request_id_of d))] st)
                    (firstn N (job_events self (tts e) (request_id_of d))) calls)).
  { unfold handle_audio_only, try_, bind. rewrite Ht.
    cbn [negb]. cbv beta iota.
    rewrite send_can by (unfold can_send; rewrite Hleft; lia).
    destruct (@stream_job_cut_short self (tts e) (request_id_of d)
                "Audio generation failed: "
                (sent [Audio_generation_started (Some (request_id_of d))] st)
                svc N Hsvc) as [calls Ejob]; [|exact HN|].
    { unfold sent. rewrite Hleft. simpl. now rewrite Nat.sub_0_r. }
    rewrite Ejob. now exists calls. }
  destruct E as [calls E]. rewrite E. clear E.
  assert (Hnew : new_events st
                   (snd (update_metrics KAudio
                      (cut_short
                         (sent [Audio_generation_started (Some (request_id_of d))] st)
                         (firstn N (job_events self (tts e) (request_id_of d)))
                         calls)))
                 = Audio_generation_started (Some (request_id_of d))
                   :: firstn N (job_events self (tts e) (request_id_of d))).
  { unfold new_events. simpl. rewrite <- app_assoc. apply skipn_length_app. }
  split; [exact Hnew|].
  unfold job_state_of. rewrite Hnew. simpl existsb.
  rewrite no_complete_among_chunks
    by (apply Forall_firstn, number_chunks_audio).
  simpl.
  destruct (is_normal_closure (closure_exn (closing st))).
  - now rewrite Nat.eqb_refl.
  - destruct (Nat.eqb_spec (errors (conversation_metrics st) + 1)
                           (errors (conversation_metrics st))); [lia|reflexivity].
Qed.

Lemma C2_closed_socket_stops_the_job_witness :
  new_events (new_session (Some 2) Scenario.going_away)
    (snd (handle_audio_only Scenario.sarvam_agent (Scenario.request "audio_only")
            (Scenario.env_of Scenario.healthy)
            (new_session (Some 2) Scenario.going_away)))
  = [Audio_generation_started (Some "r1"); Audio_chunk 1 Scenario.A 1 true "r1"] /\
  job_state_of (new_session (Some 2) Scenario.going_away)
    (snd (handle_audio_only Scenario.sarvam_agent (Scenario.request "audio_only")
            (Scenario.env_of Scenario.healthy)
            (new_session (Some 2) Scenario.going_away)))
  = ABORTED.
Proof.
  pose proof (@C2_closed_socket_stops_the_job
                Scenario.sarvam_agent (AudioService.init "sarvam" None)
                (Scenario.request "audio_only") (Scenario.env_of Scenario.healthy)
                (new_session (Some 2) Scenario.going_away) 1
                eq_refl eq_refl eq_refl (le_S 1 1 (le_n 1))) as [H1 H3].
  split; [exact H1|exact H3].
Defined.

(* ================================================================== *)
(** * C5: chunk numbering *)
(* ================================================================== *)

Lemma chunk_ids_app (a b : list event) :
  chunk_ids (a ++ b) = chunk_ids a ++ chunk_ids b.
Proof. apply flat_map_app. Qed.

Lemma first_chunk_flags_app (a b : list event) :
  first_chunk_flags (a ++ b) = first_chunk_flags a + first_chunk_flags b.
Proof. unfold first_chunk_flags, count. now rewrite filter_app, length_app. Qed.

Lemma chunk_ids_number_chunks (rid : string) (cs : list bytes) (n : nat) (f : bool) :
  chunk_ids (number_chunks rid cs n f) = seq (n + 1) (List.length cs).
Proof.
  revert n f. induction cs as [|c cs IH]; intros n f; simpl; [reflexivity|].
  rewrite IH. now rewrite (Nat.add_1_r (n + 1)).
Qed.

Lemma first_chunk_flags_number_chunks (rid : string) (cs : list bytes) (n : nat)
      (f : bool) :
  first_chunk_flags (number_chunks rid cs n f)
  = if f then 0 else match cs with [] => 0 | _ => 1 end.
Proof.
  revert n f. induction cs as [|c cs IH]; intros n f; [now destruct f|].
  unfold first_chunk_flags, count in *. simpl.
  destruct f; simpl; now rewrite IH.
Qed.

Lemma complete_not_chunk (evs : list event) (n sz : nat) (rid : string) :
  Forall (fun ev => is_audio_chunk ev = true) evs ->
  ~ In (Audio_generation_complete n sz rid) evs.
Proof.
  intros H Hin. rewrite Forall_forall in H. specialize (H _ Hin). discriminate H.
Qed.

(** C5, the claim as worded fails: a job whose provider stream finishes without
    audio is successful (the completion event is sent, with zero chunks), and
    [is_first_chunk] is true for no event at all. *)
Lemma C5_successful_job_without_first_chunk :
  new_events (new_session None Scenario.abnormal)
    (snd (handle_audio_only Scenario.sarvam_agent (Scenario.request "audio_only")
            (Scenario.env_of Scenario.silent)
            (new_session None Scenario.abnormal)))
  = [Audio_generation_started (Some "r1"); Audio_generation_complete 0 0 "r1"] /\
  ~ (first_chunk_flags
       (new_events (new_session None Scenario.abnormal)
          (snd (handle_audio_only Scenario.sarvam_agent
                  (Scenario.request "audio_only")
                  (Scenario.env_of Scenario.silent)
                  (new_session None Scenario.abnormal)))) = 1).
Proof. split; [reflexivity|]. intros H. vm_compute in H. discriminate H. Qed.

(** C5, amended: in every StreamJob that ends with its completion event, which
    reports [n] chunks, the [chunk_id]s delivered are 1, 2, ..., [n] in this
    order, and [is_first_chunk] is true exactly once when [n] is at least 1
    and never when the job has delivered no chunk. *)
Theorem C5_chunk_ids_are_contiguous
        (self : agent) (w : providers) (rid prefix : string) (st : session)
        (n sz : nat) :
  In (Audio_generation_complete n sz rid)
     (new_events st (snd (stream_job self w rid prefix st))) ->
  chunk_ids (new_events st (snd (stream_job self w rid prefix st))) = seq 1 n /\
  first_chunk_flags (new_events st (snd (stream_job self w rid prefix st)))
  = (if n =? 0 then 0 else 1).
Proof.
  destruct (audio_service self) as [svc|] eqn:Hsvc.
  - assert (Hcases : can_send st (List.length (job_chunks self w) + 1) \/
                     exists b, sends_left st = Some b /\
                               b <= List.length (job_chunks self w)).
    { unfold can_send. destruct (sends_left st) as [b|]; [|now left].
      destruct (le_lt_dec (List.length (job_chunks self w) + 1) b);
        [now left|right; exists b; split; [reflexivity|lia]]. }
    destruct Hcases as [Hcan | [b [Hb Hle]]].
    + rewrite (@stream_job_complete self w rid prefix st svc Hsvc Hcan).
      cbn [snd]. rewrite new_events_called_sent. intros Hin.
      apply in_app_or in Hin. destruct Hin as [Hin | [Hin | []]].
      { exfalso. revert Hin. apply complete_not_chunk, number_chunks_audio. }
      injection Hin as <- _.
      rewrite chunk_ids_app, first_chunk_flags_app. unfold job_events.
      rewrite chunk_ids_number_chunks, first_chunk_flags_number_chunks.
      simpl. rewrite app_nil_r, Nat.add_0_r. split; [reflexivity|].
      now destruct (job_chunks self w).
    + destruct (@stream_job_cut_short self w rid prefix st svc b Hsvc Hb Hle)
        as [calls E].
      rewrite E. cbn [snd]. unfold new_events, cut_short. cbn [delivered].
      rewrite skipn_length_app. intros Hin. exfalso. revert Hin.
      apply complete_not_chunk, Forall_firstn, number_chunks_audio.
  - intros Hin. exfalso. revert Hin.
    unfold stream_job, audio_stream. rewrite Hsvc.
    unfold new_events. destruct st as [dl [[|k]|] c mc m lang p]; cbn;
      rewrite ?isinstance_closure_exn; cbn;
      rewrite ?skipn_length_app, ?skipn_all; cbn; intuition discriminate.
Qed.

Lemma C5_chunk_ids_are_contiguous_witness :
  chunk_ids
    (new_events (new_session None Scenario.abnormal)
       (snd (stream_job Scenario.sarvam_agent Scenario.healthy "r1" "x"
               (new_session None Scenario.abnormal))))
  = [1; 2] /\
  first_chunk_flags
    (new_events (new_session None Scenario.abnormal)
       (snd (stream_job Scenario.sarvam_agent Scenario.healthy "r1" "x"
               (new_session None Scenario.abnormal))))
  = 1.
Proof.
  apply (@C5_chunk_ids_are_contiguous Scenario.sarvam_agent Scenario.healthy
           "r1" "x" (new_session None Scenario.abnormal) 2 3).
  vm_compute. right. right. left. reflexivity.
Defined.

(* ================================================================== *)
(** * The except clauses of the message loop *)
(* ================================================================== *)

Lemma recv_open (st : session) :
  sends_left st <> Some 0 -> recv st = (Ok tt, st).
Proof. unfold recv. destruct (sends_left st) as [[|k]|]; congruence. Qed.

(** The [except Exception] clause of the loop, for any handler: an exception
    other than the closure of the client's socket is answered by one error
    event that carries its text, and the turn goes on to the next message. *)
Lemma loop_turn_reports_exception
      (dispatch : string -> data -> env -> M unit) (d : data) (e : env)
      (st st1 : session) (x : exn) :
  sends_left st <> Some 0 ->
  truthy_opt (d_type d) = true ->
  dispatch (get_or (d_type d) EmptyString) d e st = (Raise x, st1) ->
  isinstance_ConnectionClosed x = false ->
  can_send st1 1 ->
  loop_turn dispatch (Request d e) st = (Ok Continue, sent [loop_error x] st1).
Proof.
  intros Hopen Ht Hraise Hx Hcan.
  unfold loop_turn, try_, bind.
  rewrite recv_open by assumption. rewrite Ht. cbn [negb]. cbv beta iota.
  rewrite Hraise. cbv beta iota. rewrite Hx.
  destruct x; try discriminate Hx; unfold loop_error, except_ConnectionClosed,
    try_, bind; rewrite send_can by assumption; reflexivity.
Qed.

(** The same clause reports a payload that is JSON but no object. *)
Lemma loop_reports_bad_payload (self : agent) (err : string)
      (rest : list inbound) (st : session) :
  sends_left st <> Some 0 -> can_send st 1 ->
  message_loop (route self) (NotObject err :: rest) st
  = message_loop (route self) rest
      (sent [Error ("Message processing error: " ++ err)%string] st).
Proof.
  intros Hopen Hcan. simpl message_loop. unfold bind at 1.
  unfold loop_turn, try_, bind. rewrite recv_open by assumption.
  cbv beta iota. unfold raise. cbn [isinstance_ConnectionClosed].
  unfold except_ConnectionClosed, try_, bind.
  rewrite send_can by assumption. reflexivity.
Qed.

(** A closure raised inside a handler ends the loop: the socket is gone. *)
Lemma loop_ends_on_closure
      (dispatch : string -> data -> env -> M unit) (d : data) (e : env)
      (rest : list inbound) (st st1 : session) (x : exn) :
  sends_left st <> Some 0 ->
  truthy_opt (d_type d) = true ->
  dispatch (get_or (d_type d) EmptyString) d e st = (Raise x, st1) ->
  isinstance_ConnectionClosed x = true ->
  message_loop dispatch (Request d e :: rest) st
  = (Ok tt, if is_normal_closure x then st1 else snd (count_error st1)).
Proof.
  intros Hopen Ht Hraise Hx.
  simpl message_loop. unfold bind at 1. unfold loop_turn, try_, bind.
  rewrite recv_open by assumption. rewrite Ht. cbn [negb]. cbv beta iota.
  rewrite Hraise. cbv beta iota. rewrite Hx.
  now destruct (is_normal_closure x).
Qed.

(* ================================================================== *)
(** * C8: collaborator timeouts *)
(* ================================================================== *)

(** Runs the monadic code of a handler on an explicit session. *)
Ltac run_m :=
  cbv beta iota zeta delta
      [try_ bind ret raise get modify send recv set_delivered set_metrics
       set_language log_call count_error update_metrics send_guarded
       except_ConnectionClosed handle_ping delivered sends_left closing
       message_count conversation_metrics current_language provider_calls
       total_requests chat_requests audio_requests teaching_requests errors
       negb fst snd new_events].

(** C8: when the chat collaborator (resp. the STT collaborator) exceeds its
    timeout, the handler answers on an open socket with its acknowledgement
    and one error event that names the timeout, and nothing else: no
    [audio_generation_started], no [audio_chunk], no provider request, no
    change of the counters.  Whatever the state of the socket, no event of a
    StreamJob is written and no provider is called. *)
Theorem C8_timeout_starts_no_stream_job
        (self : agent) (svc : AudioService.t) (d : data) (e : env) (st : session) :
  audio_service self = Some svc ->
  (chat_available self = true ->
   truthy_opt (d_message d) = true ->
   chat_outcome e = Raise TimeoutError ->
   (can_send st 2 ->
    handle_chat_with_audio self d e st
    = (Ok tt,
       sent [Processing_started (request_id_of d);
             Error "Response generation timeout - please try again"] st)) /\
   Forall (fun ev => is_stream_event ev = false)
          (new_events st (snd (handle_chat_with_audio self d e st))) /\
   provider_calls (snd (handle_chat_with_audio self d e st)) = provider_calls st)
  /\
  (truthy_opt (d_audio_data d) = true ->
   decode_outcome e = None ->
   stt_outcome e = Raise TimeoutError ->
   (can_send st 2 ->
    handle_transcribe_audio self d e st
    = (Ok tt,
       sent [Transcription_started (request_id_of d);
             Error "Transcription timeout"] st)) /\
   Forall (fun ev => is_stream_event ev = false)
          (new_events st (snd (handle_transcribe_audio self d e st))) /\
   provider_calls (snd (handle_transcribe_audio self d e st)) = provider_calls st).
Proof.
  intros Hsvc. split.
  - intros Hchat Hmsg Hout.
    unfold handle_chat_with_audio, audio_available.
    rewrite Hchat, Hsvc, Hmsg, Hout.
    destruct st as [dl [[|[|k]]|] c mc m lang p]; unfold can_send, sent;
      run_m; rewrite ?isinstance_closure_exn; run_m;
      try (destruct (is_normal_closure (closure_exn c)); run_m);
      rewrite ?skipn_all; rewrite <- ?app_assoc; rewrite ?skipn_length_app;
      (split; [intros; try lia; simpl; rewrite ?Nat.sub_0_r; f_equal; f_equal;
                 try lia; try reflexivity|]);
      (split; [repeat constructor|reflexivity]).
  - intros Haudio Hdec Hout.
    unfold handle_transcribe_audio.
    rewrite Hsvc, Haudio, Hdec, Hout.
    destruct st as [dl [[|[|k]]|] c mc m lang p]; unfold can_send, sent;
      run_m; rewrite ?isinstance_closure_exn; run_m;
      rewrite ?skipn_all; rewrite <- ?app_assoc; rewrite ?skipn_length_app;
      (split; [intros; try lia; simpl; rewrite ?Nat.sub_0_r; f_equal; f_equal;
                 try lia; try reflexivity|]);
      (split; [repeat constructor|reflexivity]).
Qed.

Lemma C8_timeout_starts_no_stream_job_witness :
  handle_chat_with_audio Scenario.sarvam_agent (Scenario.request "chat_with_audio")
    Scenario.timeout_env (new_session None Scenario.going_away)
  = (Ok tt,
     sent [Processing_started "r1";
           Error "Response generation timeout - please try again"]
          (new_session None Scenario.going_away)) /\
  handle_transcribe_audio Scenario.sarvam_agent
    (Scenario.request "transcribe_audio") Scenario.timeout_env
    (new_session None Scenario.going_away)
  = (Ok tt,
     sent [Transcription_started "r1"; Error "Transcription timeout"]
          (new_session None Scenario.going_away)).
Proof.
  pose proof (@C8_timeout_starts_no_stream_job
                Scenario.sarvam_agent (AudioService.init "sarvam" None)
                (Scenario.request "chat_with_audio") Scenario.timeout_env
                (new_session None Scenario.going_away) eq_refl) as [Hc _].
  pose proof (@C8_timeout_starts_no_stream_job
                Scenario.sarvam_agent (AudioService.init "sarvam" None)
                (Scenario.request "transcribe_audio") Scenario.timeout_env
                (new_session None Scenario.going_away) eq_refl) as [_ Ht].
  split.
  - exact (proj1 (Hc eq_refl eq_refl eq_refl) I).
  - exact (proj1 (Ht eq_refl eq_refl eq_refl) I).
Defined.

(* ================================================================== *)
(** * C10: no empty audio chunk *)
(* ================================================================== *)

Lemma keeps_ret (A : Type) (a : A) : keeps (ret a).
Proof. intros st H. exact H. Qed.

Lemma keeps_raise (A : Type) (e : exn) : keeps (@raise A e).
Proof. intros st H. exact H. Qed.

Lemma keeps_get : keeps get.
Proof. intros st H. exact H. Qed.

Lemma keeps_bind (A B : Type) (m : M A) (k : A -> M B) :
  keeps m -> (forall a, keeps (k a)) -> keeps (bind m k).
Proof.
  intros Hm Hk st H. unfold bind. specialize (Hm st H).
  destruct (m st) as [[a|e] st']; simpl in *; [now apply Hk|exact Hm].
Qed.

Lemma keeps_try (A : Type) (m : M A) (h : exn -> M A) :
  keeps m -> (forall e, keeps (h e)) -> keeps (try_ m h).
Proof.
  intros Hm Hh st H. unfold try_. specialize (Hm st H).
  destruct (m st) as [[a|e] st']; simpl in *; [exact Hm|now apply Hh].
Qed.

Lemma keeps_modify (f : session -> session) :
  (forall st, delivered (f st) = delivered st) -> keeps (modify f).
Proof. intros Hf st H. unfold chunks_ok, modify. simpl. now rewrite Hf. Qed.

Lemma keeps_send (ev : event) : chunk_ok ev -> keeps (send ev).
Proof.
  intros Hev st H. unfold chunks_ok, send in *.
  destruct (sends_left st) as [[|k]|]; simpl; auto;
    apply Forall_app; split; auto.
Qed.

Lemma nonempty_length (c : bytes) : nonempty c = true -> 1 <= List.length c.
Proof. destruct c; simpl; [discriminate|lia]. Qed.

Lemma keeps_forward_chunk (rid : string) (c : bytes) (locals : nat * nat * bool) :
  keeps (forward_chunk rid c locals).
Proof.
  unfold forward_chunk. destruct locals as [[n sz] f].
  destruct (nonempty c) eqn:Ec; [|apply keeps_ret].
  apply keeps_bind; [|intros; apply keeps_ret].
  apply keeps_send. simpl. split; [reflexivity|now apply nonempty_length].
Qed.

Lemma keeps_drive (S : Type) (g : gen) (body : bytes -> S -> M S) :
  (forall c s, keeps (body c s)) -> forall s, keeps (drive g body s).
Proof.
  intros Hbody. induction g as [|e|c k IH|p k IH]; intros s; simpl.
  - apply keeps_ret.
  - apply keeps_raise.
  - apply keeps_bind; [apply Hbody|exact IH].
  - apply keeps_bind; [now apply keeps_modify|intros; apply IH].
Qed.

Ltac keeps_step :=
  match goal with
  | |- keeps (bind _ _) => apply keeps_bind; [|intros]
  | |- keeps (try_ _ _) => apply keeps_try; [|intros]
  | |- keeps (ret _) => apply keeps_ret
  | |- keeps (raise _) => apply keeps_raise
  | |- keeps get => apply keeps_get
  | |- keeps (send _) => apply keeps_send; exact I
  | |- keeps (modify _) => apply keeps_modify; reflexivity
  | |- keeps (drive _ _ _) => apply keeps_drive; intros; apply keeps_forward_chunk
  | |- keeps (if ?b then _ else _) => destruct b
  | |- keeps (match ?x with _ => _ end) => destruct x
  end.

Ltac keeps_all unfolds := intros; unfolds; repeat keeps_step.

Lemma keeps_stream_job (self : agent) (w : providers) (rid prefix : string) :
  keeps (stream_job self w rid prefix).
Proof.
  unfold stream_job, except_ConnectionClosed, count_error. repeat keeps_step.
Qed.

Lemma keeps_route (self : agent) (t : string) (d : data) (e : env) :
  keeps (route self t d e).
Proof.
  pose proof (keeps_stream_job self) as Hjob.
  unfold route, handle_ping, handle_chat_with_audio, handle_start_class,
    handle_audio_only, handle_transcribe_audio, handle_set_language,
    handle_get_metrics, send_guarded, except_ConnectionClosed, count_error,
    update_metrics, _create_simple_teaching_content, not_found_error,
    teaching_content_event.
  repeat first [apply Hjob | keeps_step].
Qed.

Lemma keeps_message_loop (dispatch : string -> data -> env -> M unit)
      (inbox : list inbound) :
  (forall t d e, keeps (dispatch t d e)) -> keeps (message_loop dispatch inbox).
Proof.
  intros Hd. induction inbox as [|m inbox IH]; simpl.
  - unfold count_error. repeat keeps_step.
  - apply keeps_bind; [|intros []; [exact IH|apply keeps_ret]].
    unfold loop_turn, recv, except_ConnectionClosed, count_error.
    apply keeps_try.
    + apply keeps_bind; [intros st H; now destruct (sends_left st) as [[|?]|]|].
      intros _. repeat first [apply Hd | keeps_step].
    + intros. repeat keeps_step.
Qed.

(** C10: whatever the client sends and the providers do, every [audio_chunk]
    event written during a session has a payload of at least one byte, with
    [size] its length; an empty provider result is dropped by the loop body:
    nothing is written and the locals, among them the chunk counter, stay as
    they are. *)
Theorem C10_no_empty_audio_chunk
        (self : agent) (inbox : list inbound) (st : session)
        (rid : string) (c : bytes) (locals : nat * nat * bool) :
  Forall chunk_ok (delivered st) ->
  nonempty c = false ->
  Forall chunk_ok (delivered (snd (process_messages self inbox st))) /\
  forward_chunk rid c locals st = (Ok locals, st) /\
  gen_yields (gen_forward_nonempty (Yield c Done)) = [].
Proof.
  intros Hst Hc. split; [|split].
  - revert st Hst. change (keeps (process_messages self inbox)).
    unfold process_messages. apply keeps_try; [|intros; apply keeps_ret].
    apply keeps_bind; [apply keeps_send; exact I|intros _].
    apply keeps_message_loop. apply keeps_route.
  - now apply forward_chunk_empty.
  - simpl. now rewrite Hc.
Qed.

Lemma C10_no_empty_audio_chunk_witness :
  Forall chunk_ok
    (delivered
       (snd (process_messages Scenario.sarvam_agent
               [Request (Scenario.request "audio_only")
                        (Scenario.env_of Scenario.healthy)]
               (new_session None Scenario.going_away)))) /\
  forward_chunk "r1" [] (3, 7, true) (new_session None Scenario.going_away)
  = (Ok (3, 7, true), new_session None Scenario.going_away).
Proof.
  pose proof (@C10_no_empty_audio_chunk Scenario.sarvam_agent
                [Request (Scenario.request "audio_only")
                         (Scenario.env_of Scenario.healthy)]
                (new_session None Scenario.going_away) "r1" [] (3, 7, true)
                (Forall_nil _) eq_refl) as [H1 [H2 _]].
  split; [exact H1|exact H2].
Defined.

(* ================================================================== *)
(** * C9: what the counters count *)
(* ================================================================== *)

Lemma accounted_refl (st : session) : sends_left st = None -> accounted st st.
Proof.
  intros H. split; [exact H|]. exists []. rewrite app_nil_r. simpl.
  unfold count. simpl. now rewrite !Nat.add_0_r.
Qed.

Lemma count_app (f : event -> bool) (a b : list event) :
  count f (a ++ b) = count f a + count f b.
Proof. unfold count. now rewrite filter_app, length_app. Qed.

Lemma accounted_trans (st1 st2 st3 : session) :
  accounted st1 st2 -> accounted st2 st3 -> accounted st1 st3.
Proof.
  intros [_ [e1 [D1 [T1 E1]]]] [H [e2 [D2 [T2 E2]]]]. split; [exact H|].
  exists (e1 ++ e2). rewrite D2, D1, T2, T1, E2, E1, !count_app, <- app_assoc.
  repeat split; lia.
Qed.

Lemma stream_job_open (self : agent) (w : providers) (rid prefix : string)
      (st : session) :
  sends_left st = None ->
  stream_job self w rid prefix st = (Ok true, job_result self w rid prefix st).
Proof.
  intros Hopen. unfold job_result, job_writes.
  destruct (audio_service self) as [svc|] eqn:Hsvc.
  - apply (@stream_job_complete self w rid prefix st svc Hsvc).
    unfold can_send. now rewrite Hopen.
  - unfold stream_job, audio_stream. rewrite Hsvc.
    destruct st as [dl l c mc m lang p]. simpl in Hopen. subst l.
    reflexivity.
Qed.

Lemma count_chunks (f : event -> bool) (evs : list event) :
  (forall ev, is_audio_chunk ev = true -> f ev = false) ->
  Forall (fun ev => is_audio_chunk ev = true) evs -> count f evs = 0.
Proof.
  intros Hf. induction 1 as [|ev evs Hev _ IH]; [reflexivity|].
  unfold count in *. simpl. now rewrite (Hf _ Hev).
Qed.

Lemma job_writes_started (self : agent) (w : providers) (rid prefix : string) :
  count is_started (job_writes self w rid prefix) = 0.
Proof.
  unfold job_writes. destruct (audio_service self); [|reflexivity].
  rewrite count_app, (@count_chunks is_started); [reflexivity| |].
  - now intros [].
  - apply number_chunks_audio.
Qed.

Lemma job_writes_reports (self : agent) (w : providers) (rid prefix : string) :
  In prefix exception_reports ->
  count is_exception_report (job_writes self w rid prefix)
  = match audio_service self with Some _ => 0 | None => 1 end.
Proof.
  intros Hp. unfold job_writes. destruct (audio_service self).
  - rewrite count_app, (@count_chunks is_exception_report); [reflexivity| |].
    + now intros [].
    + apply number_chunks_audio.
  - simpl in Hp.
    repeat (destruct Hp as [<-|Hp]; [reflexivity|]). contradiction.
Qed.

Lemma job_result_fields (self : agent) (w : providers) (rid prefix : string)
      (st : session) :
  sends_left st = None ->
  sends_left (job_result self w rid prefix st) = None /\
  delivered (job_result self w rid prefix st)
  = delivered st ++ job_writes self w rid prefix /\
  total_requests (conversation_metrics (job_result self w rid prefix st))
  = total_requests (conversation_metrics st) /\
  errors (conversation_metrics (job_result self w rid prefix st))
  = errors (conversation_metrics st)
    + match audio_service self with Some _ => 0 | None => 1 end.
Proof.
  intros Hopen. unfold job_result.
  destruct (audio_service self); unfold called, sent; simpl; rewrite Hopen;
    repeat split; lia.
Qed.

(** The audio part of the three handlers, on an open socket: the start event,
    the job, the counters. *)
Lemma audio_phase_accounted (self : agent) (w : providers) (rid prefix : string)
      (started : option string) (k : request_kind) (st : session) :
  sends_left st = None ->
  In prefix exception_reports ->
  exists st',
    (send (Audio_generation_started started) ;;
     go_on <- stream_job self w rid prefix ;;
     if go_on then update_metrics k else ret tt) st = (Ok tt, st') /\
    accounted st st'.
Proof.
  intros Hopen Hp. unfold bind at 1.
  rewrite send_can by (unfold can_send; now rewrite Hopen).
  unfold bind.
  rewrite stream_job_open by (unfold sent; simpl; now rewrite Hopen).
  eexists. split; [reflexivity|].
  destruct (@job_result_fields self w rid prefix
              (sent [Audio_generation_started started] st))
    as [J1 [J2 [J3 J4]]]; [unfold sent; simpl; now rewrite Hopen|].
  split; [exact J1|].
  exists (Audio_generation_started started :: job_writes self w rid prefix).
  simpl. rewrite J2, J3, J4. unfold sent. simpl.
  change (Audio_generation_started started :: job_writes self w rid prefix)
    with ([Audio_generation_started started] ++ job_writes self w rid prefix).
  rewrite !count_app, job_writes_started, job_writes_reports by assumption.
  rewrite <- app_assoc. simpl. unfold count. simpl.
  repeat split; destruct (audio_service self); lia.
Qed.

Lemma tallied_ret (A : Type) (P : exn -> Prop) (a : A) : tallied P (ret a).
Proof. intros st H. split; [now apply accounted_refl|discriminate]. Qed.

Lemma tallied_raise (A : Type) (P : exn -> Prop) (e : exn) :
  P e -> tallied P (@raise A e).
Proof.
  intros He st H. split; [now apply accounted_refl|].
  simpl. now intros x [= <-].
Qed.

Lemma tallied_get (P : exn -> Prop) : tallied P get.
Proof. intros st H. split; [now apply accounted_refl|discriminate]. Qed.

Lemma tallied_bind (A B : Type) (P : exn -> Prop) (m : M A) (k : A -> M B) :
  tallied P m -> (forall a, tallied P (k a)) -> tallied P (bind m k).
Proof.
  intros Hm Hk st H. unfold bind. destruct (Hm st H) as [Ha Hr].
  destruct (m st) as [[a|e] st1]; simpl in *.
  - destruct (Hk a st1 (proj1 Ha)) as [Ha' Hr']. split; [|exact Hr'].
    eapply accounted_trans; eassumption.
  - split; [exact Ha|]. intros x [= <-]. now apply Hr.
Qed.

Lemma tallied_try (A : Type) (Q P : exn -> Prop) (m : M A) (h : exn -> M A) :
  tallied Q m -> (forall e, Q e -> tallied P (h e)) -> tallied P (try_ m h).
Proof.
  intros Hm Hh st H. unfold try_. destruct (Hm st H) as [Ha Hr].
  destruct (m st) as [[a|e] st1]; simpl in *.
  - split; [exact Ha|discriminate].
  - destruct (Hh e (Hr e eq_refl) st1 (proj1 Ha)) as [Ha' Hr'].
    split; [|exact Hr']. eapply accounted_trans; eassumption.
Qed.

Lemma tallied_send (P : exn -> Prop) (ev : event) :
  is_started ev = false -> is_exception_report ev = false ->
  tallied P (send ev).
Proof.
  intros H1 H2 st H. rewrite send_can by (unfold can_send; now rewrite H).
  split; [|discriminate]. unfold sent. simpl. split; [now rewrite H|].
  exists [ev]. unfold count. simpl. rewrite H1, H2. simpl.
  now rewrite !Nat.add_0_r.
Qed.

Lemma tallied_modify (P : exn -> Prop) (f : session -> session) :
  (forall st, sends_left (f st) = sends_left st /\
              delivered (f st) = delivered st /\
              total_requests (conversation_metrics (f st))
              = total_requests (conversation_metrics st) /\
              errors (conversation_metrics (f st))
              = errors (conversation_metrics st)) ->
  tallied P (modify f).
Proof.
  intros Hf st H. destruct (Hf st) as [F1 [F2 [F3 F4]]].
  split; [|discriminate]. simpl. split; [now rewrite F1|].
  exists []. unfold count. simpl. rewrite app_nil_r, !Nat.add_0_r. auto.
Qed.

Lemma tallied_audio_phase (P : exn -> Prop) (self : agent) (w : providers)
      (rid prefix : string) (started : option string) (k : request_kind) :
  In prefix exception_reports ->
  tallied P (send (Audio_generation_started started) ;;
             go_on <- stream_job self w rid prefix ;;
             if go_on then update_metrics k else ret tt).
Proof.
  intros Hp st H.
  destruct (@audio_phase_accounted self w rid prefix started k st H Hp)
    as [st' [E Ha]].
  rewrite E. split; [exact Ha|discriminate].
Qed.

Lemma prefix_append (p s : string) : String.prefix p (p ++ s) = true.
Proof.
  induction p as [|c p IH]; simpl; [now destruct s|].
  destruct (ascii_dec c c); [exact IH|contradiction].
Qed.

Lemma report_prefixed (p s : string) :
  In p exception_reports -> is_exception_report (Error (p ++ s)) = true.
Proof.
  intros Hp. unfold is_exception_report. apply existsb_exists.
  exists p. split; [exact Hp|apply prefix_append].
Qed.

(** An exception report: the counter and the event together. *)
Lemma tallied_report (P : exn -> Prop) (msg : string) (h : exn -> M unit) :
  is_exception_report (Error msg) = true ->
  tallied P (count_error ;; try_ (send (Error msg)) h).
Proof.
  intros Hr st H. unfold bind, count_error, modify, try_.
  rewrite send_can by (unfold can_send; simpl; now rewrite H).
  split; [|discriminate]. unfold sent. simpl. split; [now rewrite H|].
  exists [Error msg]. unfold count. cbn [filter]. rewrite Hr.
  simpl. repeat split; lia.
Qed.

Lemma tallied_report_plain (P : exn -> Prop) (msg : string) :
  is_exception_report (Error msg) = true ->
  tallied P (count_error ;; send (Error msg)).
Proof.
  intros Hr st H.
  destruct (@tallied_report P msg (fun e => raise e) Hr st H) as [Ha Hx].
  unfold bind, try_ in *.
  destruct (count_error st) as [[[]|e] st1]; [|exact (conj Ha Hx)].
  destruct (send (Error msg) st1) as [[[]|e] st2]; exact (conj Ha Hx).
Qed.

Lemma tallied_if_closure (A : Type) (P : exn -> Prop) (e : exn) (a b : M A) :
  not_closure e -> tallied P b ->
  tallied P (if isinstance_ConnectionClosed e then a else b).
Proof. unfold not_closure. now intros ->. Qed.

Ltac tally :=
  lazymatch goal with
  | |- tallied _ (ret _) => apply tallied_ret
  | |- tallied _ (raise _) =>
      apply tallied_raise; first [exact I | reflexivity | assumption]
  | |- tallied _ get => apply tallied_get
  | |- tallied _ (bind (send (Audio_generation_started _)) _) =>
      apply tallied_audio_phase; simpl; tauto
  | |- tallied _ (bind count_error (fun _ => try_ (send (Error _)) _)) =>
      apply tallied_report; apply report_prefixed; simpl; tauto
  | |- tallied _ (bind count_error (fun _ => send (Error _))) =>
      apply tallied_report_plain; apply report_prefixed; simpl; tauto
  | |- tallied _ (bind _ _) => apply tallied_bind; [tally|intros; tally]
  | |- tallied _ (try_ _ _) =>
      first [ solve [apply (@tallied_try _ (fun _ => True)); [tally|intros; tally]]
            | solve [apply (@tallied_try _ not_closure); [tally|intros; tally]] ]
  | |- tallied _ (send _) => apply tallied_send; reflexivity
  | |- tallied _ (modify _) => apply tallied_modify; intros; repeat split
  | H : not_closure ?e |- tallied _ (if isinstance_ConnectionClosed ?e then _ else _) =>
      apply (tallied_if_closure _ H); tally
  | |- tallied _ (if ?b then _ else _) => destruct b; tally
  | |- tallied _ (match ?x with _ => _ end) => destruct x; tally
  end.

Lemma tallied_route (self : agent) (t : string) (d : data) (e : env) :
  tallied not_closure (route self t d e).
Proof.
  unfold route, handle_ping, handle_chat_with_audio, handle_start_class,
    handle_audio_only, handle_transcribe_audio, handle_set_language,
    handle_get_metrics, send_guarded, except_ConnectionClosed,
    _create_simple_teaching_content, not_found_error, teaching_content_event.
  tally.
Qed.

(** One turn of the loop on an open socket goes on to the next message. *)
Lemma loop_turn_open (self : agent) (m : inbound) (st : session) :
  sends_left st = None ->
  exists st',
    loop_turn (route self) m st = (Ok Continue, st') /\ accounted st st'.
Proof.
  intros Hopen.
  assert (Hquiet : forall msg st1,
             sends_left st1 = None ->
             is_exception_report (Error msg) = false ->
             accounted st st1 ->
             accounted st (sent [Error msg] st1)).
  { intros msg st1 H1 Hq Ha. eapply accounted_trans; [exact Ha|].
    destruct (@tallied_send (fun _ => True) (Error msg) eq_refl Hq st1 H1)
      as [Hs _].
    now rewrite send_can in Hs by (unfold can_send; now rewrite H1). }
  unfold loop_turn, try_. unfold bind at 1.
  rewrite recv_open by (rewrite Hopen; discriminate).
  destruct m as [err|err|d e].
  - unfold raise. cbn [isinstance_ConnectionClosed]. unfold bind.
    rewrite send_can by (unfold can_send; now rewrite Hopen).
    eexists. split; [reflexivity|].
    apply Hquiet; [exact Hopen|reflexivity|now apply accounted_refl].
  - unfold raise. cbn [isinstance_ConnectionClosed].
    unfold except_ConnectionClosed, try_, bind.
    rewrite send_can by (unfold can_send; now rewrite Hopen).
    eexists. split; [reflexivity|].
    apply Hquiet; [exact Hopen|reflexivity|now apply accounted_refl].
  - destruct (negb (truthy_opt (d_type d))).
    + unfold bind. rewrite send_can by (unfold can_send; now rewrite Hopen).
      eexists. split; [reflexivity|].
      apply Hquiet; [exact Hopen|reflexivity|now apply accounted_refl].
    + unfold bind.
      destruct (@tallied_route self (get_or (d_type d) EmptyString) d e st Hopen)
        as [Ha Hx].
      destruct (route self (get_or (d_type d) EmptyString) d e st) as [[[]|x] st1];
        simpl in Ha, Hx.
      * eexists. split; [reflexivity|exact Ha].
      * specialize (Hx x eq_refl). unfold not_closure in Hx. rewrite Hx.
        destruct Ha as [H1 Ha0]. pose proof (conj H1 Ha0) as Ha.
        destruct x; try discriminate Hx;
          unfold except_ConnectionClosed, try_, bind;
          rewrite send_can by (unfold can_send; now rewrite H1);
          (eexists; split; [reflexivity|]);
          (apply Hquiet; [exact H1|reflexivity|exact Ha]).
Qed.

(** The loop on an open socket serves every message in turn. *)
Lemma message_loop_open (self : agent) (msgs rest : list inbound) :
  forall st, sends_left st = None ->
    exists st',
      message_loop (route self) (msgs ++ rest) st
      = message_loop (route self) rest st' /\
      accounted st st'.
Proof.
  induction msgs as [|m msgs IH]; intros st Hopen.
  - exists st. split; [reflexivity|now apply accounted_refl].
  - destruct (loop_turn_open self m Hopen) as [st1 [E1 A1]].
    destruct (IH st1 (proj1 A1)) as [st2 [E2 A2]].
    exists st2. split; [|eapply accounted_trans; eassumption].
    simpl. unfold bind at 1. rewrite E1. exact E2.
Qed.

(** C9, the claim as worded fails: an [audio_only] request without text is
    answered with an error event, yet the [get_metrics] that follows reports
    zero errors (and zero requests): the reported error counter is not the
    number of requests that ended in an error. *)
Lemma C9_rejected_request_is_not_counted :
  delivered
    (snd (process_messages Scenario.sarvam_agent
            [Request Scenario.audio_only_without_text
                     (Scenario.env_of Scenario.healthy);
             Request (Scenario.request "get_metrics")
                     (Scenario.env_of Scenario.healthy)]
            (new_session None Scenario.going_away)))
  = [Connection_ready true true true;
     Error "Text is required";
     Metrics_response (Metrics 0 0 0 0 0) "en-IN" 2 "r1"] /\
  ~ (errors (Metrics 0 0 0 0 0)
     = count is_error [Connection_ready true true true; Error "Text is required"]).
Proof. split; [reflexivity|]. intros H. vm_compute in H. discriminate H. Qed.

(** C9, amended: on a session whose socket stays open, [get_metrics] replies
    with the counters as they are stored at that moment, and after any
    sequence of messages these are: [total_requests], the number of
    [audio_generation_started] events sent so far, that is the
    [chat_with_audio], [start_class] and [audio_only] requests that reached
    their audio block; [errors], the number of exception reports sent so far
    ("... audio generation failed: ...", "... processing failed: ...").  A
    request answered otherwise, also with an error event for a missing field,
    an unavailable service, a timeout or a failed collaborator, moves neither
    counter. *)
Theorem C9_counters_follow_the_events
        (self : agent) (msgs : list inbound) (d : data) (e : env) (st : session) :
  sends_left st = None ->
  d_type d = Some "get_metrics" ->
  exists (before : session) (evs : list event),
    delivered before = delivered st ++ evs /\
    delivered (snd (message_loop (route self) (msgs ++ [Request d e]) st))
    = delivered before
      ++ [Metrics_response (conversation_metrics before)
            (current_language before) (message_count before)
            (request_id_of d)] /\
    total_requests (conversation_metrics before)
    = total_requests (conversation_metrics st) + count is_started evs /\
    errors (conversation_metrics before)
    = errors (conversation_metrics st) + count is_exception_report evs.
Proof.
  intros Hopen Hty.
  destruct (message_loop_open self msgs [Request d e] Hopen)
    as [before [E [Hb [evs [D [T R]]]]]].
  exists before, evs. split; [exact D|split; [|split; [exact T|exact R]]].
  rewrite E. simpl message_loop. unfold bind at 1.
  unfold loop_turn, try_. unfold bind at 1.
  rewrite recv_open by (rewrite Hb; discriminate).
  unfold truthy_opt, get_or. rewrite Hty. cbn [PyStr.truthy negb].
  cbv beta iota.
  change (route self "get_metrics" d e) with (handle_get_metrics d).
  unfold handle_get_metrics, try_, get. unfold bind. cbv beta iota.
  rewrite send_can by (unfold can_send; now rewrite Hb).
  destruct before as [dl l c mc m lang p]. simpl in Hb. subst l.
  unfold sent. simpl.
  now destruct (negb (is_normal_closure (closure_exn c))).
Qed.

Lemma C9_counters_follow_the_events_witness :
  exists (before : session) (evs : list event),
    delivered before = [] ++ evs /\
    delivered
      (snd (message_loop (route Scenario.sarvam_agent)
              ([Request (Scenario.request "audio_only")
                        (Scenario.env_of Scenario.healthy)]
               ++ [Request (Scenario.request "get_metrics")
                           (Scenario.env_of Scenario.healthy)])
              (new_session None Scenario.going_away)))
    = delivered before
      ++ [Metrics_response (conversation_metrics before)
            (current_language before) (message_count before) "r1"] /\
    total_requests (conversation_metrics before) = 0 + count is_started evs /\
    errors (conversation_metrics before) = 0 + count is_exception_report evs.
Proof.
  apply (@C9_counters_follow_the_events Scenario.sarvam_agent
           [Request (Scenario.request "audio_only")
                    (Scenario.env_of Scenario.healthy)]
           (Scenario.request "get_metrics") (Scenario.env_of Scenario.healthy)
           (new_session None Scenario.going_away) eq_refl eq_refl).
Defined.

(* ================================================================== *)
(** * C7: a failed request is reported and the loop goes on *)
(* ================================================================== *)

Ltac open_session st Hopen :=
  let dl := fresh "dl" in let sl := fresh "sl" in let c := fresh "c" in
  let mc := fresh "mc" in let mt := fresh "mt" in let lang := fresh "lang" in
  let pc := fresh "pc" in
  destruct st as [dl sl c mc mt lang pc]; simpl in Hopen; subst sl.

Ltac turn_done :=
  eexists; split; [reflexivity|split; [reflexivity|]];
  cbn [delivered]; rewrite <- ?app_assoc; reflexivity.

(** The turn of a failing message on an open socket. *)
Lemma fails_turn (self : agent) (m : inbound) (evs : list event) (st : session) :
  fails self m evs ->
  sends_left st = None ->
  exists st',
    loop_turn (route self) m st = (Ok Continue, st') /\
    sends_left st' = None /\
    delivered st' = delivered st ++ evs.
Proof.
  intros Hf Hopen. open_session st Hopen.
  destruct Hf as [err|d e x Ht Hc Ha Hm Hx|d e x Ht Hd Hx|d e x Ht Hf Hx
                 |d e Ht Hd Hs]; unfold loop_turn.
  - run_m. turn_done.
  - unfold truthy_opt at 1, get_or at 1. rewrite Ht.
    change (PyStr.truthy "chat_with_audio") with true.
    change (route self "chat_with_audio" d e)
      with (handle_chat_with_audio self d e).
    unfold handle_chat_with_audio. rewrite Hc, Ha, Hm, Hx.
    destruct x; run_m; turn_done.
  - unfold truthy_opt at 1, get_or at 1. rewrite Ht.
    change (PyStr.truthy "transcribe_audio") with true.
    change (route self "transcribe_audio" d e)
      with (handle_transcribe_audio self d e).
    unfold handle_transcribe_audio. rewrite Hd.
    unfold transcription_raises in Hx.
    destruct (decode_outcome e) as [y|].
    + injection Hx as ->. destruct x; run_m; turn_done.
    + destruct (audio_service self) as [svc|].
      * destruct (stt_outcome e) as [text|y]; [discriminate Hx|].
        injection Hx as ->. destruct x; run_m; turn_done.
      * injection Hx as <-. run_m. turn_done.
  - unfold truthy_opt at 1, get_or at 1. rewrite Ht.
    change (PyStr.truthy "start_class") with true.
    change (route self "start_class" d e) with (handle_start_class self d e).
    unfold handle_start_class. cbv zeta. rewrite Hf, Hx.
    destruct x; run_m; turn_done.
  - unfold truthy_opt at 1, get_or at 1. rewrite Ht.
    change (PyStr.truthy "audio_only") with true.
    change (route self "audio_only" d e) with (handle_audio_only self d e).
    unfold handle_audio_only, stream_job, audio_stream. rewrite Hd, Hs.
    cbn [drive]. run_m. cbn [isinstance_ConnectionClosed exn_str]. run_m.
    turn_done.
Qed.

(** Every report ends with its error event. *)
Lemma fails_ends_with_error (self : agent) (m : inbound) (evs : list event) :
  fails self m evs -> exists before msg, evs = before ++ [Error msg].
Proof.
  intros [err|d e x _ _ _ _ _|d e x _ _ _|d e x _ _ _|d e _ _ _].
  - now exists [], ("Message processing error: " ++ err)%string.
  - eexists [_], _. reflexivity.
  - eexists [_], _. reflexivity.
  - eexists [_], _. reflexivity.
  - eexists [_], _. reflexivity.
Qed.

(** An inbox of failing messages is served to its end. *)
Lemma fails_loop (self : agent) (inbox : list inbound)
      (reports : list (list event)) :
  Forall2 (fails self) inbox reports ->
  forall st, sends_left st = None ->
    fst (message_loop (route self) inbox st) = Ok tt /\
    delivered (snd (message_loop (route self) inbox st))
    = delivered st ++ List.concat reports.
Proof.
  induction 1 as [|m evs inbox reports Hm _ IH]; intros st Hopen.
  - cbn [message_loop List.concat]. unfold bind, get. rewrite app_nil_r.
    destruct (negb (is_normal_closure (closure_exn (closing st))));
      split; reflexivity.
  - destruct (fails_turn Hm Hopen) as [st' [E [Hopen' Hd]]].
    cbn [message_loop List.concat]. unfold bind. rewrite E.
    cbv beta iota. destruct (IH st' Hopen') as [H1 H2].
    split; [exact H1|]. now rewrite H2, Hd, app_assoc.
Qed.

(** C7: while the socket stays writable, no message ends the loop: whatever
    the message and whatever its handler does, the turn neither leaves the
    loop nor lets an exception out, and the loop goes on with the next
    message.  A decoded message whose processing raises an exception (a
    payload that is no object, a chat service, a transcription or a course
    loading that raises, a missing audio service) is answered by an error
    event that names the failure, the last event of its turn; and an inbox
    made of such messages only is served to its end, each message with its
    own error event. *)
Theorem C7_handler_exception_is_reported_and_loop_continues
        (self : agent) (st : session) :
  sends_left st = None ->
  (forall m rest,
     fst (loop_turn (route self) m st) = Ok Continue /\
     sends_left (snd (loop_turn (route self) m st)) = None /\
     message_loop (route self) (m :: rest) st
     = message_loop (route self) rest (snd (loop_turn (route self) m st))) /\
  (forall m evs,
     fails self m evs ->
     delivered (snd (loop_turn (route self) m st)) = delivered st ++ evs /\
     exists before msg, evs = before ++ [Error msg]) /\
  (forall inbox reports,
     Forall2 (fails self) inbox reports ->
     fst (message_loop (route self) inbox st) = Ok tt /\
     delivered (snd (message_loop (route self) inbox st))
     = delivered st ++ List.concat reports).
Proof.
  intros Hopen. split; [|split].
  - intros m rest.
    destruct (loop_turn_open self m Hopen) as [st' [E [Hopen' _]]].
    cbn [message_loop]. unfold bind. rewrite E. cbn [fst snd].
    split; [reflexivity|split; [exact Hopen'|reflexivity]].
  - intros m evs Hf. destruct (fails_turn Hf Hopen) as [st' [E [_ Hd]]].
    rewrite E. split; [exact Hd|]. exact (fails_ends_with_error Hf).
  - intros inbox reports Hf. now apply fails_loop.
Qed.

Lemma C7_handler_exception_is_reported_and_loop_continues_witness :
  delivered
    (snd (message_loop (route Scenario.sarvam_agent)
            [NotObject "'list' object has no attribute 'get'";
             Request (Scenario.request "chat_with_audio")
                     (Env (Raise (Exception_ "model overloaded")) None
                          (Ok "transcript") true (Ok []) (Ok "lesson")
                          Scenario.healthy);
             Request (Scenario.request "transcribe_audio")
                     Scenario.timeout_env]
            (new_session None Scenario.going_away)))
  = [Error "Message processing error: 'list' object has no attribute 'get'";
     Processing_started "r1";
     Error "Chat service failed: model overloaded";
     Transcription_started "r1";
     Error "Transcription timeout"].
Proof.
  refine (proj2 (proj2 (proj2
            (@C7_handler_exception_is_reported_and_loop_continues
               Scenario.sarvam_agent (new_session None Scenario.going_away)
               eq_refl))
            [NotObject "'list' object has no attribute 'get'";
             Request (Scenario.request "chat_with_audio")
                     (Env (Raise (Exception_ "model overloaded")) None
                          (Ok "transcript") true (Ok []) (Ok "lesson")
                          Scenario.healthy);
             Request (Scenario.request "transcribe_audio")
                     Scenario.timeout_env]
            [[Error "Message processing error: 'list' object has no attribute 'get'"];
             [Processing_started "r1";
              Error "Chat service failed: model overloaded"];
             [Transcription_started "r1"; Error "Transcription timeout"]]
            _)).
  constructor; [apply fails_payload|].
  constructor;
    [apply (@fails_chat Scenario.sarvam_agent
              (Scenario.request "chat_with_audio")
              (Env (Raise (Exception_ "model overloaded")) None
                   (Ok "transcript") true (Ok []) (Ok "lesson")
                   Scenario.healthy)
              (Exception_ "model overloaded")); reflexivity|].
  constructor;
    [apply (@fails_transcription Scenario.sarvam_agent
              (Scenario.request "transcribe_audio") Scenario.timeout_env
              TimeoutError); reflexivity|].
  constructor.
Defined.

Lemma gen_catch_unused (g : gen) (h : exn -> gen) :
  gen_raises g = None -> gen_catch g h = g.
Proof.
  induction g as [|e|c k IH|p k IH]; simpl; intros H;
    try reflexivity; try discriminate; now rewrite IH.
Qed.

(** X1: [stream_audio_from_text] yields exactly the non-empty chunks of the
    stream of the one provider the service uses, ElevenLabs when it is
    configured and enabled and Sarvam otherwise, and opens exactly that
    stream's requests: the provider streams swallow their own exceptions, so
    no [except] clause of the function is ever entered, and the socket it is
    given makes no difference. *)
Theorem stream_audio_from_text_is_the_provider_stream
        (svc : AudioService.t) (w : providers)
        (ws : option ConnectionMonitor.sock_view) :
  AudioService.stream_audio_from_text svc w ws
  = gen_forward_nonempty
      match AudioService.uses_elevenlabs svc with
      | Some el => ElevenLabsService.text_to_speech_stream el w
      | None => SarvamService.stream_audio_generation w
      end.
Proof.
  unfold AudioService.stream_audio_from_text, AudioService.sarvam_stage.
  destruct (AudioService.uses_elevenlabs svc) as [el|];
    apply gen_catch_unused; rewrite gen_raises_forward_nonempty.
  - apply text_to_speech_stream_raises.
  - apply stream_audio_generation_raises.
Qed.

(** X2: the ElevenLabs receive loop stops at the first JSON message marked
    final, and at the first frame on which its body raises (bytes that are no
    text, a JSON value that is no object, bad base64): the frames that follow
    and the way the connection ends change neither the chunks yielded nor the
    outcome. *)
Theorem receive_stops_at_the_final_marker
        (before after : list el_message) (audio : option bytes) (e : exn)
        (fin fin' : stream_end) (total_received : nat) :
  ElevenLabsService.receive (before ++ ElJson audio true :: after) fin
                            total_received
  = ElevenLabsService.receive (before ++ [ElJson audio true]) fin'
                              total_received /\
  ElevenLabsService.receive (before ++ ElRaises e :: after) fin total_received
  = ElevenLabsService.receive (before ++ [ElRaises e]) fin' total_received.
Proof.
  split; revert total_received;
    (induction before as [|m before IH]; intros n; simpl;
     [reflexivity
     |destruct m as [a f|payload| |e'];
        [destruct f; [reflexivity|now rewrite IH]
        |destruct (nonempty payload); now rewrite IH
        |apply IH
        |reflexivity]]).
Qed.

Lemma receive_regular_end (msgs : list el_message) (fin : stream_end) (n : nat) :
  gen_raises (ElevenLabsService.receive msgs fin n) = None ->
  0 < n \/ gen_yields (ElevenLabsService.receive msgs fin n) <> [].
Proof.
  revert n. induction msgs as [|m msgs IH]; intros n; simpl.
  - destruct fin; [|discriminate]. unfold ElevenLabsService.after_receive.
    destruct (n =? 0) eqn:E; [discriminate|]. apply Nat.eqb_neq in E. left. lia.
  - destruct m as [a f|payload| |e].
    + rewrite gen_raises_yield_if_nonempty, gen_yields_yield_if_nonempty.
      destruct (nonempty (match a with Some b => b | None => [] end)) eqn:Ea.
      * intros _. right. discriminate.
      * simpl. destruct f.
        -- unfold ElevenLabsService.after_receive.
           destruct (n =? 0) eqn:E; [discriminate|].
           apply Nat.eqb_neq in E. left. lia.
        -- apply IH.
    + destruct (nonempty payload) eqn:Ep.
      * intros _. right. simpl. discriminate.
      * apply IH.
    + apply IH.
    + discriminate.
Qed.

(** X3: an enabled ElevenLabs service yields no audio at all only after it has
    made both of its requests, the streaming one and then the REST one, and
    the REST request failed or returned an empty body. *)
Theorem elevenlabs_is_silent_only_after_both_requests
        (el : ElevenLabsService.t) (w : providers) :
  ElevenLabsService.enabled el = true ->
  gen_yields (ElevenLabsService.text_to_speech_stream el w) = [] ->
  gen_calls (ElevenLabsService.text_to_speech_stream el w)
  = [ElevenLabsStream; ElevenLabsRest] /\
  nonempty (get_or (el_rest w) []) = false.
Proof.
  intros En. unfold ElevenLabsService.text_to_speech_stream.
  rewrite En. simpl negb. cbv iota.
  rewrite gen_yields_catch, gen_calls_catch. simpl gen_yields. simpl gen_calls.
  simpl gen_raises. rewrite receive_calls.
  destruct (gen_raises (ElevenLabsService.receive (el_msgs w) (el_end w) 0))
    as [x|] eqn:R.
  - rewrite gen_yields_catch, gen_calls_catch.
    unfold ElevenLabsService.rest_fallback, ElevenLabsService.text_to_speech.
    rewrite En. simpl negb. cbv iota beta.
    simpl fold_right. simpl gen_yields. simpl gen_calls. simpl gen_raises.
    rewrite gen_yields_yield_if_nonempty, gen_calls_yield_if_nonempty,
      gen_raises_yield_if_nonempty. simpl.
    intros H. apply app_eq_nil in H. destruct H as [_ H].
    rewrite !app_nil_r in H. split; [reflexivity|].
    unfold get_or. destruct (el_rest w) as [content|]; [|reflexivity].
    destruct (nonempty content); [discriminate H|reflexivity].
  - rewrite app_nil_r. intros H.
    destruct (receive_regular_end R) as [H0|H0]; [lia|contradiction].
Qed.

Lemma elevenlabs_is_silent_only_after_both_requests_witness :
  gen_calls (ElevenLabsService.text_to_speech_stream
               (ElevenLabsService.Make true) Scenario.undecodable_frame)
  = [ElevenLabsStream; ElevenLabsRest] /\
  nonempty (get_or (el_rest Scenario.undecodable_frame) []) = false.
Proof.
  apply (@elevenlabs_is_silent_only_after_both_requests
           (ElevenLabsService.Make true) Scenario.undecodable_frame
           eq_refl eq_refl).
Defined.

(** X4: the four connection checks are ordered by strictness.  A socket that
    [utils.connection_monitor.is_client_connected] accepts is accepted by the
    server's [is_client_connected]; a socket that this one accepts is accepted
    by [_is_websocket_connected] and is not reported by
    [_is_client_disconnected].  Neither step can be reversed: some socket
    passes the server's check and fails the monitor's, and some socket is
    both connected for [_is_websocket_connected] and disconnected for
    [_is_client_disconnected]. *)
Theorem connection_checks_are_ordered :
  (forall w,
     ConnectionMonitor.is_client_connected (Some w) = true ->
     is_client_connected (Some w) = true) /\
  (forall w,
     is_client_connected (Some w) = true ->
     _is_websocket_connected (Some w) = true /\
     AudioService._is_client_disconnected (Some w) = false) /\
  (exists w,
     is_client_connected (Some w) = true /\
     ConnectionMonitor.is_client_connected (Some w) = false) /\
  (exists w,
     _is_websocket_connected (Some w) = true /\
     AudioService._is_client_disconnected (Some w) = true).
Proof.
  split; [|split; [|split]].
  - intros [c s o]. destruct c as [[|]|], s as [s|], o as [[|]|]; simpl;
      intros H; try discriminate H; try exact H; reflexivity.
  - intros [c s o]. destruct c as [[|]|], s as [s|]; simpl;
      intros H; try discriminate H; try (split; reflexivity);
      apply Z.eqb_eq in H; subst s; split; reflexivity.
  - exists (ConnectionMonitor.SockView None None (Some false)).
    split; reflexivity.
  - exists (ConnectionMonitor.SockView (Some false) (Some 3%Z) None).
    split; reflexivity.
Qed.

(* ================================================================== *)
(** * Disconnection phrases *)
(* ================================================================== *)

Lemma lower_append (a b : string) :
  PyStr.lower (a ++ b) = (PyStr.lower a ++ PyStr.lower b)%string.
Proof. induction a as [|c a IH]; simpl; [reflexivity|now rewrite IH]. Qed.

Lemma prefix_extend (n h s : string) :
  String.prefix n h = true -> String.prefix n (h ++ s) = true.
Proof.
  revert h. induction n as [|c n IH]; intros h.
  - intros _. now destruct (h ++ s)%string.
  - destruct h as [|c' h]; simpl; [discriminate|].
    destruct (Ascii.ascii_dec c c'); [apply IH|discriminate].
Qed.

Lemma contains_extend_right (n h s : string) :
  PyStr.contains n h = true -> PyStr.contains n (h ++ s) = true.
Proof.
  induction h as [|c h IH]; simpl.
  - rewrite orb_false_r. intros H. destruct n; [|discriminate H].
    destruct s; reflexivity.
  - rewrite !orb_true_iff. intros [H|H].
    + left. now apply (@prefix_extend n (String c h) s).
    + right. now apply IH.
Qed.

Lemma contains_extend_left (n p h : string) :
  PyStr.contains n h = true -> PyStr.contains n (p ++ h) = true.
Proof.
  intros H. induction p as [|c p IH]; simpl; [exact H|].
  rewrite IH. apply orb_true_r.
Qed.

Lemma any_in_extend (inds : list string) (p m s : string) :
  PyStr.any_in inds m = true -> PyStr.any_in inds (p ++ m ++ s) = true.
Proof.
  unfold PyStr.any_in. rewrite !existsb_exists.
  intros [ind [Hin Hc]]. exists ind. split; [exact Hin|].
  now apply contains_extend_left, contains_extend_right.
Qed.

Lemma truthy_append (p m s : string) :
  PyStr.truthy m = true -> PyStr.truthy (p ++ m ++ s) = true.
Proof. destruct p; [destruct m; [discriminate|reflexivity]|reflexivity]. Qed.

(** X5: [_is_normal_disconnection] looks for its phrases anywhere in the
    message, whatever the case: a message it accepts is still accepted with
    any text put before and after it. *)
Theorem normal_disconnection_survives_wrapping (before msg after : string) :
  AudioService._is_normal_disconnection msg = true ->
  AudioService._is_normal_disconnection (before ++ msg ++ after) = true.
Proof.
  unfold AudioService._is_normal_disconnection.
  destruct (PyStr.truthy msg) eqn:T; cbn [negb]; [|discriminate].
  rewrite truthy_append by exact T. cbn [negb]. cbv zeta.
  rewrite !lower_append.
  destruct (PyStr.any_in ["1000"; "1001"] (PyStr.lower msg)) eqn:C.
  - intros _. now rewrite any_in_extend.
  - intros H. rewrite (any_in_extend _ _ H).
    match goal with |- (if ?b then _ else _) = _ => now destruct b end.
Qed.

Lemma normal_disconnection_survives_wrapping_witness :
  AudioService._is_normal_disconnection
    ("Error in audio streaming: " ++ "Connection Closed" ++ " by peer") = true.
Proof.
  apply (@normal_disconnection_survives_wrapping
           "Error in audio streaming: " "Connection Closed" " by peer" eq_refl).
Defined.

(* ================================================================== *)
(** * What a handler lets out *)
(* ================================================================== *)

Lemma only_closure_ret (A : Type) (a : A) : only_closure (ret a).
Proof. intros st x st' H. discriminate H. Qed.

Lemma only_closure_send (ev : event) : only_closure (send ev).
Proof.
  intros st x st'. unfold send.
  destruct (sends_left st) as [[|n]|]; intros [= <- <-]. now split.
Qed.

Lemma only_closure_modify (f : session -> session) : only_closure (modify f).
Proof. intros st x st' H. discriminate H. Qed.

Lemma only_closure_bind (A B : Type) (m : M A) (k : A -> M B) :
  only_closure m -> (forall a, only_closure (k a)) -> only_closure (bind m k).
Proof.
  intros Hm Hk st x st'. unfold bind.
  destruct (m st) as [[a|e] st1] eqn:E.
  - apply Hk.
  - intros [= <- <-]. now apply (Hm st).
Qed.

(** An [except Exception] clause whose body lets nothing else out. *)
Lemma only_closure_try (A : Type) (m : M A) (h : exn -> M A) :
  (forall e, only_closure (h e)) -> only_closure (try_ m h).
Proof.
  intros Hh st x st'. unfold try_.
  destruct (m st) as [[a|e] st1]; [discriminate|apply Hh].
Qed.

Lemma only_closure_send_guarded (ev : event) : only_closure (send_guarded ev).
Proof.
  intros st x st'. unfold send_guarded, except_ConnectionClosed, try_.
  destruct (send ev st) as [[[]|e] st1] eqn:E; [discriminate|].
  destruct (only_closure_send E) as [_ ->].
  rewrite isinstance_closure_exn. discriminate.
Qed.

Lemma only_closure_route (self : agent) (t : string) (d : data) (e : env) :
  only_closure (route self t d e).
Proof.
  unfold route, handle_ping, handle_chat_with_audio, handle_start_class,
    handle_audio_only, handle_transcribe_audio, handle_set_language,
    handle_get_metrics.
  repeat match goal with
         | |- only_closure (if ?b then _ else _) => destruct b
         end;
    try apply only_closure_send;
    apply only_closure_try; intros x;
    repeat match goal with
           | |- only_closure (if ?b then _ else _) => destruct b
           | |- only_closure (bind _ _) => apply only_closure_bind; [|intros]
           | |- only_closure (send_guarded _) => apply only_closure_send_guarded
           | |- only_closure (send _) => apply only_closure_send
           | |- only_closure (ret _) => apply only_closure_ret
           | |- only_closure count_error => apply only_closure_modify
           end.
Qed.

(** X6: whatever the message type, the payload and the services do, the only
    exception a handler lets out to the message loop is the closure of the
    client's socket, raised by a write on the closed socket; every other
    exception is caught in the handler. *)
Theorem handlers_raise_only_the_closure
        (self : agent) (message_type : string) (d : data) (e : env)
        (st st' : session) (x : exn) :
  route self message_type d e st = (Raise x, st') ->
  sends_left st' = Some 0 /\ x = closure_exn (closing st').
Proof. apply only_closure_route. Qed.

Lemma handlers_raise_only_the_closure_witness :
  sends_left (Session [] (Some 0) Scenario.abnormal 1 (Metrics 0 0 0 0 0)
                      "en-IN" []) = Some 0 /\
  ConnectionClosedError 1006 EmptyString
  = closure_exn (closing (Session [] (Some 0) Scenario.abnormal 1
                                  (Metrics 0 0 0 0 0) "en-IN" [])).
Proof.
  apply (@handlers_raise_only_the_closure
           Scenario.sarvam_agent "ping" (Scenario.request "ping")
           (Scenario.env_of Scenario.healthy)
           (new_session (Some 0) Scenario.abnormal) _ _ eq_refl).
Defined.

(* ================================================================== *)
(** * Properties of the session that every request keeps *)
(* ================================================================== *)

Section Preserved.

Variable Inv : session -> Prop.

Hypothesis Inv_send : forall ev, preserves Inv (send ev).
Hypothesis Inv_count_error : preserves Inv count_error.
Hypothesis Inv_update_metrics : forall k, preserves Inv (update_metrics k).
Hypothesis Inv_set_language : forall l, preserves Inv (modify (set_language l)).
Hypothesis Inv_log_call : forall p, preserves Inv (log_call p).

Lemma preserves_ret (A : Type) (a : A) : preserves Inv (ret a).
Proof. intros st H. exact H. Qed.

Lemma preserves_raise (A : Type) (e : exn) : preserves Inv (@raise A e).
Proof. intros st H. exact H. Qed.

Lemma preserves_get : preserves Inv get.
Proof. intros st H. exact H. Qed.

Lemma preserves_recv : preserves Inv recv.
Proof. intros st H. unfold recv. now destruct (sends_left st) as [[|?]|]. Qed.

Lemma preserves_bind (A B : Type) (m : M A) (k : A -> M B) :
  preserves Inv m -> (forall a, preserves Inv (k a)) -> preserves Inv (bind m k).
Proof.
  intros Hm Hk st H. unfold bind. specialize (Hm st H).
  destruct (m st) as [[a|e] st']; simpl in *; [now apply Hk|exact Hm].
Qed.

Lemma preserves_try (A : Type) (m : M A) (h : exn -> M A) :
  preserves Inv m -> (forall e, preserves Inv (h e)) -> preserves Inv (try_ m h).
Proof.
  intros Hm Hh st H. unfold try_. specialize (Hm st H).
  destruct (m st) as [[a|e] st']; simpl in *; [exact Hm|now apply Hh].
Qed.

Lemma preserves_drive (S : Type) (g : gen) (body : bytes -> S -> M S) :
  (forall c s, preserves Inv (body c s)) ->
  forall s, preserves Inv (drive g body s).
Proof.
  intros Hbody. induction g as [|e|c k IH|p k IH]; intros s; simpl.
  - apply preserves_ret.
  - apply preserves_raise.
  - apply preserves_bind; [apply Hbody|exact IH].
  - apply preserves_bind; [apply Inv_log_call|intros; apply IH].
Qed.

Ltac preserves_step :=
  match goal with
  | |- preserves _ (bind _ _) => apply preserves_bind; [|intros]
  | |- preserves _ (try_ _ _) => apply preserves_try; [|intros]
  | |- preserves _ (ret _) => apply preserves_ret
  | |- preserves _ (raise _) => apply preserves_raise
  | |- preserves _ get => apply preserves_get
  | |- preserves _ recv => apply preserves_recv
  | |- preserves _ (send _) => apply Inv_send
  | |- preserves _ count_error => apply Inv_count_error
  | |- preserves _ (update_metrics _) => apply Inv_update_metrics
  | |- preserves _ (modify (set_language _)) => apply Inv_set_language
  | |- preserves _ (drive _ _ _) => apply preserves_drive; intros
  | |- preserves _ (if ?b then _ else _) => destruct b
  | |- preserves _ (match ?x with _ => _ end) => destruct x
  | |- preserves _ (let '(_, _) := ?x in _) => destruct x
  end.

Lemma preserves_stream_job (self : agent) (w : providers) (rid prefix : string) :
  preserves Inv (stream_job self w rid prefix).
Proof.
  unfold stream_job, except_ConnectionClosed, forward_chunk.
  repeat preserves_step.
Qed.

Lemma preserves_route (self : agent) (t : string) (d : data) (e : env) :
  preserves Inv (route self t d e).
Proof.
  pose proof (preserves_stream_job self) as Hjob.
  unfold route, handle_ping, handle_chat_with_audio, handle_start_class,
    handle_audio_only, handle_transcribe_audio, handle_set_language,
    handle_get_metrics, send_guarded, except_ConnectionClosed,
    _create_simple_teaching_content.
  repeat first [apply Hjob | preserves_step].
Qed.

Lemma preserves_message_loop (self : agent) (inbox : list inbound) :
  preserves Inv (message_loop (route self) inbox).
Proof.
  induction inbox as [|m inbox IH]; simpl.
  - repeat preserves_step.
  - apply preserves_bind; [|intros []; [exact IH|apply preserves_ret]].
    unfold loop_turn, except_ConnectionClosed.
    repeat first [apply preserves_route | preserves_step].
Qed.

Lemma preserves_process_messages (self : agent) (inbox : list inbound) :
  preserves Inv (process_messages self inbox).
Proof.
  unfold process_messages.
  repeat first [apply preserves_message_loop | preserves_step].
Qed.

End Preserved.

(** X7: while a connection is served, no counter of the metrics ever
    decreases, and [total_requests] stays the sum of [chat_requests],
    [audio_requests] and [teaching_requests] if it was at the start (as it
    is for a new connection), whatever the messages, the services and the
    socket do. *)
Theorem counters_add_up_and_never_decrease
        (self : agent) (inbox : list inbound) (st : session) :
  metrics_add_up (conversation_metrics st) ->
  metrics_add_up (conversation_metrics (snd (process_messages self inbox st))) /\
  metrics_le (conversation_metrics st)
             (conversation_metrics (snd (process_messages self inbox st))).
Proof.
  intros H0. split.
  - revert st H0.
    apply (@preserves_process_messages
             (fun s => metrics_add_up (conversation_metrics s)));
      try (intros; intros [dl sl c mc m lang pc] H; exact H).
    + intros ev [dl [[|k]|] c mc m lang pc] H; exact H.
    + intros [] [dl sl c mc m lang pc]; unfold metrics_add_up; simpl; lia.
  - assert (R : metrics_le (conversation_metrics st) (conversation_metrics st))
      by (unfold metrics_le; lia).
    revert R. generalize (conversation_metrics st) at 1 3. intros m0.
    revert st H0. intros st _. revert st.
    apply (@preserves_process_messages
             (fun s => metrics_le m0 (conversation_metrics s)));
      try (intros; intros [dl sl c mc m lang pc] H; exact H).
    + intros ev [dl [[|k]|] c mc m lang pc] H; exact H.
    + intros [dl sl c mc m lang pc]. unfold metrics_le. simpl. lia.
    + intros [] [dl sl c mc m lang pc]; unfold metrics_le; simpl; lia.
Qed.

Lemma counters_add_up_and_never_decrease_witness :
  metrics_add_up
    (conversation_metrics
       (snd (process_messages Scenario.sarvam_agent
               [Request (Scenario.request "audio_only")
                        (Scenario.env_of Scenario.healthy)]
               (new_session None Scenario.abnormal)))) /\
  metrics_le (Metrics 0 0 0 0 0)
    (conversation_metrics
       (snd (process_messages Scenario.sarvam_agent
               [Request (Scenario.request "audio_only")
                        (Scenario.env_of Scenario.healthy)]
               (new_session None Scenario.abnormal)))).
Proof.
  apply (@counters_add_up_and_never_decrease Scenario.sarvam_agent
           [Request (Scenario.request "audio_only")
                    (Scenario.env_of Scenario.healthy)]
           (new_session None Scenario.abnormal) eq_refl).
Defined.

(** X8: [message_count] counts the writes attempted on the wrapper: starting
    from a count equal to the number of events delivered, it is never less
    than the number of events delivered, and equal to it as long as the
    socket has not closed. *)
Theorem message_count_counts_the_writes
        (self : agent) (inbox : list inbound) (st : session) :
  message_count st = List.length (delivered st) ->
  List.length (delivered (snd (process_messages self inbox st)))
  <= message_count (snd (process_messages self inbox st)) /\
  (sends_left (snd (process_messages self inbox st)) = None ->
   message_count (snd (process_messages self inbox st))
   = List.length (delivered (snd (process_messages self inbox st)))).
Proof.
  intros H0.
  assert (H : List.length (delivered st) <= message_count st /\
              (sends_left st = None ->
               message_count st = List.length (delivered st)))
    by (split; [lia|auto]).
  clear H0. revert st H.
  apply (@preserves_process_messages
           (fun s => List.length (delivered s) <= message_count s /\
                     (sends_left s = None ->
                      message_count s = List.length (delivered s))));
    try (intros; intros [dl sl c mc m lang pc] H; exact H).
  intros ev [dl [[|k]|] c mc m lang pc]; simpl; rewrite ?length_app; simpl;
    intros [H1 H2]; split; try discriminate; try lia.
  intros _. specialize (H2 eq_refl). lia.
Qed.

Lemma message_count_counts_the_writes_witness :
  List.length
    (delivered (snd (process_messages Scenario.sarvam_agent
                       [Request (Scenario.request "ping")
                                (Scenario.env_of Scenario.healthy)]
                       (new_session (Some 1) Scenario.abnormal))))
  <= message_count
       (snd (process_messages Scenario.sarvam_agent
               [Request (Scenario.request "ping")
                        (Scenario.env_of Scenario.healthy)]
               (new_session (Some 1) Scenario.abnormal))) /\
  (sends_left
     (snd (process_messages Scenario.sarvam_agent
             [Request (Scenario.request "ping")
                      (Scenario.env_of Scenario.healthy)]
             (new_session (Some 1) Scenario.abnormal))) = None ->
   message_count
     (snd (process_messages Scenario.sarvam_agent
             [Request (Scenario.request "ping")
                      (Scenario.env_of Scenario.healthy)]
             (new_session (Some 1) Scenario.abnormal)))
   = List.length
       (delivered (snd (process_messages Scenario.sarvam_agent
                          [Request (Scenario.request "ping")
                                   (Scenario.env_of Scenario.healthy)]
                          (new_session (Some 1) Scenario.abnormal))))).
Proof.
  apply (@message_count_counts_the_writes Scenario.sarvam_agent
           [Request (Scenario.request "ping")
                    (Scenario.env_of Scenario.healthy)]
           (new_session (Some 1) Scenario.abnormal) eq_refl).
Defined.

(** X9: on an open socket, a [set_language] request with a non-empty language
    followed by a [get_metrics] request: the second answer reports the
    language just set, the counters unchanged, and a message count that
    includes the first answer. *)
Theorem language_set_is_reported_by_get_metrics
        (self : agent) (d1 d2 : data) (e1 e2 : env) (language : string)
        (st : session) :
  sends_left st = None ->
  d_language d1 = Some language ->
  PyStr.truthy language = true ->
  (route self "set_language" d1 e1 ;; route self "get_metrics" d2 e2) st
  = (Ok tt,
     set_language language
       (sent [Language_set language (request_id_of d1);
              Metrics_response (conversation_metrics st) language
                               (message_count st + 1) (request_id_of d2)] st)).
Proof.
  intros Hopen Hl Ht.
  change (route self "set_language" d1 e1) with (handle_set_language d1).
  change (route self "get_metrics" d2 e2) with (handle_get_metrics d2).
  unfold handle_set_language, handle_get_metrics, truthy_opt, get_or.
  rewrite Hl, Ht. destruct st as [dl sl c mc m lang pc]. simpl in Hopen.
  subst sl. unfold sent. run_m. simpl. f_equal. f_equal; [now rewrite <- app_assoc|lia].
Qed.

Lemma language_set_is_reported_by_get_metrics_witness :
  (route Scenario.sarvam_agent "set_language"
         (Data (Some "set_language") (Some "r1") None None (Some "hi-IN")
               None None None None)
         (Scenario.env_of Scenario.healthy) ;;
   route Scenario.sarvam_agent "get_metrics" (Scenario.request "get_metrics")
         (Scenario.env_of Scenario.healthy))
    (new_session None Scenario.going_away)
  = (Ok tt,
     Session [Language_set "hi-IN" "r1";
              Metrics_response (Metrics 0 0 0 0 0) "hi-IN" 1 "r1"]
             None Scenario.going_away 2 (Metrics 0 0 0 0 0) "hi-IN" []).
Proof.
  apply (@language_set_is_reported_by_get_metrics Scenario.sarvam_agent
           (Data (Some "set_language") (Some "r1") None None (Some "hi-IN")
                 None None None None)
           (Scenario.request "get_metrics")
           (Scenario.env_of Scenario.healthy) (Scenario.env_of Scenario.healthy)
           "hi-IN" (new_session None Scenario.going_away)
           eq_refl eq_refl eq_refl).
Defined.

Ltac same_session :=
  simpl; f_equal; f_equal; rewrite <- ?app_assoc; solve [reflexivity | lia].

Lemma nth_error_nth_default (A : Type) (l : list A) (n : nat) (x d : A) :
  nth_error l n = Some x -> nth n l d = x /\ (List.length l <=? n) = false.
Proof.
  intros H. split; [now apply nth_error_nth|].
  apply Nat.leb_gt. apply nth_error_Some. congruence.
Qed.

(** X10: [start_class] for an existing module and sub-topic, on an open
    socket: whenever the teaching service is unavailable, raises, or returns
    an empty or blank text, the handler falls back on
    [_create_simple_teaching_content], which [ProfAIAgent] does not define;
    the client gets [class_starting], [course_info] and then the error event
    with the attribute error, no audio, and the error is counted. *)
Theorem start_class_fails_without_teaching_content
        (self : agent) (d : data) (e : env) (st : session)
        (modules : list course_module) (module : course_module)
        (sub_topic : sub_topic) :
  sends_left st = None ->
  course_file_exists e = true ->
  course_outcome e = Ok modules ->
  nth_error modules (get_or (d_module_index d) 0) = Some module ->
  nth_error (cm_sub_topics module) (get_or (d_sub_topic_index d) 0)
  = Some sub_topic ->
  usable_teaching_content self e = false ->
  handle_start_class self d e st
  = (Ok tt,
     sent [Error ("Class processing failed: " ++
                  "'ProfAIAgent' object has no attribute " ++
                  "'_create_simple_teaching_content'")]
       (with_error
          (sent [Class_starting (d_course_id d) (get_or (d_module_index d) 0)
                                (get_or (d_sub_topic_index d) 0)
                                (request_id_of d);
                 Course_info (cm_title module) (st_title sub_topic)
                             (request_id_of d)] st))).
Proof.
  intros Hopen Hfile Hcourse Hm Hs Hu.
  destruct (nth_error_nth_default (CourseModule EmptyString []) Hm) as [Em Lm].
  unfold handle_start_class. rewrite Hfile, Hcourse. cbn [negb].
  rewrite Lm, Em.
  destruct (nth_error_nth_default (SubTopic EmptyString EmptyString) Hs)
    as [Es Ls].
  rewrite Ls, Es.
  unfold usable_teaching_content in Hu.
  destruct st as [dl sl c mc m lang pc]. simpl in Hopen. subst sl.
  unfold with_error, sent, _create_simple_teaching_content.
  destruct (teaching_available self); simpl in Hu.
  - destruct (teaching_outcome e) as [content|x].
    + run_m.
      destruct (PyStr.truthy content) eqn:T; simpl in Hu.
      * apply negb_false_iff in Hu. rewrite Hu. run_m. same_session.
      * run_m. same_session.
    + destruct x; run_m; same_session.
  - run_m. same_session.
Qed.

Lemma start_class_fails_without_teaching_content_witness :
  handle_start_class (Agent true (Some (AudioService.init "sarvam" None)) false)
    (Scenario.request "start_class")
    (Env (Ok "answer") None (Ok "transcript") true
         (Ok [CourseModule "Module" [SubTopic "Topic" "Text"]]) (Ok "lesson")
         Scenario.healthy)
    (new_session None Scenario.going_away)
  = (Ok tt,
     Session [Class_starting None 0 0 "r1"; Course_info "Module" "Topic" "r1";
              Error ("Class processing failed: 'ProfAIAgent' object has no "
                     ++ "attribute '_create_simple_teaching_content'")]
             None Scenario.going_away 3 (Metrics 0 0 0 0 1) "en-IN" []).
Proof.
  apply (@start_class_fails_without_teaching_content
           (Agent true (Some (AudioService.init "sarvam" None)) false)
           (Scenario.request "start_class")
           (Env (Ok "answer") None (Ok "transcript") true
                (Ok [CourseModule "Module" [SubTopic "Topic" "Text"]])
                (Ok "lesson") Scenario.healthy)
           (new_session None Scenario.going_away)
           [CourseModule "Module" [SubTopic "Topic" "Text"]]
           (CourseModule "Module" [SubTopic "Topic" "Text"])
           (SubTopic "Topic" "Text")
           eq_refl eq_refl eq_refl eq_refl eq_refl eq_refl).
Defined.

Module ChunkerBounds.
Import Chunker ChunkerFacts.

Lemma lstrip_head (c : char) (x : str) :
  isspace c = false -> lstrip (c :: x) = c :: x.
Proof. intros H. simpl. now rewrite H. Qed.

Lemma rstrip_last (x : str) (c : char) :
  isspace c = false -> rstrip (x ++ [c]) = x ++ [c].
Proof.
  intros H. unfold rstrip. rewrite rev_app_distr.
  change (rev [c] ++ rev x) with (c :: rev x).
  rewrite lstrip_head by exact H. simpl. now rewrite rev_involutive.
Qed.

Lemma word_ends (w : str) :
  word w ->
  (exists c x, w = c :: x /\ isspace c = false) /\
  (exists x c, w = x ++ [c] /\ isspace c = false).
Proof.
  intros [Hne Hall]. split.
  - destruct w as [|c x]; [contradiction|]. exists c, x. split; [reflexivity|].
    now inversion Hall.
  - destruct (exists_last Hne) as [x [c E]]. exists x, c. split; [exact E|].
    rewrite E in Hall. apply Forall_app in Hall. destruct Hall as [_ H].
    now inversion H.
Qed.

Lemma join_words_ends (block : list str) :
  Forall word block -> block <> [] ->
  (exists c x, join_words block = c :: x /\ isspace c = false) /\
  (exists x c, join_words block = x ++ [c] /\ isspace c = false).
Proof.
  intros Hb Hne. split.
  - destruct block as [|w block]; [contradiction|].
    inversion Hb as [|? ? Hw _]; subst.
    destruct (proj1 (word_ends Hw)) as [c [x [E Hc]]]. subst w.
    destruct block; simpl; eauto.
  - destruct (exists_last Hne) as [init [w E]]. subst block.
    apply Forall_app in Hb. destruct Hb as [Hi Hw].
    inversion Hw as [|? ? Hw' _]; subst.
    destruct (proj2 (word_ends Hw')) as [x [c [E Hc]]]. subst w.
    rewrite join_words_snoc by assumption.
    destruct (truthy (join_words init)).
    + exists (join_words init ++ space :: x), c. split; [|exact Hc].
      now rewrite <- app_assoc.
    + exists (join_words init ++ x), c. split; [|exact Hc].
      now rewrite <- app_assoc.
Qed.

(** Words joined by single spaces have no outer white space. *)
Lemma strip_join_words (block : list str) :
  Forall word block -> strip (join_words block) = join_words block.
Proof.
  intros Hb. destruct block as [|w block]; [reflexivity|].
  assert (Hne : w :: block <> []) by discriminate.
  destruct (join_words_ends Hb Hne) as [[c [x [E Hc]]] [y [c' [E' Hc']]]].
  unfold strip. rewrite E, lstrip_head by exact Hc. rewrite <- E, E'.
  now apply rstrip_last.
Qed.

Lemma filling_fits (max : Z) (all : list str) (cur : str) :
  filling max all cur -> truthy cur = true -> chunk_fits max all (strip cur).
Proof.
  intros [->|[block [Hne [Hb [E Hsz]]]]] T; [discriminate T|].
  subst cur. rewrite strip_join_words by assumption.
  split; [|split; [now apply strip_join_words|exact Hsz]].
  intros H. rewrite H in T. discriminate T.
Qed.

Lemma fast_fold_fits (max : Z) (all ws : list str) :
  Forall word ws -> incl ws all ->
  forall chunks cur,
    Forall (chunk_fits max all) chunks -> filling max all cur ->
    Forall (chunk_fits max all) (fst (fold_left (fast_step max) ws (chunks, cur)))
    /\ filling max all (snd (fold_left (fast_step max) ws (chunks, cur))).
Proof.
  induction 1 as [|w ws Hw Hws IH]; intros Hin chunks cur Hc Hcur; [now split|].
  assert (Hin' : incl ws all) by (intros x Hx; apply Hin; now right).
  assert (Hwall : In w all) by (apply Hin; now left).
  simpl fold_left. unfold fast_step at 2.
  destruct (_ <=? max)%Z eqn:Hfit.
  - apply IH; [exact Hin'|exact Hc|]. apply Z.leb_le in Hfit. right.
    destruct Hcur as [->|[block [Hne [Hb [E Hsz]]]]].
    + exists [w]. simpl in *.
      split; [discriminate|split; [now constructor|split; [reflexivity|]]].
      left. lia.
    + exists (block ++ [w]). subst cur.
      rewrite join_words_snoc by assumption.
      rewrite join_words_truthy by assumption.
      split; [now destruct block|].
      split; [apply Forall_app; auto|]. split; [reflexivity|].
      left. rewrite length_app. simpl. lia.
  - apply IH; [exact Hin'| |].
    + destruct (truthy cur) eqn:T; [|exact Hc].
      apply Forall_app. split; [exact Hc|]. constructor; [|constructor].
      now apply filling_fits.
    + right. exists [w]. simpl.
      split; [discriminate|split; [now constructor|split; [reflexivity|]]].
      now right.
Qed.

Lemma split_text_fast_all_fit (text : str) (max_chunk_size : Z) :
  Forall (chunk_fits max_chunk_size (split text))
         (_split_text_fast text max_chunk_size).
Proof.
  unfold _split_text_fast. cbv zeta.
  destruct (@fast_fold_fits max_chunk_size (split text) (split text)
              (split_words text) (incl_refl _) [] [] (Forall_nil _))
    as [Hc Hcur]; [now left|].
  destruct (fold_left _ _ _) as [chunks cur]. simpl in Hc, Hcur.
  destruct (truthy cur) eqn:T; [|exact Hc].
  apply Forall_app. split; [exact Hc|]. constructor; [|constructor].
  now apply filling_fits.
Qed.

(** X11: every chunk of [_split_text_fast] is non-empty, has no white space
    at its ends, and is at most [max_chunk_size] characters long unless it is
    a single word of the text that is longer than that by itself; the result
    is empty exactly when the text has no word. *)
Theorem split_text_fast_chunks_fit (text : str) (max_chunk_size : Z) :
  Forall (chunk_fits max_chunk_size (split text))
         (_split_text_fast text max_chunk_size) /\
  (_split_text_fast text max_chunk_size = [] <-> split text = []).
Proof.
  split; [apply split_text_fast_all_fit|].
  split; intros H.
  - rewrite <- (split_text_fast_words text max_chunk_size), H. reflexivity.
  - unfold _split_text_fast. cbv zeta. unfold str in *. now rewrite H.
Qed.

End ChunkerBounds.

Module TextCleaningFacts.
Import Chunker ChunkerFacts ChunkerBounds TextCleaning.

Lemma sub_spaces_true_head (x : str) :
  sub_spaces true x = [] \/
  exists c y, sub_spaces true x = c :: y /\ isspace c = false.
Proof.
  induction x as [|c x IH]; [now left|]. simpl.
  destruct (isspace c) eqn:E; [exact IH|]. right. eauto.
Qed.

Lemma space_isspace : isspace space = true.
Proof. reflexivity. Qed.

Lemma lstrip_sub_spaces (x : str) :
  lstrip (sub_spaces false x) = sub_spaces true x.
Proof.
  destruct x as [|c x]; [reflexivity|]. simpl.
  destruct (isspace c) eqn:E.
  - simpl. destruct (sub_spaces_true_head x) as [->|[c' [y [-> Hc']]]];
      [reflexivity|]. simpl. now rewrite Hc'.
  - simpl. now rewrite E.
Qed.

Lemma lstrip_app_blank (a b : str) :
  lstrip (a ++ b) = if truthy (lstrip a) then lstrip a ++ b else lstrip b.
Proof.
  induction a as [|c a IH]; [reflexivity|]. simpl.
  destruct (isspace c); [exact IH|reflexivity].
Qed.

Lemma truthy_rev (x : str) : truthy (rev x) = truthy x.
Proof.
  destruct x as [|c x]; [reflexivity|]. simpl.
  destruct (rev x); reflexivity.
Qed.

Lemma rstrip_app (a b : str) :
  rstrip (a ++ b) = if truthy (rstrip b) then a ++ rstrip b else rstrip a.
Proof.
  unfold rstrip. rewrite rev_app_distr, lstrip_app_blank, truthy_rev.
  destruct (truthy (lstrip (rev b))); [|reflexivity].
  now rewrite rev_app_distr, rev_involutive.
Qed.

Lemma rstrip_nonspace (x : str) :
  Forall (fun c => isspace c = false) x -> rstrip x = x.
Proof.
  intros H. destruct x as [|c x] using rev_ind; [reflexivity|].
  apply Forall_app in H. destruct H as [_ H]. inversion H; subst.
  now apply rstrip_last.
Qed.

Lemma rstrip_space_cons (y : str) :
  rstrip (space :: y) = if truthy (rstrip y) then space :: rstrip y else [].
Proof.
  change (space :: y) with ([space] ++ y). rewrite rstrip_app.
  now destruct (truthy (rstrip y)).
Qed.

(** What is left of the scan once its trailing white space is removed: the
    words read, joined by single spaces. *)
Lemma rstrip_sub_spaces (x : str) :
  (forall cur,
     cur <> [] -> Forall (fun c => isspace c = false) cur ->
     rstrip (cur ++ sub_spaces false x) = join_words (split_from cur x)) /\
  rstrip (sub_spaces true x) = join_words (split_from [] x).
Proof.
  induction x as [|c x [IHA IHB]].
  - split; [|reflexivity]. intros cur Hne Hcur. simpl.
    rewrite app_nil_r. destruct cur; [contradiction|]. simpl.
    now apply rstrip_nonspace.
  - assert (A : forall cur,
               cur <> [] -> Forall (fun c => isspace c = false) cur ->
               rstrip (cur ++ sub_spaces false (c :: x))
               = join_words (split_from cur (c :: x))).
    { intros cur Hne Hcur. simpl. destruct (isspace c) eqn:E.
      - assert (T : truthy cur = true) by now destruct cur.
        rewrite T. rewrite rstrip_app, rstrip_space_cons, IHB.
        pose proof (@split_from_words x [] (or_introl eq_refl)) as Hws.
        destruct (split_from [] x) as [|w ws] eqn:Es.
        + simpl. now apply rstrip_nonspace.
        + rewrite join_words_truthy by (assumption || discriminate).
          simpl truthy. cbv iota. reflexivity.
      - change (cur ++ c :: sub_spaces false x)
          with (cur ++ [c] ++ sub_spaces false x).
        rewrite app_assoc. apply IHA; [now destruct cur|].
        apply Forall_app. split; [exact Hcur|]. now constructor. }
    split; [exact A|].
    simpl. destruct (isspace c) eqn:E; [exact IHB|].
    change (c :: sub_spaces false x) with ([c] ++ sub_spaces false x).
    change (split_from ([] ++ [c]) x) with (split_from [c] x).
    apply IHA; [discriminate|]. now constructor.
Qed.

(** [re.sub(r'\s+', ' ', text).strip()] is [" ".join(text.split())]. *)
Lemma strip_sub_spaces (x : str) :
  strip (sub_spaces false x) = join_words (split x).
Proof.
  unfold strip. rewrite lstrip_sub_spaces. apply rstrip_sub_spaces.
Qed.

Lemma markdown_not_space (c : char) :
  markdown_char c = true -> isspace c = false.
Proof.
  unfold markdown_char. rewrite !orb_true_iff, !N.eqb_eq.
  intros H. repeat destruct H as [H|H]; subst; reflexivity.
Qed.

Lemma length_lstrip (x : str) : List.length (lstrip x) <= List.length x.
Proof.
  induction x as [|c x IH]; [reflexivity|]. simpl.
  destruct (isspace c); simpl; lia.
Qed.

Lemma length_strip (x : str) : List.length (strip x) <= List.length x.
Proof.
  unfold strip, rstrip. rewrite length_rev.
  etransitivity; [apply length_lstrip|]. rewrite length_rev.
  apply length_lstrip.
Qed.

Lemma length_sub_spaces (b : bool) (x : str) :
  List.length (sub_spaces b x) <= List.length x.
Proof.
  revert b. induction x as [|c x IH]; intros b; [reflexivity|]. simpl.
  pose proof (IH true). pose proof (IH false).
  destruct (isspace c); [destruct b|]; simpl; lia.
Qed.

Lemma split_from_chars (P : char -> Prop) (text cur : str) :
  Forall P cur -> Forall P text -> Forall (Forall P) (split_from cur text).
Proof.
  revert cur. induction text as [|c rest IH]; intros cur Hcur Ht; simpl.
  - destruct (truthy cur); [|constructor]. now constructor.
  - inversion Ht as [|? ? Hc Hrest]; subst.
    destruct (isspace c).
    + destruct (truthy cur); [constructor; [exact Hcur|]|]; now apply IH.
    + apply IH; [|exact Hrest]. apply Forall_app. split; [exact Hcur|].
      now constructor.
Qed.

Lemma join_words_chars (P : char -> Prop) (ws : list str) :
  P space -> Forall (Forall P) ws -> Forall P (join_words ws).
Proof.
  intros Hs. induction ws as [|w ws IH]; intros H; [constructor|].
  inversion H as [|? ? Hw Hws]; subst. destruct ws as [|w' ws]; [exact Hw|].
  change (join_words (w :: w' :: ws)) with (w ++ space :: join_words (w' :: ws)).
  apply Forall_app. split; [exact Hw|]. constructor; [exact Hs|now apply IH].
Qed.

Lemma sub_markdown_clean (text : str) :
  Forall (fun c => markdown_char c = false) (sub_markdown text).
Proof.
  unfold sub_markdown. apply Forall_map. apply Forall_forall. intros c _.
  destruct (markdown_char c) eqn:E; [reflexivity|exact E].
Qed.

(** X12: the text that [generate_audio_ultra_fast] sends to the provider is
    the words of the truncated text, markdown characters taken as blanks,
    joined by single spaces: it contains no markdown character, and is never
    longer than the text given nor than 1000 characters. *)
Theorem ultra_fast_text_is_normalised (text : str) :
  ultra_fast_text text
  = join_words (split (sub_markdown (truncate_for_speed text))) /\
  Forall (fun c => markdown_char c = false) (ultra_fast_text text) /\
  List.length (ultra_fast_text text) <= Nat.min (List.length text) 1000.
Proof.
  assert (E : ultra_fast_text text
              = join_words (split (sub_markdown (truncate_for_speed text))))
    by (unfold ultra_fast_text; cbv zeta; apply strip_sub_spaces).
  split; [exact E|split].
  - rewrite E. apply join_words_chars; [reflexivity|].
    apply split_from_chars; [constructor|apply sub_markdown_clean].
  - unfold ultra_fast_text. cbv zeta.
    etransitivity; [apply length_strip|].
    etransitivity; [apply length_sub_spaces|].
    unfold sub_markdown. rewrite length_map. unfold truncate_for_speed.
    destruct (1000 <? List.length text) eqn:L.
    + apply Nat.ltb_lt in L. rewrite length_app, length_firstn.
      cbn [List.length]. lia.
    + apply Nat.ltb_ge in L. lia.
Qed.

End TextCleaningFacts.

Module SentencesFacts.
Import Chunker ChunkerFacts ChunkerBounds TextCleaningFacts Sentences.

Example re_split_example :
  re_split (s "Hi there.  How are you?! Fine")
  = [s "Hi there"; s "."; s "  How are you"; s "?!"; s " Fine"].
Proof. reflexivity. Qed.

Example split_into_sentences_example :
  _split_into_sentences (s "Hi there.  How are you?! Fine")
  = [s "Hi there."; s "How are you?!"].
Proof. reflexivity. Qed.

Lemma run_snoc (r : str) (c : char) :
  terminator c = true -> r = [] \/ run r -> run (r ++ [c]).
Proof.
  intros Hc Hr. split; [now destruct r|].
  apply Forall_app. split; [|now constructor].
  destruct Hr as [->|[_ H]]; [constructor|exact H].
Qed.

Lemma terminator_not_space (c : char) : terminator c = true -> isspace c = false.
Proof.
  unfold terminator. rewrite !orb_true_iff, !N.eqb_eq.
  intros [[H|H]|H]; subst; reflexivity.
Qed.

Lemma re_split_from_alternating (text : str) :
  (forall cur, alternating (re_split_from false cur text)) /\
  (forall cur, run cur ->
     exists r rest, re_split_from true cur text = r :: rest /\
                    run r /\ alternating rest).
Proof.
  induction text as [|c text [IHf IHt]]; (split; [intros cur|intros cur Hcur]);
    simpl.
  - constructor.
  - exists cur, [[]]. split; [reflexivity|split; [exact Hcur|constructor]].
  - destruct (terminator c) eqn:E; [|apply IHf].
    destruct (IHt [c]) as [r [rest [Er [Hr Hrest]]]].
    { split; [discriminate|]. now constructor. }
    rewrite Er. now constructor.
  - destruct (terminator c) eqn:E.
    + apply IHt. apply run_snoc; [exact E|now right].
    + exists cur, (re_split_from false [c] text).
      split; [reflexivity|split; [exact Hcur|apply IHf]].
Qed.

Lemma rstrip_decompose (x : str) : exists t, blanks t /\ x = rstrip x ++ t.
Proof.
  destruct (lstrip_decompose (rev x)) as [t [Ht E]].
  exists (rev t). split; [now apply Forall_rev|].
  unfold rstrip. rewrite <- rev_app_distr, <- E. now rewrite rev_involutive.
Qed.

Lemma lstrip_head_nonspace (x : str) :
  lstrip x = [] \/ exists c y, lstrip x = c :: y /\ isspace c = false.
Proof.
  induction x as [|c x IH]; [now left|]. simpl.
  destruct (isspace c) eqn:E; [exact IH|]. right. eauto.
Qed.

Lemma strip_head_nonspace (x : str) :
  strip x = [] \/ exists c y, strip x = c :: y /\ isspace c = false.
Proof.
  unfold strip. destruct (rstrip_decompose (lstrip x)) as [t [Ht E]].
  destruct (rstrip (lstrip x)) as [|c y] eqn:R; [now left|]. right.
  exists c, y. split; [reflexivity|].
  destruct (lstrip_head_nonspace x) as [H|[c' [y' [H Hc']]]].
  - rewrite H in E. discriminate E.
  - rewrite H in E. simpl in E. now injection E as -> _.
Qed.

Lemma lstrip_strip (x : str) : lstrip (strip x) = strip x.
Proof.
  destruct (strip_head_nonspace x) as [->|[c [y [-> Hc]]]]; [reflexivity|].
  now apply lstrip_head.
Qed.

Lemma run_nonspace (r : str) : run r -> Forall (fun c => isspace c = false) r.
Proof.
  intros [_ H]. eapply Forall_impl; [|exact H].
  intros c. apply terminator_not_space.
Qed.

Lemma sentence_with_terminator (piece r : str) :
  run r -> sentence (strip piece ++ r).
Proof.
  intros Hr. pose proof (run_nonspace Hr) as Hn. split.
  - unfold strip at 1. rewrite lstrip_app_blank, lstrip_strip.
    assert (Hl : lstrip r = r).
    { destruct r as [|c r]; [reflexivity|]. apply lstrip_head.
      now inversion Hn. }
    rewrite Hl.
    assert (Hrs : rstrip r = r) by now apply rstrip_nonspace.
    assert (Tr : truthy r = true).
    { destruct Hr as [Hne _]. now destruct r. }
    destruct (truthy (strip piece)) eqn:T.
    + now rewrite rstrip_app, Hrs, Tr.
    + apply truthy_false in T. now rewrite T.
  - destruct Hr as [Hne Hall]. destruct (exists_last Hne) as [body [c E]].
    exists (strip piece ++ body), c. split; [now rewrite E, app_assoc|].
    rewrite E in Hall. apply Forall_app in Hall. destruct Hall as [_ H].
    now inversion H.
Qed.

Lemma with_terminators_sentences (pieces : list str) :
  alternating pieces -> Forall sentence (with_terminators pieces).
Proof.
  induction 1 as [piece|piece r rest Hr Hrest IH]; simpl; [constructor|].
  constructor; [now apply sentence_with_terminator|exact IH].
Qed.

Lemma sentence_truthy (x : str) : sentence x -> truthy (strip x) = true.
Proof.
  intros [E [body [c [Ex _]]]]. rewrite E, Ex. now destruct body.
Qed.

Lemma split_into_sentences_all (text : str) :
  _split_into_sentences text = with_terminators (re_split text).
Proof.
  unfold _split_into_sentences.
  pose proof (with_terminators_sentences
                (proj1 (re_split_from_alternating text) [])) as H.
  fold (re_split text) in H.
  induction H as [|x l Hx Hl IH]; [reflexivity|]. simpl.
  rewrite (sentence_truthy Hx), IH. destruct Hx as [-> _]. reflexivity.
Qed.

(** X13: every sentence [_split_into_sentences] returns has no white space at
    its ends and ends with a terminator ([.], [!] or [?]); the test that
    drops empty sentences never drops anything, the result is the list of the
    pieces of text with their terminators. *)
Theorem split_into_sentences_gives_sentences (text : str) :
  Forall sentence (_split_into_sentences text) /\
  _split_into_sentences text = with_terminators (re_split text).
Proof.
  split; [|apply split_into_sentences_all].
  rewrite split_into_sentences_all. apply with_terminators_sentences.
  apply (proj1 (re_split_from_alternating text)).
Qed.

Lemma re_split_from_plain (tail : str) :
  Forall (fun c => terminator c = false) tail ->
  (forall cur, re_split_from false cur tail = [cur ++ tail]) /\
  (forall cur, re_split_from true cur tail = [cur; tail]).
Proof.
  induction 1 as [|c tail Hc Htail [IHf IHt]]; (split; intros cur); simpl.
  - now rewrite app_nil_r.
  - reflexivity.
  - rewrite Hc, IHf, <- app_assoc. reflexivity.
  - rewrite Hc, IHf. reflexivity.
Qed.

Lemma re_split_from_tail (tail : str) :
  Forall (fun c => terminator c = false) tail ->
  forall text,
    (forall cur, exists init p,
        re_split_from false cur text = init ++ [p] /\
        re_split_from false cur (text ++ tail) = init ++ [p ++ tail] /\
        forall q q', with_terminators (init ++ [q])
                     = with_terminators (init ++ [q'])) /\
    (forall cur, exists init p,
        re_split_from true cur text = init ++ [p] /\
        re_split_from true cur (text ++ tail) = init ++ [p ++ tail] /\
        forall x q q', with_terminators (x :: init ++ [q])
                       = with_terminators (x :: init ++ [q'])).
Proof.
  intros Htail. destruct (re_split_from_plain Htail) as [Pf Pt].
  induction text as [|c text [IHf IHt]]; (split; intros cur); simpl.
  - exists [], cur. rewrite Pf. repeat split.
  - exists [cur], []. rewrite Pt. repeat split.
  - destruct (terminator c).
    + destruct (IHt [c]) as [init [p [E1 [E2 H]]]].
      exists (cur :: init), p. rewrite E1, E2.
      split; [reflexivity|split; [reflexivity|]].
      intros q q'. apply (H cur q q').
    + apply IHf.
  - destruct (terminator c).
    + apply IHt.
    + destruct (IHf [c]) as [init [p [E1 [E2 H]]]].
      exists (cur :: init), p. rewrite E1, E2.
      split; [reflexivity|split; [reflexivity|]].
      intros x q q'. simpl. f_equal. apply H.
Qed.

(** X14: [_split_into_sentences] drops the text after the last terminator:
    appending text without [.], [!] or [?] does not change the result. *)
Theorem split_into_sentences_drops_the_unfinished_tail (text tail : str) :
  Forall (fun c => terminator c = false) tail ->
  _split_into_sentences (text ++ tail) = _split_into_sentences text.
Proof.
  intros Htail. unfold _split_into_sentences, re_split.
  destruct (proj1 (re_split_from_tail Htail text) []) as [init [p [E1 [E2 H]]]].
  rewrite E1, E2. f_equal. apply H.
Qed.

Lemma split_into_sentences_drops_the_unfinished_tail_witness :
  _split_into_sentences (s "One. Two" ++ s " and a half")
  = _split_into_sentences (s "One. Two").
Proof.
  apply (@split_into_sentences_drops_the_unfinished_tail
           (s "One. Two") (s " and a half")).
  repeat constructor.
Defined.

Lemma length_rstrip (x : str) : List.length (rstrip x) <= List.length x.
Proof.
  unfold rstrip. rewrite length_rev.
  etransitivity; [apply length_lstrip|]. now rewrite length_rev.
Qed.

Lemma strip_trailing_space (y : str) :
  List.length (strip (y ++ [space])) <= List.length y.
Proof.
  unfold strip. rewrite lstrip_app_blank.
  destruct (truthy (lstrip y)).
  - rewrite rstrip_app. change (rstrip [space]) with (@nil char). simpl.
    etransitivity; [apply length_rstrip|apply length_lstrip].
  - simpl. lia.
Qed.

Lemma take_sentences_within (limit : Z) (sentences : list str) :
  forall truncated,
    truncated = [] \/
    (exists y, truncated = y ++ [space] /\ (Z.of_nat (List.length y) <= limit)%Z) ->
    take_sentences limit sentences truncated = [] \/
    exists y, take_sentences limit sentences truncated = y ++ [space] /\
              (Z.of_nat (List.length y) <= limit)%Z.
Proof.
  induction sentences as [|x sentences IH]; intros truncated H; simpl;
    [exact H|].
  destruct (_ <=? limit)%Z eqn:E; [|exact H].
  apply IH. right. exists (truncated ++ x).
  split; [now rewrite <- app_assoc|]. now apply Z.leb_le.
Qed.

Lemma take_sentences_whole (limit : Z) (sentences : list str) :
  forall truncated, exists k,
    take_sentences limit sentences truncated
    = truncated ++ List.concat (map (fun x => x ++ [space]) (firstn k sentences)).
Proof.
  induction sentences as [|x sentences IH]; intros truncated; simpl.
  - exists 0. now rewrite app_nil_r.
  - destruct (_ <=? limit)%Z.
    + destruct (IH (truncated ++ x ++ [space])) as [k E].
      exists (S k). rewrite E. simpl. now rewrite <- !app_assoc.
    + exists 0. now rewrite app_nil_r.
Qed.

(** X15: [_truncate_paragraph] returns at most [max_length - 10] characters
    (nothing when that is negative), and what it returns is the first [k]
    sentences of the paragraph, for some [k], separated by single spaces:
    no sentence is cut. *)
Theorem truncate_paragraph_keeps_whole_sentences_within_the_limit
        (paragraph : str) (max_length : Z) :
  (Z.of_nat (List.length (_truncate_paragraph paragraph max_length))
   <= Z.max 0 (max_length - 10))%Z /\
  exists k,
    _truncate_paragraph paragraph max_length
    = strip (List.concat (map (fun x => x ++ [space])
                              (firstn k (_split_into_sentences paragraph)))).
Proof.
  unfold _truncate_paragraph. split.
  - destruct (@take_sentences_within (max_length - 10)
                (with_terminators (re_split paragraph)) [] (or_introl eq_refl))
      as [->|[y [-> Hy]]]; [simpl; lia|].
    pose proof (strip_trailing_space y). lia.
  - rewrite split_into_sentences_all.
    destruct (take_sentences_whole (max_length - 10)
                (with_terminators (re_split paragraph)) []) as [k E].
    exists k. now rewrite E.
Qed.

End SentencesFacts.

Module DirectStreamFacts.
Import DirectStream.

Lemma max_chunk_size_positive : 0 < max_chunk_size.
Proof. unfold max_chunk_size. lia. Qed.

Lemma drain_spec (fuel : nat) (audio_buffer : bytes) :
  List.length audio_buffer <= fuel ->
  List.concat (fst (drain fuel audio_buffer)) ++ snd (drain fuel audio_buffer)
  = audio_buffer /\
  Forall (fun c => List.length c = max_chunk_size) (fst (drain fuel audio_buffer)) /\
  List.length (snd (drain fuel audio_buffer)) < max_chunk_size.
Proof.
  pose proof max_chunk_size_positive as Hpos.
  revert audio_buffer. induction fuel as [|fuel IH]; intros b Hb.
  - cbn [drain fst snd List.concat app].
    destruct b; [|cbn [List.length] in Hb; lia]. auto.
  - cbn [drain]. destruct (max_chunk_size <=? List.length b) eqn:E.
    + apply Nat.leb_le in E.
      destruct (IH (skipn max_chunk_size b)) as [H1 [H2 H3]].
      { rewrite length_skipn. lia. }
      destruct (drain fuel (skipn max_chunk_size b)) as [smalls rest].
      cbn [fst snd List.concat] in *. split; [|split].
      * rewrite <- app_assoc, H1. apply firstn_skipn.
      * constructor; [|exact H2]. rewrite length_firstn. lia.
      * exact H3.
    + apply Nat.leb_gt in E. cbn [fst snd List.concat app]. auto.
Qed.

Lemma gen_yields_yields (cs : list bytes) (k : gen) :
  gen_yields (fold_right Yield k cs) = cs ++ gen_yields k.
Proof. induction cs; simpl; [reflexivity|now f_equal]. Qed.

Lemma gen_raises_yields (cs : list bytes) (k : gen) :
  gen_raises (fold_right Yield k cs) = gen_raises k.
Proof. induction cs; simpl; auto. Qed.

Lemma gen_calls_yields (cs : list bytes) (k : gen) :
  gen_calls (fold_right Yield k cs) = gen_calls k.
Proof. induction cs; simpl; auto. Qed.

(** The chunks of the receive loop: full chunks and then at most one shorter,
    non-empty one; together with the bytes buffered before, the audio
    received. *)
Lemma receive_regular (resps : list tts_resp) :
  forall audio_buffer,
    List.length audio_buffer < max_chunk_size ->
    gen_raises (receive resps EndOk audio_buffer) = None /\
    gen_calls (receive resps EndOk audio_buffer) = [] /\
    List.concat (gen_yields (receive resps EndOk audio_buffer))
    = audio_buffer ++ List.concat (tts_audios resps) /\
    exists full last,
      gen_yields (receive resps EndOk audio_buffer) = full ++ last /\
      Forall (fun c => List.length c = max_chunk_size) full /\
      (last = [] \/
       exists c, last = [c] /\ 1 <= List.length c < max_chunk_size).
Proof.
  induction resps as [|r resps IH]; intros b Hb.
  - cbn [receive tts_audios flat_map List.concat].
    rewrite gen_raises_yield_if_nonempty, gen_calls_yield_if_nonempty,
      gen_yields_yield_if_nonempty.
    cbn [gen_raises gen_calls gen_yields]. rewrite !app_nil_r.
    split; [reflexivity|split; [reflexivity|]].
    destruct b as [|x b]; cbn [nonempty List.concat app].
    + split; [reflexivity|]. exists [], []. auto.
    + split; [now rewrite app_nil_r|]. exists [], [x :: b].
      split; [reflexivity|split; [constructor|]]. right.
      exists (x :: b). split; [reflexivity|]. cbn [List.length] in *. lia.
  - destruct r as [large|]; [|apply IH; exact Hb].
    cbn [receive tts_audios flat_map]. cbv zeta.
    destruct (nonempty large) eqn:En.
    + destruct (@drain_spec (List.length (b ++ large)) (b ++ large) (le_n _))
        as [H1 [H2 H3]].
      destruct (drain (List.length (b ++ large)) (b ++ large)) as [smalls rest].
      cbn [fst snd] in H1, H2, H3.
      destruct (IH rest H3) as [R [C [Y [full [last [E [Hf Hl]]]]]]].
      rewrite gen_raises_yields, gen_calls_yields, gen_yields_yields.
      split; [exact R|split; [exact C|split]].
      * rewrite concat_app, Y, app_assoc, H1.
        cbn [app List.concat]. now rewrite <- app_assoc.
      * exists (smalls ++ full), last. rewrite E, app_assoc.
        split; [reflexivity|split; [|exact Hl]].
        apply Forall_app. auto.
    + destruct large; [|discriminate En]. cbn [app]. now apply IH.
Qed.

(** X16: when the Sarvam stream ends without an exception,
    [_stream_audio_direct] makes the one streaming request and yields the
    audio received, byte for byte and in order, cut into chunks of exactly
    8192 bytes followed by at most one shorter, non-empty chunk. *)
Theorem stream_audio_direct_rechunks_without_loss (w : providers) :
  sv_end w = EndOk ->
  gen_calls (_stream_audio_direct w) = [SarvamStream] /\
  List.concat (gen_yields (_stream_audio_direct w))
  = List.concat (tts_audios (sv_resps w)) /\
  exists full last,
    gen_yields (_stream_audio_direct w) = full ++ last /\
    Forall (fun c => List.length c = max_chunk_size) full /\
    (last = [] \/ exists c, last = [c] /\ 1 <= List.length c < max_chunk_size).
Proof.
  intros Hend. unfold _stream_audio_direct. rewrite Hend.
  destruct (@receive_regular (sv_resps w) [] max_chunk_size_positive)
    as [R [C [Y E]]].
  rewrite gen_calls_catch, gen_yields_catch. simpl gen_raises. rewrite R.
  simpl gen_calls. simpl gen_yields. rewrite C, !app_nil_r.
  split; [reflexivity|split; [exact Y|exact E]].
Qed.

Lemma stream_audio_direct_rechunks_without_loss_witness :
  gen_calls (_stream_audio_direct Scenario.healthy) = [SarvamStream] /\
  List.concat (gen_yields (_stream_audio_direct Scenario.healthy))
  = List.concat (tts_audios (sv_resps Scenario.healthy)).
Proof.
  destruct (@stream_audio_direct_rechunks_without_loss Scenario.healthy eq_refl)
    as [H1 [H2 _]].
  split; [exact H1|exact H2].
Defined.

End DirectStreamFacts.

Module DirectStreamFallback.
Import DirectStream DirectStreamFacts.

Lemma chunk_size_positive : 0 < chunk_size.
Proof. unfold chunk_size. lia. Qed.

Lemma slices_spec (fuel : nat) (audio_bytes : bytes) :
  List.length audio_bytes <= fuel ->
  List.concat (slices fuel audio_bytes) = audio_bytes /\
  Forall (fun c => 1 <= List.length c <= chunk_size) (slices fuel audio_bytes).
Proof.
  pose proof chunk_size_positive as Hpos.
  revert audio_bytes. induction fuel as [|fuel IH]; intros b Hb.
  - destruct b; [|cbn [List.length] in Hb; lia]. split; [reflexivity|constructor].
  - cbn [slices]. destruct b as [|x b]; [split; [reflexivity|constructor]|].
    destruct (IH (skipn chunk_size (x :: b))) as [H1 H2].
    { rewrite length_skipn. cbn [List.length] in *. lia. }
    split.
    + cbn [List.concat]. rewrite H1. apply firstn_skipn.
    + constructor; [|exact H2]. rewrite length_firstn.
      cbn [List.length]. lia.
Qed.

Lemma receive_failed (e : exn) (resps : list tts_resp) :
  forall audio_buffer,
    gen_raises (receive resps (EndRaise e) audio_buffer) = Some e /\
    gen_calls (receive resps (EndRaise e) audio_buffer) = [] /\
    Forall (fun c => List.length c = max_chunk_size)
           (gen_yields (receive resps (EndRaise e) audio_buffer)).
Proof.
  induction resps as [|r resps IH]; intros b.
  - cbn [receive gen_raises gen_calls gen_yields]. auto.
  - destruct r as [large|]; [|apply IH].
    cbn [receive]. cbv zeta. destruct (nonempty large); [|apply IH].
    destruct (@drain_spec (List.length (b ++ large)) (b ++ large) (le_n _))
      as [_ [H2 _]].
    destruct (drain (List.length (b ++ large)) (b ++ large)) as [smalls rest].
    cbn [fst] in H2. destruct (IH rest) as [R [C Y]].
    rewrite gen_raises_yields, gen_calls_yields, gen_yields_yields.
    split; [exact R|split; [exact C|]]. apply Forall_app. auto.
Qed.

(** X17: when the Sarvam stream raises, [_stream_audio_direct] lets no
    exception out and makes a second, whole-text request; it yields the full
    8192-byte chunks it had streamed before the failure and then the whole
    regenerated audio in slices of at most 4096 bytes, none empty. *)
Theorem stream_audio_direct_falls_back_in_slices (w : providers) (e : exn) :
  sv_end w = EndRaise e ->
  gen_raises (_stream_audio_direct w) = None /\
  gen_calls (_stream_audio_direct w) = [SarvamStream; SarvamSingle] /\
  exists streamed resynthesized,
    gen_yields (_stream_audio_direct w) = streamed ++ resynthesized /\
    Forall (fun c => List.length c = max_chunk_size) streamed /\
    Forall (fun c => 1 <= List.length c <= chunk_size) resynthesized /\
    List.concat resynthesized = snd (SarvamService.generate_audio_ultra_fast w).
Proof.
  intros Hend. unfold _stream_audio_direct. rewrite Hend.
  destruct (receive_failed e (sv_resps w) []) as [R [C Y]].
  rewrite gen_raises_catch, gen_calls_catch, gen_yields_catch.
  cbn [gen_raises gen_calls gen_yields]. rewrite R, C.
  rewrite gen_raises_catch, gen_calls_catch, gen_yields_catch.
  unfold fallback, SarvamService.generate_audio_ultra_fast.
  cbn [fold_right gen_raises gen_calls gen_yields snd].
  set (audio := match sv_single w with
                | SingleAudio audio => audio
                | SingleRaised => []
                | SingleTimeout => []
                end).
  destruct (@slices_spec (List.length audio) audio (le_n _)) as [S1 S2].
  assert (G : gen_raises (if nonempty audio
                          then fold_right Yield Done
                                 (slices (List.length audio) audio)
                          else Done) = None).
  { destruct (nonempty audio); [|reflexivity]. now rewrite gen_raises_yields. }
  rewrite G. split; [reflexivity|]. split.
  { destruct (nonempty audio); [|reflexivity].
    now rewrite gen_calls_yields. }
  exists (gen_yields (receive (sv_resps w) (EndRaise e) [])),
         (slices (List.length audio) audio).
  split; [|split; [exact Y|split; [exact S2|exact S1]]].
  rewrite !app_nil_r. f_equal.
  destruct audio as [|x audio'] eqn:Ea; [reflexivity|].
  cbn [nonempty]. now rewrite gen_yields_yields, app_nil_r.
Qed.

Lemma stream_audio_direct_falls_back_in_slices_witness :
  gen_raises (_stream_audio_direct Scenario.fails_mid_stream) = None /\
  gen_calls (_stream_audio_direct Scenario.fails_mid_stream)
  = [SarvamStream; SarvamSingle].
Proof.
  destruct (@stream_audio_direct_falls_back_in_slices
              Scenario.fails_mid_stream (Exception_ "stream reset") eq_refl)
    as [H1 [H2 _]].
  split; [exact H1|exact H2].
Defined.

End DirectStreamFallback.

Module ConnectionStateMonitorFacts.
Import ConnectionStateMonitor.

Lemma run_calls_counters (calls : list call) :
  forall self,
    chunks_sent (fold_left apply_call calls self)
    = chunks_sent self + List.length (chunk_sizes calls) /\
    bytes_sent (fold_left apply_call calls self)
    = (bytes_sent self + fold_right Z.add 0 (chunk_sizes calls))%Z /\
    normal_disconnections (fold_left apply_call calls self)
    = normal_disconnections self
      + List.length (filter ConnectionMonitor.is_normal_closure
                            (disconnections calls)) /\
    error_disconnections (fold_left apply_call calls self)
    = error_disconnections self
      + List.length (filter ConnectionMonitor.is_abnormal_disconnection
                            (disconnections calls)).
Proof.
  induction calls as [|c calls IH]; intros self.
  - simpl. repeat split; lia.
  - cbn [fold_left]. destruct (IH (apply_call self c)) as [H1 [H2 [H3 H4]]].
    rewrite H1, H2, H3, H4. destruct c as [n|e]; cbn [apply_call].
    + change (chunk_sizes (RecordChunkSent n :: calls))
        with (n :: chunk_sizes calls).
      change (disconnections (RecordChunkSent n :: calls))
        with (disconnections calls).
      unfold record_chunk_sent. simpl. repeat split; lia.
    + change (chunk_sizes (RecordDisconnection e :: calls))
        with (chunk_sizes calls).
      change (disconnections (RecordDisconnection e :: calls))
        with (e :: disconnections calls).
      unfold record_disconnection. cbn [filter].
      unfold ConnectionMonitor.is_abnormal_disconnection at 2.
      destruct (ConnectionMonitor.is_normal_closure e); simpl;
        repeat split; lia.
Qed.

Lemma filter_partition_length (A : Type) (f : A -> bool) (l : list A) :
  List.length (filter f l) + List.length (filter (fun x => negb (f x)) l)
  = List.length l.
Proof.
  induction l as [|x l IH]; [reflexivity|]. cbn [filter].
  destruct (f x); cbn [negb List.length]; lia.
Qed.

(** X18: after any sequence of [record_chunk_sent] and
    [record_disconnection] calls on a new [ConnectionStateMonitor],
    [chunks_sent] is the number of chunks recorded, [bytes_sent] the sum of
    their sizes, [normal_disconnections] the number of recorded exceptions
    that are normal closures, and the [total_disconnections] of [get_metrics]
    the number of exceptions recorded. *)
Theorem monitor_counts_what_was_recorded (calls : list call) :
  chunks_sent (after_calls calls) = List.length (chunk_sizes calls) /\
  bytes_sent (after_calls calls) = fold_right Z.add 0%Z (chunk_sizes calls) /\
  normal_disconnections (after_calls calls)
  = List.length (filter ConnectionMonitor.is_normal_closure
                        (disconnections calls)) /\
  total_disconnections (after_calls calls)
  = List.length (disconnections calls).
Proof.
  unfold after_calls. destruct (run_calls_counters calls init) as [H1 [H2 [H3 H4]]].
  unfold total_disconnections. rewrite H1, H2, H3, H4.
  cbn [init chunks_sent bytes_sent normal_disconnections error_disconnections].
  split; [lia|split; [lia|split; [lia|]]].
  apply (filter_partition_length ConnectionMonitor.is_normal_closure).
Qed.

End ConnectionStateMonitorFacts.

(* ================================================================== *)
(** * The basic handler *)
(* ================================================================== *)

Lemma basic_turn_open (m : inbound) (st : session) :
  sends_left st = None ->
  basic_turn m st = (Ok Continue, sent [basic_reply m] st).
Proof.
  intros Hopen. unfold basic_turn, try_. unfold bind at 1.
  rewrite recv_open by (rewrite Hopen; discriminate).
  assert (Hcan : can_send st 1) by (unfold can_send; now rewrite Hopen).
  destruct m as [err|err|d e]; cbn [basic_reply].
  - unfold raise. cbn [isinstance_ConnectionClosed]. unfold bind.
    now rewrite send_can.
  - unfold raise. cbn [isinstance_ConnectionClosed exn_str].
    unfold except_ConnectionClosed, try_, bind. now rewrite send_can.
  - destruct (negb (truthy_opt (d_type d))).
    + unfold bind. now rewrite send_can.
    + cbv zeta. destruct (String.eqb _ "ping"); unfold bind;
        now rewrite send_can.
Qed.

Lemma basic_loop_open (inbox : list inbound) :
  forall st, sends_left st = None ->
    basic_loop inbox st = (Ok tt, sent (map basic_reply inbox) st).
Proof.
  induction inbox as [|m inbox IH]; intros st Hopen.
  - simpl. now rewrite sent_nil.
  - cbn [basic_loop map]. unfold bind at 1.
    rewrite basic_turn_open by exact Hopen.
    rewrite IH by (unfold sent; simpl; now rewrite Hopen).
    now rewrite sent_app.
Qed.

(** X19: on an open socket the basic handler, used when the services are not
    available, greets the client with [connection_ready] (no service), and
    then answers every message with exactly one event: [pong] to a ping, an
    error event to everything else; it serves the whole inbox. *)
Theorem basic_handler_answers_every_message
        (inbox : list inbound) (st : session) :
  sends_left st = None ->
  basic_websocket_handler inbox st
  = (Ok tt,
     sent (Connection_ready false false false :: map basic_reply inbox) st).
Proof.
  intros Hopen. unfold basic_websocket_handler, bind.
  rewrite send_can by (unfold can_send; now rewrite Hopen).
  rewrite basic_loop_open by (unfold sent; simpl; now rewrite Hopen).
  now rewrite sent_app.
Qed.

Lemma basic_handler_answers_every_message_witness :
  basic_websocket_handler
    [Request (Scenario.request "ping") (Scenario.env_of Scenario.healthy);
     Request (Scenario.request "audio_only") (Scenario.env_of Scenario.healthy);
     NotJson "Expecting value"]
    (new_session None Scenario.going_away)
  = (Ok tt,
     Session [Connection_ready false false false; Pong;
              Error "Service not available in basic mode: audio_only";
              Error "Invalid JSON message"]
             None Scenario.going_away 4 (Metrics 0 0 0 0 0) "en-IN" []).
Proof.
  apply (@basic_handler_answers_every_message
           [Request (Scenario.request "ping") (Scenario.env_of Scenario.healthy);
            Request (Scenario.request "audio_only")
                    (Scenario.env_of Scenario.healthy);
            NotJson "Expecting value"]
           (new_session None Scenario.going_away) eq_refl).
Defined.

Module CourseDataFacts.
Import CourseData.

Lemma search_courses (wanted : string) (cs : list course) :
  search wanted (map ElemCourse cs) = Ok (find (has_id wanted) cs).
Proof.
  induction cs as [|c cs IH]; [reflexivity|]. simpl.
  destruct (has_id wanted c); [reflexivity|exact IH].
Qed.

(** X21: from a course file that is a non-empty list of course objects, a
    request with a course id always gets a course that carries exactly that
    id: the first course whose id matches, or, when none matches, the first
    course of the file relabelled with the requested id. *)
Theorem loaded_course_carries_the_requested_id
        (cs : list course) (first : course) (wanted : string) :
  _load_course_data_async (Some (Some (FileList (map ElemCourse (first :: cs)))))
                          (Some wanted)
  = Loaded (set_course_id wanted
              match find (has_id wanted) (first :: cs) with
              | Some c => c
              | None => first
              end).
Proof.
  unfold _load_course_data_async. rewrite search_courses.
  destruct (find (has_id wanted) (first :: cs)); reflexivity.
Qed.

(** X22: [start_class] when the course file holds an empty list, on an open
    socket: the loader returns [None], so after [class_starting] the client
    gets the error event of the course loading step with the attribute error
    of [None]; no error is counted. *)
Theorem start_class_on_an_empty_course_list
        (self : agent) (d : data) (e : env) (st : session)
        (wanted : option string) :
  sends_left st = None ->
  course_file_exists e = true ->
  course_outcome e
  = modules_of (_load_course_data_async (Some (Some (FileList []))) wanted) ->
  handle_start_class self d e st
  = (Ok tt,
     sent [Class_starting (d_course_id d) (get_or (d_module_index d) 0)
                          (get_or (d_sub_topic_index d) 0) (request_id_of d);
           Error ("Failed to load course content: " ++
                  "'NoneType' object has no attribute 'get'")] st).
Proof.
  intros Hopen Hfile Hcourse.
  assert (E : _load_course_data_async (Some (Some (FileList []))) wanted
              = LoadedNone) by now destruct wanted.
  rewrite E in Hcourse. unfold handle_start_class. rewrite Hfile, Hcourse.
  destruct st as [dl sl c mc m lang pc]. simpl in Hopen. subst sl.
  unfold sent. run_m. same_session.
Qed.

Lemma start_class_on_an_empty_course_list_witness :
  handle_start_class Scenario.sarvam_agent (Scenario.request "start_class")
    (Env (Ok "answer") None (Ok "transcript") true
         (modules_of (_load_course_data_async (Some (Some (FileList []))) None))
         (Ok "lesson") Scenario.healthy)
    (new_session None Scenario.going_away)
  = (Ok tt,
     Session [Class_starting None 0 0 "r1";
              Error ("Failed to load course content: " ++
                     "'NoneType' object has no attribute 'get'")]
             None Scenario.going_away 2 (Metrics 0 0 0 0 0) "en-IN" []).
Proof.
  apply (@start_class_on_an_empty_course_list Scenario.sarvam_agent
           (Scenario.request "start_class")
           (Env (Ok "answer") None (Ok "transcript") true
                (modules_of (_load_course_data_async
                               (Some (Some (FileList []))) None))
                (Ok "lesson") Scenario.healthy)
           (new_session None Scenario.going_away) None
           eq_refl eq_refl eq_refl).
Defined.

End CourseDataFacts.

Lemma audio_payloads_number_chunks (rid : string) (cs : list bytes) (n : nat)
      (f : bool) :
  audio_payloads (number_chunks rid cs n f) = cs.
Proof.
  revert n f. induction cs as [|c cs IH]; intros n f; [reflexivity|].
  simpl. now rewrite IH.
Qed.

Lemma audio_sizes_number_chunks (rid : string) (cs : list bytes) (n : nat)
      (f : bool) :
  audio_sizes (number_chunks rid cs n f) = map (@List.length _) cs.
Proof.
  revert n f. induction cs as [|c cs IH]; intros n f; [reflexivity|].
  simpl. now rewrite IH.
Qed.

Lemma count_number_chunks (rid : string) (cs : list bytes) (n : nat) (f : bool) :
  count is_audio_chunk (number_chunks rid cs n f) = List.length cs.
Proof.
  unfold count. revert n f.
  induction cs as [|c cs IH]; intros n f; [reflexivity|].
  simpl. now rewrite IH.
Qed.

Lemma concat_nonempty (ys : list bytes) :
  List.concat (filter nonempty ys) = List.concat ys.
Proof.
  induction ys as [|y ys IH]; [reflexivity|].
  simpl. destruct y as [|b y]; simpl; [exact IH|now rewrite IH].
Qed.

(** X23: when a StreamJob sends its completion event, the totals the event
    reports are those of the chunks the client received in this job:
    [total_chunks] is the number of [audio_chunk] events, [total_size] the
    sum of their [size] fields, and the payloads put together are the audio
    of the provider stream, byte for byte. *)
Theorem completion_totals_match_the_chunks
        (self : agent) (w : providers) (rid prefix : string) (st : session)
        (n sz : nat) :
  In (Audio_generation_complete n sz rid)
     (new_events st (snd (stream_job self w rid prefix st))) ->
  n = count is_audio_chunk (new_events st (snd (stream_job self w rid prefix st))) /\
  sz = list_sum (audio_sizes
                   (new_events st (snd (stream_job self w rid prefix st)))) /\
  List.concat (audio_payloads
                 (new_events st (snd (stream_job self w rid prefix st))))
  = List.concat (gen_yields (audio_stream self w)).
Proof.
  destruct (audio_service self) as [svc|] eqn:Hsvc.
  - assert (Hcases : can_send st (List.length (job_chunks self w) + 1) \/
                     exists b, sends_left st = Some b /\
                               b <= List.length (job_chunks self w)).
    { unfold can_send. destruct (sends_left st) as [b|]; [|now left].
      destruct (le_lt_dec (List.length (job_chunks self w) + 1) b);
        [now left|right; exists b; split; [reflexivity|lia]]. }
    destruct Hcases as [Hcan | [b [Hb Hle]]].
    + rewrite (@stream_job_complete self w rid prefix st svc Hsvc Hcan).
      cbn [snd]. rewrite new_events_called_sent. intros Hin.
      apply in_app_or in Hin. destruct Hin as [Hin | [Hin | []]].
      { exfalso. revert Hin. apply complete_not_chunk, number_chunks_audio. }
      injection Hin as <- <-.
      unfold count, audio_sizes, audio_payloads.
      rewrite filter_app, length_app, !flat_map_app.
      fold (count is_audio_chunk (job_events self w rid)).
      fold (audio_sizes (job_events self w rid)).
      fold (audio_payloads (job_events self w rid)).
      unfold job_events.
      rewrite count_number_chunks, audio_sizes_number_chunks,
        audio_payloads_number_chunks.
      cbn [filter is_audio_chunk List.length flat_map app].
      rewrite !app_nil_r, Nat.add_0_r.
      split; [reflexivity|split; [reflexivity|]].
      unfold job_chunks, gen_audio. apply concat_nonempty.
    + destruct (@stream_job_cut_short self w rid prefix st svc b Hsvc Hb Hle)
        as [calls E].
      rewrite E. cbn [snd]. unfold new_events, cut_short. cbn [delivered].
      rewrite skipn_length_app. intros Hin. exfalso. revert Hin.
      apply complete_not_chunk, Forall_firstn, number_chunks_audio.
  - intros Hin. exfalso. revert Hin.
    unfold stream_job, audio_stream. rewrite Hsvc.
    unfold new_events. destruct st as [dl [[|k]|] c mc m lang p]; cbn;
      rewrite ?isinstance_closure_exn; cbn;
      rewrite ?skipn_length_app, ?skipn_all; cbn; intuition discriminate.
Qed.

Lemma completion_totals_match_the_chunks_witness :
  2 = count is_audio_chunk
        (new_events (new_session None Scenario.abnormal)
           (snd (stream_job Scenario.sarvam_agent Scenario.healthy "r1" "x"
                   (new_session None Scenario.abnormal)))) /\
  3 = list_sum (audio_sizes
        (new_events (new_session None Scenario.abnormal)
           (snd (stream_job Scenario.sarvam_agent Scenario.healthy "r1" "x"
                   (new_session None Scenario.abnormal))))) /\
  List.concat (audio_payloads
        (new_events (new_session None Scenario.abnormal)
           (snd (stream_job Scenario.sarvam_agent Scenario.healthy "r1" "x"
                   (new_session None Scenario.abnormal)))))
  = List.concat (gen_yields (audio_stream Scenario.sarvam_agent Scenario.healthy)).
Proof.
  apply (@completion_totals_match_the_chunks Scenario.sarvam_agent
           Scenario.healthy "r1" "x" (new_session None Scenario.abnormal) 2 3).
  vm_compute. right. right. left. reflexivity.
Defined.

Module FastAudioFacts.
Import Chunker ChunkerFacts ChunkerBounds TextCleaning TextCleaningFacts FastAudio.

Lemma single_spaced_sub_spaces (b : bool) (x : str) :
  single_spaced b (sub_spaces b x) = true.
Proof.
  revert b. induction x as [|c x IH]; intros b; [reflexivity|].
  cbn [sub_spaces]. destruct (isspace c) eqn:E.
  - destruct b; [apply IH|]. cbn [single_spaced].
    rewrite space_isspace, N.eqb_refl. cbn [negb andb]. apply IH.
  - cbn [single_spaced]. rewrite E. apply IH.
Qed.

Lemma sub_spaces_single_spaced (b : bool) (x : str) :
  single_spaced b x = true -> sub_spaces b x = x.
Proof.
  revert b. induction x as [|c x IH]; intros b; [reflexivity|].
  cbn [single_spaced sub_spaces]. destruct (isspace c).
  - rewrite !andb_true_iff, N.eqb_eq, negb_true_iff.
    intros [[-> ->] H]. now rewrite (IH true H).
  - intros H. now rewrite (IH false H).
Qed.

Lemma single_spaced_prefix (b : bool) (x z : str) :
  single_spaced b (x ++ z) = true -> single_spaced b x = true.
Proof.
  revert b. induction x as [|c x IH]; intros b; [reflexivity|].
  cbn [app single_spaced]. destruct (isspace c).
  - rewrite !andb_true_iff. intros [H1 H2]. split; [exact H1|].
    now apply IH.
  - apply IH.
Qed.

Lemma single_spaced_snoc (b : bool) (x : str) (d : char) :
  isspace d = false ->
  single_spaced b x = true -> single_spaced b (x ++ [d]) = true.
Proof.
  intros Hd. revert b. induction x as [|c x IH]; intros b.
  - intros _. cbn [app single_spaced]. now rewrite Hd.
  - cbn [app single_spaced]. destruct (isspace c).
    + rewrite !andb_true_iff. intros [H1 H2]. split; [exact H1|].
      now apply IH.
    + apply IH.
Qed.

Lemma single_spaced_truncate_hard (x : str) :
  single_spaced false x = true -> single_spaced false (truncate_hard x) = true.
Proof.
  intros H. unfold truncate_hard.
  destruct (8000 <? Z.of_nat (List.length x))%Z; [|exact H].
  apply single_spaced_snoc; [reflexivity|].
  apply (@single_spaced_prefix false _ (skipn (Z.to_nat 7500) x)).
  now rewrite firstn_skipn.
Qed.

(** A text whose white space is single spaces only, stripped, is its words
    joined by single spaces. *)
Lemma strip_single_spaced (x : str) :
  single_spaced false x = true ->
  strip x = join_words (split x) /\ strip x = join_words (split (strip x)).
Proof.
  intros H. assert (E : strip x = join_words (split x)).
  { rewrite <- (sub_spaces_single_spaced H) at 1. apply strip_sub_spaces. }
  split; [exact E|]. now rewrite split_strip.
Qed.

Section Characters.

Variable P : char -> Prop.
Hypothesis P_space : P space.
Hypothesis P_full_stop : P full_stop.
Hypothesis P_dash : P dash.

Lemma sub_dots_chars (b : bool) (x : str) :
  Forall P x -> Forall P (sub_dots b x).
Proof.
  intros H. revert b. induction H as [|c x Hc Hx IH]; intros b; [constructor|].
  cbn [sub_dots]. destruct (c =? full_stop)%N.
  - destruct b; [apply IH|]. constructor; [exact P_full_stop|apply IH].
  - constructor; [exact Hc|apply IH].
Qed.

Lemma sub_dashes_chars (seen : dashes) (x : str) :
  Forall P x -> Forall P (sub_dashes seen x).
Proof.
  intros H. revert seen.
  induction H as [|c x Hc Hx IH]; intros seen; cbn [sub_dashes].
  - destruct seen; repeat constructor. exact P_dash.
  - destruct (c =? dash)%N; destruct seen;
      repeat (constructor; try assumption); apply IH.
Qed.

Lemma sub_spaces_chars (b : bool) (x : str) :
  Forall P x -> Forall P (sub_spaces b x).
Proof.
  intros H. revert b. induction H as [|c x Hc Hx IH]; intros b; [constructor|].
  cbn [sub_spaces]. destruct (isspace c).
  - destruct b; [apply IH|]. constructor; [exact P_space|apply IH].
  - constructor; [exact Hc|apply IH].
Qed.

Lemma lstrip_chars (x : str) : Forall P x -> Forall P (lstrip x).
Proof.
  induction 1 as [|c x Hc Hx IH]; [constructor|]. cbn [lstrip].
  destruct (isspace c); [exact IH|now constructor].
Qed.

Lemma strip_chars (x : str) : Forall P x -> Forall P (strip x).
Proof.
  intros H. unfold strip, rstrip.
  apply Forall_rev, lstrip_chars, Forall_rev, lstrip_chars, H.
Qed.

Lemma truncate_hard_chars (x : str) :
  Forall P x -> Forall P (truncate_hard x).
Proof.
  intros H. unfold truncate_hard.
  destruct (8000 <? Z.of_nat (List.length x))%Z; [|exact H].
  apply Forall_app. split; [now apply Forall_firstn|].
  constructor; [exact P_full_stop|constructor].
Qed.

End Characters.

Lemma length_sub_dots (b : bool) (x : str) :
  List.length (sub_dots b x) <= List.length x.
Proof.
  revert b. induction x as [|c x IH]; intros b; [reflexivity|].
  cbn [sub_dots]. pose proof (IH true). pose proof (IH false).
  destruct (c =? full_stop)%N; [destruct b|]; cbn [List.length]; lia.
Qed.

Lemma length_sub_dashes (seen : dashes) (x : str) :
  List.length (sub_dashes seen x)
  <= List.length x + match seen with OneDash => 1 | _ => 0 end.
Proof.
  revert seen. induction x as [|c x IH]; intros seen; cbn [sub_dashes].
  - destruct seen; cbn [List.length]; lia.
  - pose proof (IH NoDash). pose proof (IH OneDash). pose proof (IH DashRun).
    destruct (c =? dash)%N; destruct seen; cbn [List.length] in *; lia.
Qed.

Lemma length_truncate_hard (x : str) :
  List.length (truncate_hard x) <= List.length x /\
  (Z.of_nat (List.length (truncate_hard x)) <= 8000)%Z.
Proof.
  unfold truncate_hard. destruct (8000 <? Z.of_nat (List.length x))%Z eqn:E.
  - apply Z.ltb_lt in E. rewrite length_app, length_firstn.
    cbn [List.length]. lia.
  - apply Z.ltb_ge in E. lia.
Qed.

Lemma sub_inessential_essential (word_char : char -> bool) (x : str) :
  Forall (fun c => essential_char word_char c = true)
         (sub_inessential word_char x).
Proof.
  unfold sub_inessential. apply Forall_map, Forall_forall. intros c _.
  destruct (essential_char word_char c) eqn:E; [exact E|].
  unfold essential_char. rewrite space_isspace. now rewrite orb_true_r.
Qed.

Lemma sub_inessential_chars (word_char : char -> bool) (P : char -> Prop)
      (x : str) :
  P space -> Forall P x -> Forall P (sub_inessential word_char x).
Proof.
  intros Hs H. unfold sub_inessential. induction H as [|c x Hc Hx IH];
    [constructor|]. cbn [map].
  constructor; [|exact IH]. now destruct (essential_char word_char c).
Qed.

(** X24: the text [_clean_text_for_tts_fast] returns is its own words joined
    by single spaces; it holds no markdown character and nothing but word
    characters, spaces and the punctuation [.,!?;:'-]; it is never longer
    than the text given nor than 8000 characters. *)
Theorem clean_text_for_tts_fast_is_normalised
        (word_char : char -> bool) (text : str) :
  _clean_text_for_tts_fast word_char text
  = join_words (split (_clean_text_for_tts_fast word_char text)) /\
  Forall (fun c => markdown_char c = false /\
                   essential_char word_char c = true)
         (_clean_text_for_tts_fast word_char text) /\
  List.length (_clean_text_for_tts_fast word_char text) <= List.length text /\
  (Z.of_nat (List.length (_clean_text_for_tts_fast word_char text)) <= 8000)%Z.
Proof.
  unfold _clean_text_for_tts_fast. cbv zeta.
  set (a := sub_markdown text).
  set (b := sub_dots false a).
  set (c := sub_dashes NoDash b).
  set (d := sub_inessential word_char c).
  set (e := sub_spaces false d).
  split; [|split; [|split]].
  - apply strip_single_spaced, single_spaced_truncate_hard.
    apply single_spaced_sub_spaces.
  - apply Forall_and.
    + apply strip_chars, truncate_hard_chars; [reflexivity|].
      apply sub_spaces_chars; [reflexivity|].
      apply sub_inessential_chars; [reflexivity|].
      apply sub_dashes_chars; [reflexivity|reflexivity|].
      apply sub_dots_chars; [reflexivity|]. apply sub_markdown_clean.
    + assert (Hs : essential_char word_char space = true).
      { unfold essential_char. rewrite space_isspace. now rewrite orb_true_r. }
      assert (Hf : essential_char word_char full_stop = true).
      { unfold essential_char. cbn. now rewrite !orb_true_r. }
      apply strip_chars, truncate_hard_chars; [exact Hf|].
      apply sub_spaces_chars; [exact Hs|]. apply sub_inessential_essential.
  - etransitivity; [apply length_strip|].
    etransitivity; [apply (proj1 (length_truncate_hard _))|].
    etransitivity; [apply length_sub_spaces|].
    subst e d. unfold sub_inessential. rewrite length_map.
    etransitivity; [apply (length_sub_dashes NoDash)|]. rewrite Nat.add_0_r.
    etransitivity; [apply length_sub_dots|].
    subst a. unfold sub_markdown. now rewrite length_map.
  - pose proof (length_strip (truncate_hard e)).
    pose proof (proj2 (length_truncate_hard e)). lia.
Qed.

(* ------------------------------------------------------------------ *)

Section Requests.

Variable synthesize : nat -> str -> option bytes.

Lemma gather_app (i : nat) (a b : list str) :
  gather synthesize i (a ++ b)
  = gather synthesize i a ++ gather synthesize (i + List.length a) b.
Proof.
  revert i. induction a as [|x a IH]; intros i.
  - cbn [app gather List.length]. now rewrite Nat.add_0_r.
  - cbn [app gather List.length]. rewrite IH. do 3 f_equal. lia.
Qed.

Lemma map_fst_gather (i : nat) (chunks : list str) :
  map fst (gather synthesize i chunks) = chunks.
Proof.
  revert i. induction chunks as [|x chunks IH]; intros i; [reflexivity|].
  cbn [gather map fst]. now rewrite IH.
Qed.

Lemma map_snd_gather (i : nat) (chunks : list str) :
  map snd (gather synthesize i chunks)
  = map (fun request => _generate_audio_single synthesize (fst request)
                                               (snd request))
        (combine (seq i (List.length chunks)) chunks).
Proof.
  revert i. induction chunks as [|x chunks IH]; intros i; [reflexivity|].
  cbn [gather map snd fst List.length seq combine]. now rewrite IH.
Qed.

Lemma combine_results_concat (results : list (str * bytes)) :
  forall all_audio_bytes,
    combine_results all_audio_bytes results
    = all_audio_bytes ++ List.concat (map snd results).
Proof.
  unfold combine_results.
  induction results as [|r results IH]; intros acc; cbn [fold_left map List.concat].
  - now rewrite app_nil_r.
  - rewrite IH. destruct (snd r) as [|x audio]; cbn [nonempty app].
    + reflexivity.
    + now rewrite <- app_assoc.
Qed.

(** The batches, whatever their size, make one request for each chunk, in
    order, and put the results together in the same order. *)
Lemma batches_spec (max_concurrent : nat) (fuel : nat) :
  0 < max_concurrent ->
  forall chunks i requests all_audio_bytes,
    List.length chunks <= fuel ->
    batches synthesize fuel max_concurrent i chunks requests all_audio_bytes
    = (requests ++ chunks,
       all_audio_bytes ++ List.concat (map snd (gather synthesize i chunks))).
Proof.
  intros Hpos. induction fuel as [|fuel IH]; intros chunks i requests acc Hlen.
  - destruct chunks; [|cbn [List.length] in Hlen; lia].
    cbn [batches gather map List.concat]. now rewrite !app_nil_r.
  - cbn [batches]. destruct chunks as [|x chunks].
    + cbn [gather map List.concat]. now rewrite !app_nil_r.
    + cbv zeta. remember (x :: chunks) as all eqn:Eall.
      rewrite IH.
      2:{ rewrite length_skipn. subst all. cbn [List.length] in *. lia. }
      rewrite map_fst_gather, combine_results_concat, <- !app_assoc.
      rewrite firstn_skipn. f_equal. f_equal.
      rewrite <- concat_app, <- map_app.
      rewrite <- (firstn_skipn max_concurrent all) at 3.
      rewrite gather_app. do 3 f_equal.
      destruct (le_lt_dec max_concurrent (List.length all)) as [Hle|Hlt].
      * rewrite length_firstn. f_equal. lia.
      * rewrite skipn_all2 by lia. reflexivity.
Qed.

Lemma parallel_chunks_spec (text : str) (chunk_size : Z) :
  _generate_audio_parallel_chunks synthesize text chunk_size
  = (_split_text_fast text chunk_size,
     List.concat (map snd (gather synthesize 0
                                  (_split_text_fast text chunk_size)))).
Proof.
  unfold _generate_audio_parallel_chunks. cbv zeta.
  destruct (_split_text_fast text chunk_size) as [|x chunks] eqn:E.
  - reflexivity.
  - assert (Hm : Nat.min 4 (List.length (x :: chunks)) <> 0)
      by (cbn [List.length]; lia).
    apply Nat.eqb_neq in Hm. rewrite Hm.
    rewrite batches_spec; [reflexivity| |apply le_n].
    cbn [List.length]. lia.
Qed.

(** X25: [_generate_audio_parallel_chunks] makes one request for each chunk
    of [_split_text_fast], and whatever the batches are, the audio it returns
    is the results of these requests put together in the order of the chunks
    in the text; a request that fails adds nothing. *)
Theorem parallel_chunks_are_put_together_in_text_order
        (text : str) (chunk_size : Z) :
  fst (_generate_audio_parallel_chunks synthesize text chunk_size)
  = _split_text_fast text chunk_size /\
  snd (_generate_audio_parallel_chunks synthesize text chunk_size)
  = List.concat
      (map (fun request => _generate_audio_single synthesize (fst request)
                                                  (snd request))
           (combine (seq 0 (List.length (_split_text_fast text chunk_size)))
                    (_split_text_fast text chunk_size))).
Proof.
  rewrite parallel_chunks_spec. cbn [fst snd]. split; [reflexivity|].
  f_equal. apply map_snd_gather.
Qed.

Variable word_char : char -> bool.

(** X26: the texts [generate_audio] sends to the provider hold, in order,
    exactly the words of the cleaned text; each of them is at most 2500
    characters long unless it is a single word of the cleaned text; and the
    audio returned is the results of these requests, in order. *)
Theorem generate_audio_requests_fit (text : str) :
  flat_map split (fst (generate_audio word_char synthesize text))
  = split (_clean_text_for_tts_fast word_char text) /\
  Forall (fun request =>
            (Z.of_nat (List.length request) <= 2500)%Z \/
            In request (split (_clean_text_for_tts_fast word_char text)))
         (fst (generate_audio word_char synthesize text)) /\
  snd (generate_audio word_char synthesize text)
  = List.concat
      (map snd (gather synthesize 0
                       (fst (generate_audio word_char synthesize text)))).
Proof.
  unfold generate_audio. cbv zeta.
  set (cleaned := _clean_text_for_tts_fast word_char text).
  assert (Hfit : forall size, (size <= 2500)%Z ->
            Forall (fun request =>
                      (Z.of_nat (List.length request) <= 2500)%Z \/
                      In request (split cleaned))
                   (_split_text_fast cleaned size)).
  { intros size Hsize.
    eapply Forall_impl; [|apply (split_text_fast_all_fit cleaned size)].
    intros chunk [_ [_ [H|H]]]; [left; lia|now right]. }
  destruct (Z.of_nat (List.length cleaned) <=? 2500)%Z eqn:E1.
  - apply Z.leb_le in E1. cbn [fst snd gather map List.concat flat_map].
    rewrite !app_nil_r. split; [reflexivity|split; [|reflexivity]].
    constructor; [now left|constructor].
  - destruct (Z.of_nat (List.length cleaned) <=? 6000)%Z;
      rewrite parallel_chunks_spec; cbn [fst snd];
      (split; [apply split_text_fast_words|split; [|reflexivity]]);
      apply Hfit; lia.
Qed.

End Requests.

End FastAudioFacts.
